(** * InjectorModel: the CERN ion injector chain with linear space charge

    A shallow embedding of [injector_model/injector_model.py] (class
    [InjectorChain]) and the properties of its intensity computation.

    The Python code computes with [numpy.float64] values.  The embedding is
    written once, over an interface [Arith] of the arithmetic operations the
    code uses, and read at two instances:
    - [binary64]: IEEE 754 double precision (Rocq's primitive floats), the
      arithmetic the interpreter really performs, with NaN and infinities;
    - [ideal]: the real numbers, the arithmetic the physics formulas are
      written in (no rounding, no NaN).
    Properties that only depend on how the code is put together are proved
    for every instance; order properties are proved over the real numbers;
    NaN behaviour is proved over the floats. *)

From Stdlib Require Import ZArith List String Bool Lia.
From Stdlib Require Import Reals Lra Psatz.
From Stdlib Require PrimFloat SpecFloat FloatOps FloatAxioms.
From Stdlib Require DecimalString.
Import ListNotations.

Set Implicit Arguments.
Open Scope string_scope.

(** ** Exceptions and results *)

(** The Python exceptions the modelled code can raise. *)
Inductive exn : Type :=
| KeyError (key : string)
| ValueError (msg : string)
| AttributeError (attr : string)
| OverflowError (msg : string)
| FileNotFoundError (path : string).

Inductive result (T : Type) : Type :=
| OK (v : T)
| Raise (e : exn).
Arguments OK {T} v.
Arguments Raise {T} e.

Definition bind {T U : Type} (m : result T) (k : T -> result U) : result U :=
  match m with
  | OK v => k v
  | Raise e => Raise e
  end.

Declare Scope py_scope.
Delimit Scope py_scope with py.
Notation "x <- m ;; k" := (bind m (fun x => k))
  (at level 61, m at next level, right associativity) : py_scope.
Notation "' p <- m ;; k" := (bind m (fun p => k))
  (at level 61, p pattern, m at next level, right associativity) : py_scope.

(** An attribute of [self] that is read before any method assigned it. *)
Definition attr {T : Type} (name : string) (o : option T) : result T :=
  match o with
  | Some v => OK v
  | None => Raise (AttributeError name)
  end.

(** ** The arithmetic interface *)

Class Arith (num : Type) : Type := {
  nadd : num -> num -> num;          (* x + y *)
  nsub : num -> num -> num;          (* x - y *)
  nmul : num -> num -> num;          (* x * y *)
  ndiv : num -> num -> num;          (* x / y *)
  nsqrt : num -> num;                (* np.sqrt(x) *)
  nofZ : Z -> num;                   (* an int used as a float *)
  ndec : Z -> Z -> num;              (* the decimal literal m e k, m * 10^k *)
  nltb : num -> num -> bool;         (* x < y *)
  neqb : num -> num -> bool;         (* x == y *)
  nisnan : num -> bool;              (* np.isnan(x) *)
  nceil : num -> result Z;           (* math.ceil(x) *)
  ntrunc : num -> result Z           (* int(x) *)
}.

Declare Scope num_scope.
Delimit Scope num_scope with num.
Infix "+" := nadd : num_scope.
Infix "-" := nsub : num_scope.
Infix "*" := nmul : num_scope.
Infix "/" := ndiv : num_scope.

(** *** IEEE 754 binary64 *)

Module B64.
Import PrimFloat SpecFloat FloatOps.

(** Conversion of an integer, rounded to nearest even. *)
Definition ofZ (z : Z) : float := SF2Prim (binary_normalize prec emax z 0 false).

(** The float nearest to [m * 10^k], as the parser of float literals
    returns it. *)
Definition dec (m k : Z) : float :=
  if (0 <=? k)%Z then ofZ (m * 10 ^ k)
  else
    let d := S754_finite false (Z.to_pos (10 ^ (- k))) 0 in
    match m with
    | Z0 => zero
    | Zpos p => SF2Prim (SFdiv prec emax (S754_finite false p 0) d)
    | Zneg p => SF2Prim (SFdiv prec emax (S754_finite true p 0) d)
    end.

(** The integer value of a finite float, rounded towards minus infinity
    ([up = false]) or plus infinity ([up = true]) when it is fractional. *)
Definition round_dir (up : bool) (s : bool) (m : positive) (e : Z) : Z :=
  let v := (if s then Z.neg m else Z.pos m) in
  if (0 <=? e)%Z then (v * 2 ^ e)%Z
  else
    let d := (2 ^ (- e))%Z in
    if up then (- ((- v) / d))%Z else (v / d)%Z.

(** [math.ceil]: ValueError on NaN, OverflowError on an infinity. *)
Definition ceil (x : float) : result Z :=
  match Prim2SF x with
  | S754_zero _ => OK 0%Z
  | S754_finite s m e => OK (round_dir true s m e)
  | S754_infinity _ => Raise (OverflowError "cannot convert float infinity to integer")
  | S754_nan => Raise (ValueError "cannot convert float NaN to integer")
  end.

(** [int]: truncation towards zero, with the same errors. *)
Definition trunc (x : float) : result Z :=
  match Prim2SF x with
  | S754_zero _ => OK 0%Z
  | S754_finite s m e => OK (round_dir s s m e)
  | S754_infinity _ => Raise (OverflowError "cannot convert float infinity to integer")
  | S754_nan => Raise (ValueError "cannot convert float NaN to integer")
  end.
End B64.

#[global] Instance binary64 : Arith PrimFloat.float := {|
  nadd := PrimFloat.add;
  nsub := PrimFloat.sub;
  nmul := PrimFloat.mul;
  ndiv := PrimFloat.div;
  nsqrt := PrimFloat.sqrt;
  nofZ := B64.ofZ;
  ndec := B64.dec;
  nltb := PrimFloat.ltb;
  neqb := PrimFloat.eqb;
  nisnan := PrimFloat.is_nan;
  nceil := B64.ceil;
  ntrunc := B64.trunc
|}.

(** *** The real numbers *)

Module Ideal.
Definition dec (m k : Z) : R :=
  if (0 <=? k)%Z then IZR (m * 10 ^ k) else (IZR m / IZR (10 ^ (- k)))%R.
(** The least integer not below [x]. *)
Definition ceil (x : R) : Z := (1 - up (- x))%Z.
(** The integer part of [x], towards zero. *)
Definition trunc (x : R) : Z :=
  if Rle_dec 0 x then (up x - 1)%Z else ceil x.
End Ideal.

#[global] Instance ideal : Arith R := {|
  nadd := Rplus;
  nsub := Rminus;
  nmul := Rmult;
  ndiv := Rdiv;
  nsqrt := R_sqrt.sqrt;
  nofZ := IZR;
  ndec := Ideal.dec;
  nltb := fun x y => if Rlt_dec x y then true else false;
  neqb := fun x y => if Req_dec_T x y then true else false;
  nisnan := fun _ => false;
  nceil := fun x => OK (Ideal.ceil x);
  ntrunc := fun x => OK (Ideal.trunc x)
|}.

(** ** Tables supplied by the caller *)

Section Model.
Context {num : Type} {arith : Arith num}.
Local Open Scope num_scope.
Local Open Scope py_scope.

(** One column of the ion property table [ion_data]: the properties of one
    ion species, by row label. *)
Record IonData : Type := {
  row_mass_GeV : num;                (* 'mass [GeV]' *)
  row_Z : num;                       (* 'Z' *)
  row_A : num;                       (* 'A' *)
  row_Q_before_stripping : num;      (* 'Q before stripping' *)
  row_Linac3_current_uA : num;       (* 'Linac3 current [uA]' *)
  row_Linac3_pulse_length_us : num;  (* 'Linac3 pulse length [us]' *)
  row_LEIR_PS_Stripping_Efficiency : num  (* 'LEIR-PS Stripping Efficiency' *)
}.

(** The ion property table, a data frame with one column per ion, in the
    order of the columns. *)
Definition IonTable : Type := list (string * IonData).

Definition columns (t : IonTable) : list string := map fst t.

(** [full_ion_data[ion_type]['mass [GeV]']] and the like.  A label that is
    no column raises KeyError; a label that several columns carry selects a
    sub-frame, in which the row label is looked up as a column and raises
    KeyError. *)
Definition column (t : IonTable) (ion_type : string) : result IonData :=
  match filter (fun c => String.eqb (fst c) ion_type) t with
  | [] => Raise (KeyError ion_type)
  | [c] => OK (snd c)
  | _ :: _ :: _ => Raise (KeyError "mass [GeV]")
  end.

(** One row of the table of precomputed relativistic gammas. *)
Record EnergyRow : Type := {
  LEIR_gamma_inj : num;
  LEIR_gamma_extr : num;
  PS_gamma_inj : num;
  PS_gamma_extr : num;
  SPS_gamma_inj : num;
  SPS_gamma_extr : num
}.

(** The table of precomputed gammas, indexed by keys such as "54Pb208". *)
Definition EnergyTable : Type := list (string * EnergyRow).

(** [ion_energy_data.loc[key]], for an index without repeated keys. *)
Fixpoint loc (t : EnergyTable) (key : string) : result EnergyRow :=
  match t with
  | [] => Raise (KeyError key)
  | (k, r) :: t' => if String.eqb k key then OK r else loc t' key
  end.

(** ** The attributes of an [InjectorChain] object

    The attributes are grouped by the method that assigns them; a group
    that no method has assigned yet is [None]. *)

(** Assigned by [init_ion]; [ion_Z], [ion_A] and [ion_Q] are the attributes
    [Z], [A] and [Q]. *)
Record IonAttrs : Type := {
  ion_type : string;
  ion_data : IonData;
  mass_GeV : num;
  ion_Z : num;
  ion_A : num;
  ion_Q : num;
  linac3_current : num;
  linac3_pulseLength : num;
  LEIR_injection_efficiency : num;
  LEIR_transmission : num;
  LEIR_PS_stripping_efficiency : num;
  PS_transmission : num;
  PS_SPS_transmission_efficiency : num;
  PS_SPS_strip : bool;
  PS_SPS_stripping_efficiency : num;
  SPS_transmission : num;
  SPS_slipstacking_transmission : num
}.

(** Assigned by [load_ion_energy]. *)
Record EnergyAttrs : Type := {
  LEIR_gamma_inj_ref : num;
  LEIR_gamma_extr_ref : num;
  PS_gamma_inj_ref : num;
  PS_gamma_extr_ref : num;
  SPS_gamma_inj_ref : num;
  SPS_gamma_extr_ref : num
}.

(** Assigned by [ion0_referenceValues]. *)
Record ReferenceAttrs : Type := {
  E_kin_per_A_LEIR_inj : num;
  E_kin_per_A_LEIR_extr : num;
  E_kin_per_A_PS_inj : num;
  E_kin_per_A_PS_extr : num;
  E_kin_per_A_SPS_inj : num;
  E_kin_per_A_SPS_extr : num;
  m0_GeV : num;
  Z0 : num;
  Nq0_LEIR_extr : num;
  Q0_LEIR : num;
  Nb0_LEIR_extr : num;
  gamma0_LEIR_inj : num;
  gamma0_LEIR_extr : num;
  Nq0_PS_extr : num;
  Q0_PS : num;
  Nb0_PS_extr : num;
  gamma0_PS_inj : num;
  gamma0_PS_extr : num;
  Nb0_SPS_extr : num;
  Q0_SPS : num;
  Nq0_SPS_extr : num;
  gamma0_SPS_inj : num;
  gamma0_SPS_extr : num
}.

(** Assigned by [leir], [ps] and [sps]. *)
Record LeirAttrs : Type := {
  gamma_LEIR_inj : num;
  gamma_LEIR_extr : num;
  Nb_LEIR_extr : num;
  Nq_LEIR_extr : num
}.

Record PsAttrs : Type := {
  gamma_PS_inj : num;
  gamma_PS_extr : num;
  Nb_PS_extr : num;
  Nq_PS_extr : num
}.

Record SpsAttrs : Type := {
  gamma_SPS_inj : num;
  gamma_SPS_extr : num;
  Nb_SPS_extr : num;
  Nq_SPS_extr : num
}.

(** The object.  The first fields are assigned by the constructor from
    its arguments. *)
Record InjectorChain : Type := {
  full_ion_data : IonTable;
  LEIR_PS_strip : bool;
  higher_brho_LEIR : bool;
  use_gammas_ref : bool;
  ion_energy_data : EnergyTable;
  debug_mode : bool;
  account_for_SPS_transmission : bool;
  consider_PS_space_charge_limit : bool;
  nPulsesLEIR : Z;
  LEIR_bunches : Z;
  PS_splitting : Z;
  ion_type_ref : string;
  save_path : string;
  use_Roderiks_gamma : bool;
  ion : option IonAttrs;
  energy : option EnergyAttrs;
  reference : option ReferenceAttrs;
  leir_out : option LeirAttrs;
  ps_out : option PsAttrs;
  sps_out : option SpsAttrs
}.

(** Assignment of one group of attributes. *)
Definition set_ion (self : InjectorChain) (v : IonAttrs) : InjectorChain :=
  {| full_ion_data := full_ion_data self; LEIR_PS_strip := LEIR_PS_strip self;
     higher_brho_LEIR := higher_brho_LEIR self; use_gammas_ref := use_gammas_ref self;
     ion_energy_data := ion_energy_data self; debug_mode := debug_mode self;
     account_for_SPS_transmission := account_for_SPS_transmission self;
     consider_PS_space_charge_limit := consider_PS_space_charge_limit self;
     nPulsesLEIR := nPulsesLEIR self; LEIR_bunches := LEIR_bunches self;
     PS_splitting := PS_splitting self; ion_type_ref := ion_type_ref self;
     save_path := save_path self; use_Roderiks_gamma := use_Roderiks_gamma self;
     ion := Some v; energy := energy self; reference := reference self;
     leir_out := leir_out self; ps_out := ps_out self; sps_out := sps_out self |}.

Definition set_energy (self : InjectorChain) (v : EnergyAttrs) : InjectorChain :=
  {| full_ion_data := full_ion_data self; LEIR_PS_strip := LEIR_PS_strip self;
     higher_brho_LEIR := higher_brho_LEIR self; use_gammas_ref := use_gammas_ref self;
     ion_energy_data := ion_energy_data self; debug_mode := debug_mode self;
     account_for_SPS_transmission := account_for_SPS_transmission self;
     consider_PS_space_charge_limit := consider_PS_space_charge_limit self;
     nPulsesLEIR := nPulsesLEIR self; LEIR_bunches := LEIR_bunches self;
     PS_splitting := PS_splitting self; ion_type_ref := ion_type_ref self;
     save_path := save_path self; use_Roderiks_gamma := use_Roderiks_gamma self;
     ion := ion self; energy := Some v; reference := reference self;
     leir_out := leir_out self; ps_out := ps_out self; sps_out := sps_out self |}.

Definition set_reference (self : InjectorChain) (v : ReferenceAttrs) : InjectorChain :=
  {| full_ion_data := full_ion_data self; LEIR_PS_strip := LEIR_PS_strip self;
     higher_brho_LEIR := higher_brho_LEIR self; use_gammas_ref := use_gammas_ref self;
     ion_energy_data := ion_energy_data self; debug_mode := debug_mode self;
     account_for_SPS_transmission := account_for_SPS_transmission self;
     consider_PS_space_charge_limit := consider_PS_space_charge_limit self;
     nPulsesLEIR := nPulsesLEIR self; LEIR_bunches := LEIR_bunches self;
     PS_splitting := PS_splitting self; ion_type_ref := ion_type_ref self;
     save_path := save_path self; use_Roderiks_gamma := use_Roderiks_gamma self;
     ion := ion self; energy := energy self; reference := Some v;
     leir_out := leir_out self; ps_out := ps_out self; sps_out := sps_out self |}.

Definition set_leir (self : InjectorChain) (v : LeirAttrs) : InjectorChain :=
  {| full_ion_data := full_ion_data self; LEIR_PS_strip := LEIR_PS_strip self;
     higher_brho_LEIR := higher_brho_LEIR self; use_gammas_ref := use_gammas_ref self;
     ion_energy_data := ion_energy_data self; debug_mode := debug_mode self;
     account_for_SPS_transmission := account_for_SPS_transmission self;
     consider_PS_space_charge_limit := consider_PS_space_charge_limit self;
     nPulsesLEIR := nPulsesLEIR self; LEIR_bunches := LEIR_bunches self;
     PS_splitting := PS_splitting self; ion_type_ref := ion_type_ref self;
     save_path := save_path self; use_Roderiks_gamma := use_Roderiks_gamma self;
     ion := ion self; energy := energy self; reference := reference self;
     leir_out := Some v; ps_out := ps_out self; sps_out := sps_out self |}.

Definition set_ps (self : InjectorChain) (v : PsAttrs) : InjectorChain :=
  {| full_ion_data := full_ion_data self; LEIR_PS_strip := LEIR_PS_strip self;
     higher_brho_LEIR := higher_brho_LEIR self; use_gammas_ref := use_gammas_ref self;
     ion_energy_data := ion_energy_data self; debug_mode := debug_mode self;
     account_for_SPS_transmission := account_for_SPS_transmission self;
     consider_PS_space_charge_limit := consider_PS_space_charge_limit self;
     nPulsesLEIR := nPulsesLEIR self; LEIR_bunches := LEIR_bunches self;
     PS_splitting := PS_splitting self; ion_type_ref := ion_type_ref self;
     save_path := save_path self; use_Roderiks_gamma := use_Roderiks_gamma self;
     ion := ion self; energy := energy self; reference := reference self;
     leir_out := leir_out self; ps_out := Some v; sps_out := sps_out self |}.

Definition set_sps (self : InjectorChain) (v : SpsAttrs) : InjectorChain :=
  {| full_ion_data := full_ion_data self; LEIR_PS_strip := LEIR_PS_strip self;
     higher_brho_LEIR := higher_brho_LEIR self; use_gammas_ref := use_gammas_ref self;
     ion_energy_data := ion_energy_data self; debug_mode := debug_mode self;
     account_for_SPS_transmission := account_for_SPS_transmission self;
     consider_PS_space_charge_limit := consider_PS_space_charge_limit self;
     nPulsesLEIR := nPulsesLEIR self; LEIR_bunches := LEIR_bunches self;
     PS_splitting := PS_splitting self; ion_type_ref := ion_type_ref self;
     save_path := save_path self; use_Roderiks_gamma := use_Roderiks_gamma self;
     ion := ion self; energy := energy self; reference := reference self;
     leir_out := leir_out self; ps_out := ps_out self; sps_out := Some v |}.

(** [self.SPS_transmission = v]. *)
Definition set_SPS_transmission (i : IonAttrs) (v : num) : IonAttrs :=
  {| ion_type := ion_type i; ion_data := ion_data i; mass_GeV := mass_GeV i;
     ion_Z := ion_Z i; ion_A := ion_A i; ion_Q := ion_Q i;
     linac3_current := linac3_current i; linac3_pulseLength := linac3_pulseLength i;
     LEIR_injection_efficiency := LEIR_injection_efficiency i;
     LEIR_transmission := LEIR_transmission i;
     LEIR_PS_stripping_efficiency := LEIR_PS_stripping_efficiency i;
     PS_transmission := PS_transmission i;
     PS_SPS_transmission_efficiency := PS_SPS_transmission_efficiency i;
     PS_SPS_strip := PS_SPS_strip i;
     PS_SPS_stripping_efficiency := PS_SPS_stripping_efficiency i;
     SPS_transmission := v;
     SPS_slipstacking_transmission := SPS_slipstacking_transmission i |}.

(** ** Python built-ins used by the methods *)

(** [str(n)] for an int. *)
Definition str (n : Z) : string := DecimalString.NilZero.string_of_int (Z.to_int n).

(** [x ** 2], the square. *)
Definition pow2 (x : num) : num := x * x.

(** The built-in [min(a, b)]: [b] when [b < a], else [a]. *)
Definition py_min (a b : num) : num := if nltb b a then b else a.

(** [np.min([a, b])]: the least element, NaN when one of them is NaN. *)
Definition np_min (a b : num) : num :=
  if nisnan a then a else if nisnan b then b else if nltb b a then b else a.

(** [scipy.constants.e], the elementary charge 1.602176634e-19 C. *)
Definition e : num := ndec 1602176634 (-28).

(** ** The methods of [InjectorChain] *)

(** Loads calculated ion energies for each ion type. *)
Definition load_ion_energy (self : InjectorChain) : result InjectorChain :=
  i <- attr "Q" (ion self) ;;
  q <- ntrunc (ion_Q i) ;;
  a <- ntrunc (ion_A i) ;;
  let key := str q ++ ion_type i ++ str a in
  ion_energy <- loc (ion_energy_data self) key ;;
  OK (set_energy self
        {| LEIR_gamma_inj_ref := LEIR_gamma_inj ion_energy;
           LEIR_gamma_extr_ref := LEIR_gamma_extr ion_energy;
           PS_gamma_inj_ref := PS_gamma_inj ion_energy;
           PS_gamma_extr_ref := PS_gamma_extr ion_energy;
           SPS_gamma_inj_ref := SPS_gamma_inj ion_energy;
           SPS_gamma_extr_ref := SPS_gamma_extr ion_energy |}).

(** Initialize ion species for a given type. *)
Definition init_ion (self : InjectorChain) (ion_type : string) : result InjectorChain :=
  ion_data <- column (full_ion_data self) ion_type ;;
  let self := set_ion self
    {| ion_type := ion_type;
       ion_data := ion_data;
       mass_GeV := row_mass_GeV ion_data;
       ion_Z := row_Z ion_data;
       ion_A := row_A ion_data;
       ion_Q := row_Q_before_stripping ion_data;
       linac3_current := row_Linac3_current_uA ion_data * ndec 1 (-6);
       linac3_pulseLength := row_Linac3_pulse_length_us ion_data * ndec 1 (-6);
       LEIR_injection_efficiency := ndec 5 (-1);
       LEIR_transmission := ndec 8 (-1);
       LEIR_PS_stripping_efficiency := row_LEIR_PS_Stripping_Efficiency ion_data;
       PS_transmission := ndec 9 (-1);
       PS_SPS_transmission_efficiency := ndec 10 (-1);
       PS_SPS_strip := negb (LEIR_PS_strip self);
       PS_SPS_stripping_efficiency := ndec 9 (-1);
       SPS_transmission := ndec 62 (-2);
       SPS_slipstacking_transmission := ndec 10 (-1) |} in
  if use_gammas_ref self then load_ion_energy self else OK self.

(** Relativistic beta factor from gamma factor. *)
Definition beta (gamma : num) : num :=
  nsqrt (nofZ 1 - nofZ 1 / pow2 gamma).

(** Approximate scaling of the linear space charge tune shift, without
    its constants. *)
Definition spaceChargeScalingFactor (self : InjectorChain)
    (Nb m gamma epsilon sigma_z : num) (fully_stripped : bool) : result num :=
  i <- attr (if fully_stripped then "Z" else "Q") (ion self) ;;
  let charge := if fully_stripped then ion_Z i else ion_Q i in
  let beta := beta gamma in
  OK (Nb * pow2 charge / (m * beta * pow2 gamma * epsilon * sigma_z)).

(** Linear intensity limit for a new ion species, for the bunch intensity
    [Nb_0] and the parameters [gamma_0], [charge_0], [m_0] of the reference
    ion species. *)
Definition linearIntensityLimit (self : InjectorChain)
    (m gamma Nb_0 charge_0 m_0 gamma_0 : num) (fully_stripped : bool) : result num :=
  i <- attr (if fully_stripped then "Z" else "Q") (ion self) ;;
  let charge := if fully_stripped then ion_Z i else ion_Q i in
  let beta_0 := beta gamma_0 in
  let beta := beta gamma in
  let linearIntensityFactor :=
    (m / m_0) * pow2 (charge_0 / charge) * (beta / beta_0) * pow2 (gamma / gamma_0) in
  OK (Nb_0 * linearIntensityFactor).

(** Sets bunch intensity Nb, gamma factor and mass of the reference ion
    species. *)
Definition ion0_referenceValues (self : InjectorChain) : result InjectorChain :=
  (* LEIR *)
  let E_kin_per_A_LEIR_inj := ndec 42 (-4) in     (* 4.2e-3 *)
  let E_kin_per_A_LEIR_extr := ndec 722 (-4) in   (* 7.22e-2 *)
  (* PS *)
  let E_kin_per_A_PS_inj := ndec 722 (-4) in      (* 7.22e-2 *)
  let E_kin_per_A_PS_extr := ndec 59 (-1) in      (* 5.9 *)
  (* SPS *)
  let E_kin_per_A_SPS_inj := ndec 59 (-1) in      (* 5.9 *)
  let E_kin_per_A_SPS_extr := ndec 1764 (-1) in   (* 176.4 *)
  if String.eqb (ion_type_ref self) "Pb" then
    let m0_GeV := ndec 193687 (-3) in             (* 193.687 *)
    let Z0 := ndec 820 (-1) in                    (* 82.0 *)
    (* LEIR *)
    let Nq0_LEIR_extr := ndec 10 10 in            (* 10e10 *)
    let Q0_LEIR := ndec 540 (-1) in               (* 54.0 *)
    let Nb0_LEIR_extr := Nq0_LEIR_extr / Q0_LEIR in
    let gamma0_LEIR_inj := (m0_GeV + E_kin_per_A_LEIR_inj * nofZ 208) / m0_GeV in
    let gamma0_LEIR_extr := (m0_GeV + E_kin_per_A_LEIR_extr * nofZ 208) / m0_GeV in
    (* PS *)
    let Nq0_PS_extr := ndec 6 10 in               (* 6e10 *)
    let Q0_PS := ndec 540 (-1) in                 (* 54.0 *)
    let Nb0_PS_extr := Nq0_PS_extr / Q0_PS in
    let gamma0_PS_inj := (m0_GeV + E_kin_per_A_PS_inj * nofZ 208) / m0_GeV in
    let gamma0_PS_extr := (m0_GeV + E_kin_per_A_PS_extr * nofZ 208) / m0_GeV in
    (* SPS *)
    i <- attr "SPS_transmission" (ion self) ;;
    let i := if negb (account_for_SPS_transmission self)
             then set_SPS_transmission i (ndec 10 (-1)) else i in
    let Nb0_SPS_extr := ndec 221 6 / SPS_transmission i in   (* 2.21e8 *)
    let Q0_SPS := ndec 820 (-1) in                (* 82.0 *)
    let Nq0_SPS_extr := Nb0_SPS_extr * Q0_SPS in
    let gamma0_SPS_inj := (m0_GeV + E_kin_per_A_SPS_inj * nofZ 208) / m0_GeV in
    let gamma0_SPS_extr := (m0_GeV + E_kin_per_A_SPS_extr * nofZ 208) / m0_GeV in
    OK (set_reference (set_ion self i)
          {| E_kin_per_A_LEIR_inj := E_kin_per_A_LEIR_inj;
             E_kin_per_A_LEIR_extr := E_kin_per_A_LEIR_extr;
             E_kin_per_A_PS_inj := E_kin_per_A_PS_inj;
             E_kin_per_A_PS_extr := E_kin_per_A_PS_extr;
             E_kin_per_A_SPS_inj := E_kin_per_A_SPS_inj;
             E_kin_per_A_SPS_extr := E_kin_per_A_SPS_extr;
             m0_GeV := m0_GeV; Z0 := Z0;
             Nq0_LEIR_extr := Nq0_LEIR_extr; Q0_LEIR := Q0_LEIR;
             Nb0_LEIR_extr := Nb0_LEIR_extr;
             gamma0_LEIR_inj := gamma0_LEIR_inj; gamma0_LEIR_extr := gamma0_LEIR_extr;
             Nq0_PS_extr := Nq0_PS_extr; Q0_PS := Q0_PS; Nb0_PS_extr := Nb0_PS_extr;
             gamma0_PS_inj := gamma0_PS_inj; gamma0_PS_extr := gamma0_PS_extr;
             Nb0_SPS_extr := Nb0_SPS_extr; Q0_SPS := Q0_SPS;
             Nq0_SPS_extr := Nq0_SPS_extr;
             gamma0_SPS_inj := gamma0_SPS_inj; gamma0_SPS_extr := gamma0_SPS_extr |})
  else Raise (ValueError "Other reference ion type than Pb does not yet exist!").

(** Gamma at entrance and exit of the LEIR and transmitted bunch intensity. *)
Definition leir (self : InjectorChain) : result InjectorChain :=
  '(gamma_LEIR_inj, gamma_LEIR_extr) <-
    (if use_gammas_ref self then
       en <- attr "LEIR_gamma_inj_ref" (energy self) ;;
       OK (LEIR_gamma_inj_ref en, LEIR_gamma_extr_ref en)
     else
       i <- attr "mass_GeV" (ion self) ;;
       r <- attr "E_kin_per_A_LEIR_inj" (reference self) ;;
       OK ((mass_GeV i + E_kin_per_A_LEIR_inj r * ion_A i) / mass_GeV i,
           (mass_GeV i + E_kin_per_A_LEIR_extr r * ion_A i) / mass_GeV i)) ;;
  i <- attr "mass_GeV" (ion self) ;;
  r <- attr "Nb0_LEIR_extr" (reference self) ;;
  Nb_LEIR_extr <- linearIntensityLimit self
                    (mass_GeV i) gamma_LEIR_extr (Nb0_LEIR_extr r) (Q0_LEIR r)
                    (m0_GeV r) (gamma0_LEIR_extr r) false ;;
  let Nq_LEIR_extr := Nb_LEIR_extr * ion_Q i in
  OK (set_leir self
        {| gamma_LEIR_inj := gamma_LEIR_inj; gamma_LEIR_extr := gamma_LEIR_extr;
           Nb_LEIR_extr := Nb_LEIR_extr; Nq_LEIR_extr := Nq_LEIR_extr |}).

(** Gamma at entrance and exit of the PS and transmitted bunch intensity. *)
Definition ps (self : InjectorChain) : result InjectorChain :=
  '(gamma_PS_inj, gamma_PS_extr) <-
    (if use_gammas_ref self then
       en <- attr "PS_gamma_inj_ref" (energy self) ;;
       OK (PS_gamma_inj_ref en, PS_gamma_extr_ref en)
     else
       i <- attr "mass_GeV" (ion self) ;;
       r <- attr "E_kin_per_A_PS_inj" (reference self) ;;
       OK ((mass_GeV i + E_kin_per_A_PS_inj r * ion_A i) / mass_GeV i,
           (mass_GeV i + E_kin_per_A_PS_extr r * ion_A i) / mass_GeV i)) ;;
  i <- attr "mass_GeV" (ion self) ;;
  r <- attr "Nb0_PS_extr" (reference self) ;;
  Nb_PS_extr <- linearIntensityLimit self
                  (mass_GeV i) gamma_PS_extr (Nb0_PS_extr r) (Q0_PS r)
                  (m0_GeV r) (gamma0_PS_extr r) false ;;
  let Nq_PS_extr := Nb_PS_extr * ion_Q i in
  OK (set_ps self
        {| gamma_PS_inj := gamma_PS_inj; gamma_PS_extr := gamma_PS_extr;
           Nb_PS_extr := Nb_PS_extr; Nq_PS_extr := Nq_PS_extr |}).

(** Gamma at entrance and exit of the SPS, and transmitted bunch intensity;
    the space charge limit comes from gamma at injection. *)
Definition sps (self : InjectorChain) : result InjectorChain :=
  '(gamma_SPS_inj, gamma_SPS_extr) <-
    (if use_gammas_ref self then
       en <- attr "SPS_gamma_inj_ref" (energy self) ;;
       OK (SPS_gamma_inj_ref en, SPS_gamma_extr_ref en)
     else
       i <- attr "mass_GeV" (ion self) ;;
       r <- attr "E_kin_per_A_SPS_inj" (reference self) ;;
       let gamma_SPS_inj := (mass_GeV i + E_kin_per_A_SPS_inj r * ion_A i) / mass_GeV i in
       let gamma_SPS_extr := (mass_GeV i + E_kin_per_A_SPS_extr r * ion_A i) / mass_GeV i in
       if use_Roderiks_gamma self then
         OK (nsqrt (nofZ 1
                    + pow2 (((if LEIR_PS_strip self then ion_Z i else ion_Q i) / nofZ 54)
                            / (mass_GeV i / m0_GeV r))
                      * (pow2 (gamma0_SPS_inj r) - nofZ 1)),
             gamma_SPS_extr)
       else OK (gamma_SPS_inj, gamma_SPS_extr)) ;;
  i <- attr "mass_GeV" (ion self) ;;
  r <- attr "Nb0_SPS_extr" (reference self) ;;
  Nb_SPS_extr <- linearIntensityLimit self
                   (mass_GeV i) gamma_SPS_inj (Nb0_SPS_extr r) (Q0_SPS r)
                   (m0_GeV r) (gamma0_SPS_inj r) true ;;
  let Nq_SPS_extr := Nb_SPS_extr * ion_Z i in
  OK (set_sps self
        {| gamma_SPS_inj := gamma_SPS_inj; gamma_SPS_extr := gamma_SPS_extr;
           Nb_SPS_extr := Nb_SPS_extr; Nq_SPS_extr := Nq_SPS_extr |}).

(** Space charge limit in full injection through Linac3, LEIR, PS and SPS;
    [linac3], the stripper foils and [space_charge_tune_shift] do nothing. *)
Definition simulate_injection_SpaceCharge_limit (self : InjectorChain)
    : result InjectorChain :=
  self <- leir self ;;
  self <- ps self ;;
  sps self.

(** ** Result records *)

(** The values of a result dictionary: ints, floats and the ion name. *)
Inductive value : Type :=
| VInt (n : Z)
| VFloat (x : num)
| VStr (s : string).

(** A dictionary in insertion order. *)
Definition dict (V : Type) : Type := list (string * V).

Fixpoint dict_get {V : Type} (d : dict V) (key : string) : option V :=
  match d with
  | [] => None
  | (k, v) :: d' => if String.eqb k key then Some v else dict_get d' key
  end.

(** [d[key] = v]. *)
Fixpoint dict_set {V : Type} (d : dict V) (key : string) (v : V) : dict V :=
  match d with
  | [] => [(key, v)]
  | (k, v') :: d' =>
      if String.eqb k key then (k, v) :: d' else (k, v') :: dict_set d' key v
  end.

Definition keys {V : Type} (d : dict V) : list string := map fst d.

(** Estimate of the LHC bunch intensity for the current ion species through
    Linac3, LEIR, PS and SPS, considering all the limits of the injectors.
    Returns the result dictionary and the object, whose stage attributes
    the call has assigned. *)
Definition calculate_LHC_bunch_intensity (self : InjectorChain)
    : result (dict value * InjectorChain) :=
  self <- simulate_injection_SpaceCharge_limit self ;;
  i <- attr "linac3_current" (ion self) ;;
  r <- attr "Nb0_LEIR_extr" (reference self) ;;
  l <- attr "gamma_LEIR_extr" (leir_out self) ;;
  p <- attr "gamma_PS_inj" (ps_out self) ;;
  s <- attr "gamma_SPS_inj" (sps_out self) ;;
  (* Calculate ion transmission for LEIR *)
  let ionsPerPulseLinac3 := (linac3_current i * linac3_pulseLength i) / (ion_Q i * e) in
  spaceChargeLimitLEIR <- linearIntensityLimit self
                            (mass_GeV i) (gamma_LEIR_extr l) (Nb0_LEIR_extr r) (Q0_LEIR r)
                            (m0_GeV r) (gamma0_LEIR_extr r) false ;;
  nPulsesLEIR_ <-
    (if (nPulsesLEIR self =? 0)%Z then
       c <- nceil (spaceChargeLimitLEIR
                   / (ionsPerPulseLinac3 * LEIR_injection_efficiency i)) ;;
       OK (Z.min 7 c)
     else OK (nPulsesLEIR self)) ;;
  let totalIntLEIR := ionsPerPulseLinac3 * nofZ nPulsesLEIR_ * LEIR_injection_efficiency i in
  (* Calculate extracted intensity per bunch *)
  let ionsPerBunchExtractedLEIR :=
    LEIR_transmission i * np_min totalIntLEIR spaceChargeLimitLEIR
    / nofZ (LEIR_bunches self) in
  let ionsPerBunchExtractedPS :=
    ionsPerBunchExtractedLEIR
    * (if LEIR_PS_strip self then LEIR_PS_stripping_efficiency i else nofZ 1)
    * PS_transmission i / nofZ (PS_splitting self) in
  spaceChargeLimitPS <- linearIntensityLimit self
                          (mass_GeV i) (gamma_PS_inj p) (Nb0_PS_extr r) (Q0_PS r)
                          (m0_GeV r) (gamma0_PS_inj r) (LEIR_PS_strip self) ;;
  (* If the space charge limit in the PS is considered, choose the minimum
     between the limit and the extracted ions per bunch *)
  let ionsPerBunchPS :=
    if consider_PS_space_charge_limit self
    then py_min spaceChargeLimitPS ionsPerBunchExtractedPS
    else ionsPerBunchExtractedPS in
  (* Calculate ion transmission for SPS *)
  let ionsPerBunchSPSinj :=
    ionsPerBunchPS
    * (if neqb (ion_Z i) (ion_Q i) || LEIR_PS_strip self
       then PS_SPS_transmission_efficiency i
       else PS_SPS_stripping_efficiency i) in
  spaceChargeLimitSPS <- linearIntensityLimit self
                           (mass_GeV i) (gamma_SPS_inj s) (Nb0_SPS_extr r) (Q0_SPS r)
                           (m0_GeV r) (gamma0_SPS_inj r) true ;;
  let ionsPerBunchLHC :=
    py_min spaceChargeLimitSPS ionsPerBunchSPSinj
    * SPS_transmission i * SPS_slipstacking_transmission i in
  chargeBeforeStrip <- ntrunc (ion_Q i) ;;
  atomicNumber <- ntrunc (ion_Z i) ;;
  massNumber <- ntrunc (ion_A i) ;;
  let result : dict value :=
    [ ("chargeBeforeStrip", VInt chargeBeforeStrip);
      ("atomicNumber", VInt atomicNumber);
      ("massNumber", VInt massNumber);
      ("Linac3_current [A]", VFloat (linac3_current i));
      ("Linac3_pulse_length [s]", VFloat (linac3_pulseLength i));
      ("Linac3_ionsPerPulse", VFloat ionsPerPulseLinac3);
      ("LEIR_numberofPulses", VInt nPulsesLEIR_);
      ("LEIR_injection_efficiency", VFloat (LEIR_injection_efficiency i));
      ("LEIR_maxIntensity", VFloat totalIntLEIR);
      ("LEIR_space_charge_limit", VFloat spaceChargeLimitLEIR);
      ("LEIR_splitting", VInt (LEIR_bunches self));
      ("LEIR_gamma", VFloat (gamma_LEIR_inj l));
      ("LEIR_extractedIonPerBunch", VFloat ionsPerBunchExtractedLEIR);
      ("LEIR_transmission", VFloat (LEIR_transmission i));
      ("PS_space_charge_limit", VFloat spaceChargeLimitPS);
      ("PS_splitting", VInt (PS_splitting self));
      ("PS_transmission", VFloat (PS_transmission i));
      ("PS_ionsExtractedPerBunch", VFloat ionsPerBunchExtractedPS);
      ("gammaInjSPS", VFloat (gamma_SPS_inj s));
      ("PS_SPS_stripping_efficiency", VFloat (PS_SPS_stripping_efficiency i));
      ("SPS_maxIntensityPerBunch", VFloat ionsPerBunchSPSinj);
      ("SPS_spaceChargeLimit", VFloat spaceChargeLimitSPS);
      ("SPS_inj_gamma", VFloat (gamma_SPS_inj s));
      ("SPS_accIntensity", VFloat (py_min spaceChargeLimitSPS ionsPerBunchSPSinj));
      ("SPS_transmission", VFloat (SPS_transmission i));
      ("LHC_ionsPerBunch", VFloat ionsPerBunchLHC);
      ("LHC_chargesPerBunch", VFloat (ionsPerBunchLHC * ion_Z i));
      ("Ion", VStr (ion_type i)) ] in
  (* Add key of LEIR-PS stripping efficiency if this is done *)
  let result :=
    if LEIR_PS_strip self
    then dict_set result "LEIR_PS_strippingEfficiency"
           (VFloat (LEIR_PS_stripping_efficiency i))
    else result in
  OK (result, self).

(** ** Batch mode *)

(** [full_result[key].append(value)] for every item of [result], where
    [full_result] is a [defaultdict(list)]. *)
Definition append_items (full_result : dict (list value)) (result : dict value)
    : dict (list value) :=
  fold_left
    (fun acc kv =>
       match dict_get acc (fst kv) with
       | Some l => dict_set acc (fst kv) (l ++ [snd kv])%list
       | None => dict_set acc (fst kv) [snd kv]
       end)
    result full_result.

(** A data frame: its index and its columns, by label, in order. *)
Record DataFrame : Type := {
  df_index : list value;
  df_columns : dict (list value)
}.

(** [pd.DataFrame(d).set_index(key)]: the columns must have one length,
    and [key] must be a column, which becomes the index. *)
Definition DataFrame_set_index (d : dict (list value)) (key : string)
    : result DataFrame :=
  match d with
  | [] => Raise (KeyError key)
  | (_, c0) :: _ =>
      if forallb (fun c => Nat.eqb (List.length (snd c)) (List.length c0)) d then
        match dict_get d key with
        | Some col =>
            OK {| df_index := col;
                  df_columns := filter (fun c => negb (String.eqb (fst c) key)) d |}
        | None => Raise (KeyError key)
        end
      else Raise (ValueError "All arrays must be of the same length")
  end.

(** The record of row [n] of a data frame: its label and its cells. *)
Definition df_row (df : DataFrame) (n : nat) : option value * dict (option value) :=
  (nth_error (df_index df) n,
   map (fun c => (fst c, nth_error (snd c) n)) (df_columns df)).

(** The loop of [calculate_LHC_bunch_intensity_all_ion_species] over the
    remaining columns of the ion table. *)
Fixpoint all_ion_species_loop (self : InjectorChain) (ion_types : list string)
    (full_result : dict (list value)) : result (dict (list value) * InjectorChain) :=
  match ion_types with
  | [] => OK (full_result, self)
  | ion_type :: rest =>
      (* Initiate the correct ion *)
      self <- init_ion self ion_type ;;
      '(result, self) <- calculate_LHC_bunch_intensity self ;;
      (* Append the values to the corresponding key *)
      all_ion_species_loop self rest (append_items full_result result)
  end.

(** Estimate of the LHC bunch intensity for all ion species provided in the
    table (with [save_csv=False]: writing the file is not modelled). *)
Definition calculate_LHC_bunch_intensity_all_ion_species (self : InjectorChain)
    : result (DataFrame * InjectorChain) :=
  '(full_result, self) <-
    all_ion_species_loop self (columns (full_ion_data self)) [] ;;
  df_all_ions <- DataFrame_set_index full_result "Ion" ;;
  OK (df_all_ions, self).

(** ** The tables of the space charge limits *)

(** A frame of numbers by rows: the label of each row and its cells by
    column, in order.  A cell holds [None] for the NaN the frame is created
    with, until a number is assigned to it. *)
Definition Frame : Type := list (string * dict (option num)).

(** [pd.DataFrame(index=index)] with the columns [cols], every cell NaN. *)
Definition new_frame (index cols : list string) : Frame :=
  map (fun label => (label, map (fun c => (c, @None num)) cols)) index.

(** [frame[col][label] = x], which writes through to the frame: the cell
    of the column [col], which the frame has, in every row that carries the
    label. *)
Definition set_cell (frame : Frame) (col label : string) (x : num) : Frame :=
  map (fun row => if String.eqb (fst row) label
                  then (fst row, dict_set (snd row) col (Some x)) else row) frame.

(** The tables that [simulate_SpaceCharge_intensity_limit_all_ions] assigns
    to the object. *)
Record Tables : Type := {
  ion_Nb_data : Frame;
  ion_gamma_inj_data : Frame;
  ion_gamma_extr_data : Frame
}.

(** The loop of [simulate_SpaceCharge_intensity_limit_all_ions] over the
    remaining columns of the ion table. *)
Fixpoint all_ions_loop (self : InjectorChain) (ion_types : list string) (t : Tables)
    : result (Tables * InjectorChain) :=
  match ion_types with
  | [] => OK (t, self)
  | ion_type :: rest =>
      self <- init_ion self ion_type ;;
      self <- simulate_injection_SpaceCharge_limit self ;;
      (* Add the intensities into a table *)
      l <- attr "Nb_LEIR_extr" (leir_out self) ;;
      let Nb := set_cell (ion_Nb_data t) "Nb_LEIR" ion_type (Nb_LEIR_extr l) in
      let Nb := set_cell Nb "Nq_LEIR" ion_type (Nq_LEIR_extr l) in
      p <- attr "Nb_PS_extr" (ps_out self) ;;
      let Nb := set_cell Nb "Nb_PS" ion_type (Nb_PS_extr p) in
      let Nb := set_cell Nb "Nq_PS" ion_type (Nq_PS_extr p) in
      s <- attr "Nb_SPS_extr" (sps_out self) ;;
      let Nb := set_cell Nb "Nb_SPS" ion_type (Nb_SPS_extr s) in
      let Nb := set_cell Nb "Nq_SPS" ion_type (Nq_SPS_extr s) in
      (* Add the gamma of injection and extraction into a table *)
      let inj := set_cell (ion_gamma_inj_data t) "LEIR" ion_type (gamma_LEIR_inj l) in
      let extr := set_cell (ion_gamma_extr_data t) "LEIR" ion_type (gamma_LEIR_extr l) in
      let inj := set_cell inj "PS" ion_type (gamma_PS_inj p) in
      let extr := set_cell extr "PS" ion_type (gamma_PS_extr p) in
      let inj := set_cell inj "SPS" ion_type (gamma_SPS_inj s) in
      let extr := set_cell extr "SPS" ion_type (gamma_SPS_extr s) in
      all_ions_loop self rest
        {| ion_Nb_data := Nb; ion_gamma_inj_data := inj; ion_gamma_extr_data := extr |}
  end.

(** Intensity limits with linear space charge in LEIR, PS and SPS for all
    ions of the table.  Returns the table of intensities when
    [return_dataframe] is set, the tables it assigned to the object, and the
    object. *)
Definition simulate_SpaceCharge_intensity_limit_all_ions (self : InjectorChain)
    (return_dataframe : bool) : result (option Frame * Tables * InjectorChain) :=
  let index := columns (full_ion_data self) in
  let ion_Nb_data_ :=
    new_frame index ["Nb_LEIR"; "Nq_LEIR"; "Nb_PS"; "Nq_PS"; "Nb_SPS"; "Nq_SPS"] in
  let ion_gamma_inj_data_ := new_frame index ["LEIR"; "PS"; "SPS"] in
  let ion_gamma_extr_data_ := ion_gamma_inj_data_ in
  '(t, self) <-
    all_ions_loop self index
      {| ion_Nb_data := ion_Nb_data_; ion_gamma_inj_data := ion_gamma_inj_data_;
         ion_gamma_extr_data := ion_gamma_extr_data_ |} ;;
  OK (if return_dataframe then Some (ion_Nb_data t) else None, t, self).

(** The stage attributes of the ion [ion_type], as one iteration computes
    them on the object [self]. *)
Definition stage_values (self : InjectorChain) (ion_type : string)
    (l : LeirAttrs) (p : PsAttrs) (s : SpsAttrs) : Prop :=
  exists self1 self2,
    init_ion self ion_type = OK self1 /\
    simulate_injection_SpaceCharge_limit self1 = OK self2 /\
    leir_out self2 = Some l /\ ps_out self2 = Some p /\ sps_out self2 = Some s.

(** ** The constructor *)

(** [pd.read_csv(path, index_col=0)] on the files of the caller. *)
Variable read_csv : string -> result EnergyTable.

(** The arguments of [InjectorChain(...)]. *)
Record Args : Type := {
  arg_ion_type : string;
  arg_ion_data : IonTable;
  arg_ion_type_ref : string;
  arg_nPulsesLEIR : Z;
  arg_LEIR_bunches : Z;
  arg_PS_splitting : Z;
  arg_account_for_SPS_transmission : bool;
  arg_LEIR_PS_strip : bool;
  arg_consider_PS_space_charge_limit : bool;
  arg_use_gammas_ref : bool;
  arg_higher_brho_LEIR : bool
}.

(** The defaults of the optional arguments. *)
Definition default_args (ion_type : string) (ion_data : IonTable) : Args :=
  {| arg_ion_type := ion_type; arg_ion_data := ion_data;
     arg_ion_type_ref := "Pb"; arg_nPulsesLEIR := 1; arg_LEIR_bunches := 1;
     arg_PS_splitting := 1; arg_account_for_SPS_transmission := true;
     arg_LEIR_PS_strip := false; arg_consider_PS_space_charge_limit := true;
     arg_use_gammas_ref := false; arg_higher_brho_LEIR := false |}.

(** The new object with the attributes [__init__] assigns from its
    arguments; no method has assigned any other attribute yet. *)
Definition new_object (a : Args) (ion_energy_data : EnergyTable) : InjectorChain :=
  {| full_ion_data := arg_ion_data a;
     LEIR_PS_strip := arg_LEIR_PS_strip a;
     higher_brho_LEIR := arg_higher_brho_LEIR a;
     use_gammas_ref := arg_use_gammas_ref a;
     ion_energy_data := ion_energy_data;
     debug_mode := false;
     account_for_SPS_transmission := arg_account_for_SPS_transmission a;
     consider_PS_space_charge_limit := arg_consider_PS_space_charge_limit a;
     nPulsesLEIR := arg_nPulsesLEIR a;
     LEIR_bunches := arg_LEIR_bunches a;
     PS_splitting := arg_PS_splitting a;
     ion_type_ref := arg_ion_type_ref a;
     save_path := "../output";
     use_Roderiks_gamma := if arg_use_gammas_ref a then false else true;
     ion := None; energy := None; reference := None;
     leir_out := None; ps_out := None; sps_out := None |}.

(** [__init__].  The attributes that come from the arguments are written
    into the new object at once: [init_ion] and [ion0_referenceValues]
    read only those the constructor has assigned before it calls them. *)
Definition __init__ (a : Args) : result InjectorChain :=
  let brho_string := if arg_higher_brho_LEIR a then "_higher_brho_LEIR" else "" in
  ion_energy_data <-
    (if arg_LEIR_PS_strip a
     then read_csv ("../data/ion_injection_energies_LEIR_PS_strip" ++ brho_string ++ ".csv")
     else read_csv ("../data/ion_injection_energies_PS_SPS_strip" ++ brho_string ++ ".csv")) ;;
  let self := new_object a ion_energy_data in
  self <- init_ion self (arg_ion_type a) ;;
  ion0_referenceValues self.

(** ** The states an object can be in

    The object the constructor returns for the arguments [a], and the
    objects that calls of its methods lead to.  [simulate_injection_SpaceCharge_limit],
    [calculate_LHC_bunch_intensity] and the batch method change the object
    through the methods listed here. *)
Inductive reachable (a : Args) : InjectorChain -> Prop :=
| reach_init self :
    __init__ a = OK self -> reachable a self
| reach_init_ion self ion_type self' :
    reachable a self -> init_ion self ion_type = OK self' -> reachable a self'
| reach_load_ion_energy self self' :
    reachable a self -> load_ion_energy self = OK self' -> reachable a self'
| reach_ion0_referenceValues self self' :
    reachable a self -> ion0_referenceValues self = OK self' -> reachable a self'
| reach_leir self self' :
    reachable a self -> leir self = OK self' -> reachable a self'
| reach_ps self self' :
    reachable a self -> ps self = OK self' -> reachable a self'
| reach_sps self self' :
    reachable a self -> sps self = OK self' -> reachable a self'.

(** The attributes the constructor assigned from its arguments are the
    same in two objects. *)
Definition same_config (self self' : InjectorChain) : Prop :=
  full_ion_data self' = full_ion_data self /\
  LEIR_PS_strip self' = LEIR_PS_strip self /\
  higher_brho_LEIR self' = higher_brho_LEIR self /\
  use_gammas_ref self' = use_gammas_ref self /\
  ion_energy_data self' = ion_energy_data self /\
  debug_mode self' = debug_mode self /\
  account_for_SPS_transmission self' = account_for_SPS_transmission self /\
  consider_PS_space_charge_limit self' = consider_PS_space_charge_limit self /\
  nPulsesLEIR self' = nPulsesLEIR self /\
  LEIR_bunches self' = LEIR_bunches self /\
  PS_splitting self' = PS_splitting self /\
  ion_type_ref self' = ion_type_ref self /\
  save_path self' = save_path self /\
  use_Roderiks_gamma self' = use_Roderiks_gamma self.

(** The reference values of Pb54+ (Pb82+ in the SPS) from the LIU
    parameter table, as [ion0_referenceValues] is documented to set them,
    for the SPS transmission [T] the reference bunch intensity is adjusted
    for: six kinetic energies per nucleon, the rest mass and the charge
    states, the observed intensities per stage, and the gammas
    [(m0 + E_kin * 208) / m0]. *)
Definition Pb_reference (T : num) : ReferenceAttrs :=
  let m0 := ndec 193687 (-3) in
  let gamma0 E_kin := (m0 + E_kin * nofZ 208) / m0 in
  {| E_kin_per_A_LEIR_inj := ndec 42 (-4);
     E_kin_per_A_LEIR_extr := ndec 722 (-4);
     E_kin_per_A_PS_inj := ndec 722 (-4);
     E_kin_per_A_PS_extr := ndec 59 (-1);
     E_kin_per_A_SPS_inj := ndec 59 (-1);
     E_kin_per_A_SPS_extr := ndec 1764 (-1);
     m0_GeV := m0;
     Z0 := ndec 820 (-1);
     Nq0_LEIR_extr := ndec 10 10;
     Q0_LEIR := ndec 540 (-1);
     Nb0_LEIR_extr := ndec 10 10 / ndec 540 (-1);
     gamma0_LEIR_inj := gamma0 (ndec 42 (-4));
     gamma0_LEIR_extr := gamma0 (ndec 722 (-4));
     Nq0_PS_extr := ndec 6 10;
     Q0_PS := ndec 540 (-1);
     Nb0_PS_extr := ndec 6 10 / ndec 540 (-1);
     gamma0_PS_inj := gamma0 (ndec 722 (-4));
     gamma0_PS_extr := gamma0 (ndec 59 (-1));
     Nb0_SPS_extr := ndec 221 6 / T;
     Q0_SPS := ndec 820 (-1);
     Nq0_SPS_extr := ndec 221 6 / T * ndec 820 (-1);
     gamma0_SPS_inj := gamma0 (ndec 59 (-1));
     gamma0_SPS_extr := gamma0 (ndec 1764 (-1)) |}.

(** The attributes [init_ion] assigns: values of the column of the ion,
    and constants; [SPS_transmission] is 0.62, or 1.0 once
    [ion0_referenceValues] has replaced it. *)
Definition ion_initialised (self : InjectorChain) (i : IonAttrs) : Prop :=
  column (full_ion_data self) (ion_type i) = OK (ion_data i) /\
  mass_GeV i = row_mass_GeV (ion_data i) /\
  ion_Z i = row_Z (ion_data i) /\
  ion_A i = row_A (ion_data i) /\
  ion_Q i = row_Q_before_stripping (ion_data i) /\
  linac3_current i = row_Linac3_current_uA (ion_data i) * ndec 1 (-6) /\
  linac3_pulseLength i = row_Linac3_pulse_length_us (ion_data i) * ndec 1 (-6) /\
  LEIR_PS_stripping_efficiency i = row_LEIR_PS_Stripping_Efficiency (ion_data i) /\
  LEIR_injection_efficiency i = ndec 5 (-1) /\
  LEIR_transmission i = ndec 8 (-1) /\
  PS_transmission i = ndec 9 (-1) /\
  PS_SPS_transmission_efficiency i = ndec 10 (-1) /\
  PS_SPS_strip i = negb (LEIR_PS_strip self) /\
  PS_SPS_stripping_efficiency i = ndec 9 (-1) /\
  SPS_slipstacking_transmission i = ndec 10 (-1) /\
  (SPS_transmission i = ndec 62 (-2) \/ SPS_transmission i = ndec 10 (-1)).

(** What holds of every object the constructor returned for the arguments
    [a], whatever methods were called on it since. *)
Definition initialised (a : Args) (self : InjectorChain) : Prop :=
  full_ion_data self = arg_ion_data a /\
  LEIR_PS_strip self = arg_LEIR_PS_strip a /\
  use_gammas_ref self = arg_use_gammas_ref a /\
  account_for_SPS_transmission self = arg_account_for_SPS_transmission a /\
  consider_PS_space_charge_limit self = arg_consider_PS_space_charge_limit a /\
  nPulsesLEIR self = arg_nPulsesLEIR a /\
  LEIR_bunches self = arg_LEIR_bunches a /\
  PS_splitting self = arg_PS_splitting a /\
  ion_type_ref self = "Pb" /\
  use_Roderiks_gamma self = negb (use_gammas_ref self) /\
  (use_gammas_ref self = true -> energy self <> None) /\
  (exists i, ion self = Some i /\ ion_initialised self i) /\
  (exists T, (T = ndec 62 (-2) \/ T = ndec 10 (-1)) /\
             reference self = Some (Pb_reference T)).

(** The attributes of an ion under another name. *)
Definition set_ion_type (i : IonAttrs) (n : string) : IonAttrs :=
  {| ion_type := n; ion_data := ion_data i; mass_GeV := mass_GeV i;
     ion_Z := ion_Z i; ion_A := ion_A i; ion_Q := ion_Q i;
     linac3_current := linac3_current i; linac3_pulseLength := linac3_pulseLength i;
     LEIR_injection_efficiency := LEIR_injection_efficiency i;
     LEIR_transmission := LEIR_transmission i;
     LEIR_PS_stripping_efficiency := LEIR_PS_stripping_efficiency i;
     PS_transmission := PS_transmission i;
     PS_SPS_transmission_efficiency := PS_SPS_transmission_efficiency i;
     PS_SPS_strip := PS_SPS_strip i;
     PS_SPS_stripping_efficiency := PS_SPS_stripping_efficiency i;
     SPS_transmission := SPS_transmission i;
     SPS_slipstacking_transmission := SPS_slipstacking_transmission i |}.

(** One iteration of batch mode on the object [self]: the result for the
    ion [ion_type]. *)
Definition row_result (self : InjectorChain) (ion_type : string) (res : dict value) : Prop :=
  exists self1 self2,
    init_ion self ion_type = OK self1 /\
    calculate_LHC_bunch_intensity self1 = OK (res, self2).

(** The value of a record under a key, if it has the key. *)
Definition cell {V : Type} (d : dict V) (k : string) : list V :=
  match dict_get d k with
  | Some v => [v]
  | None => []
  end.

(** The columns of a list of records with the keys [ks]: under each key,
    the values of the records in order. *)
Definition transpose {V : Type} (ks : list string) (ds : list (dict V)) : dict (list V) :=
  map (fun k => (k, flat_map (fun d => cell d k) ds)) ks.

(** The keys of the dictionary [calculate_LHC_bunch_intensity] builds
    first, in order. *)
Definition result_keys : list string :=
  [ "chargeBeforeStrip"; "atomicNumber"; "massNumber"; "Linac3_current [A]";
    "Linac3_pulse_length [s]"; "Linac3_ionsPerPulse"; "LEIR_numberofPulses";
    "LEIR_injection_efficiency"; "LEIR_maxIntensity"; "LEIR_space_charge_limit";
    "LEIR_splitting"; "LEIR_gamma"; "LEIR_extractedIonPerBunch";
    "LEIR_transmission"; "PS_space_charge_limit"; "PS_splitting";
    "PS_transmission"; "PS_ionsExtractedPerBunch"; "gammaInjSPS";
    "PS_SPS_stripping_efficiency"; "SPS_maxIntensityPerBunch";
    "SPS_spaceChargeLimit"; "SPS_inj_gamma"; "SPS_accIntensity";
    "SPS_transmission"; "LHC_ionsPerBunch"; "LHC_chargesPerBunch"; "Ion" ].

End Model.

Arguments IonData num : clear implicits.
Arguments IonTable num : clear implicits.
Arguments EnergyRow num : clear implicits.
Arguments EnergyTable num : clear implicits.
Arguments IonAttrs num : clear implicits.
Arguments EnergyAttrs num : clear implicits.
Arguments ReferenceAttrs num : clear implicits.
Arguments LeirAttrs num : clear implicits.
Arguments PsAttrs num : clear implicits.
Arguments SpsAttrs num : clear implicits.
Arguments InjectorChain num : clear implicits.
Arguments value num : clear implicits.
Arguments DataFrame num : clear implicits.
Arguments Args num : clear implicits.
Arguments Frame num : clear implicits.
Arguments Tables num : clear implicits.

(** * The class [CERN_Injector_Chain] of Injector_Chain.py

    The first version of the model, which the repository keeps beside
    [InjectorChain].  Its objects have the attributes of an [InjectorChain]
    apart from [higher_brho_LEIR], [use_gammas_ref], [ion_energy_data],
    [consider_PS_space_charge_limit], [save_path] and the gammas of
    [load_ion_energy]; its methods read none of them, and the record of
    [InjectorChain] is used for its objects.  Its methods [beta],
    [spaceChargeScalingFactor] and [linearIntensityLimit] are, word for
    word, the methods of [InjectorChain]. *)

Module CERN_Injector_Chain.
Section Model.
Context {num : Type} {arith : Arith num}.
Local Open Scope num_scope.
Local Open Scope py_scope.

(** Initialize ion species for a given type. *)
Definition init_ion (self : InjectorChain num) (ion_type : string)
    : result (InjectorChain num) :=
  ion_data <- column (full_ion_data self) ion_type ;;
  OK (set_ion self
        {| ion_type := ion_type;
           ion_data := ion_data;
           mass_GeV := row_mass_GeV ion_data;
           ion_Z := row_Z ion_data;
           ion_A := row_A ion_data;
           ion_Q := row_Q_before_stripping ion_data;
           linac3_current := row_Linac3_current_uA ion_data * ndec 1 (-6);
           linac3_pulseLength := row_Linac3_pulse_length_us ion_data * ndec 1 (-6);
           LEIR_injection_efficiency := ndec 5 (-1);
           LEIR_transmission := ndec 8 (-1);
           LEIR_PS_stripping_efficiency := row_LEIR_PS_Stripping_Efficiency ion_data;
           PS_transmission := ndec 9 (-1);
           PS_SPS_transmission_efficiency := ndec 10 (-1);
           PS_SPS_strip := negb (LEIR_PS_strip self);
           PS_SPS_stripping_efficiency := ndec 9 (-1);
           SPS_transmission := ndec 62 (-2);
           SPS_slipstacking_transmission := ndec 10 (-1) |}).

(** Sets bunch intensity Nb, gamma factor and mass of the reference ion
    species. *)
Definition ion0_referenceValues (self : InjectorChain num) : result (InjectorChain num) :=
  (* LEIR *)
  let E_kin_per_A_LEIR_inj := ndec 42 (-4) in     (* 4.2e-3 *)
  let E_kin_per_A_LEIR_extr := ndec 722 (-4) in   (* 7.22e-2 *)
  (* PS *)
  let E_kin_per_A_PS_inj := ndec 722 (-4) in      (* 7.22e-2 *)
  let E_kin_per_A_PS_extr := ndec 59 (-1) in      (* 5.9 *)
  (* SPS *)
  let E_kin_per_A_SPS_inj := ndec 59 (-1) in      (* 5.9 *)
  let E_kin_per_A_SPS_extr := ndec 1764 (-1) in   (* 176.4 *)
  if String.eqb (ion_type_ref self) "Pb" then
    let m0_GeV := ndec 193687 (-3) in             (* 193.687 *)
    let Z0 := ndec 820 (-1) in                    (* 82.0 *)
    (* LEIR *)
    let Nq0_LEIR_extr := ndec 10 10 in            (* 10e10 *)
    let Q0_LEIR := ndec 540 (-1) in               (* 54.0 *)
    let Nb0_LEIR_extr := Nq0_LEIR_extr / Q0_LEIR in
    let gamma0_LEIR_inj := (m0_GeV + E_kin_per_A_LEIR_inj * nofZ 208) / m0_GeV in
    let gamma0_LEIR_extr := (m0_GeV + E_kin_per_A_LEIR_extr * nofZ 208) / m0_GeV in
    (* PS *)
    let Nq0_PS_extr := ndec 8 10 in               (* 8e10 *)
    let Q0_PS := ndec 540 (-1) in                 (* 54.0 *)
    let Nb0_PS_extr := Nq0_PS_extr / Q0_PS in
    let gamma0_PS_inj := (m0_GeV + E_kin_per_A_PS_inj * nofZ 208) / m0_GeV in
    let gamma0_PS_extr := (m0_GeV + E_kin_per_A_PS_extr * nofZ 208) / m0_GeV in
    (* SPS *)
    i <- attr "SPS_transmission" (ion self) ;;
    let i := if negb (account_for_SPS_transmission self)
             then set_SPS_transmission i (ndec 10 (-1)) else i in
    let Nb0_SPS_extr := ndec 221 6 / SPS_transmission i in   (* 2.21e8 *)
    let Q0_SPS := ndec 820 (-1) in                (* 82.0 *)
    let Nq0_SPS_extr := Nb0_SPS_extr * Q0_SPS in
    let gamma0_SPS_inj := (m0_GeV + E_kin_per_A_SPS_inj * nofZ 208) / m0_GeV in
    let gamma0_SPS_extr := (m0_GeV + E_kin_per_A_SPS_extr * nofZ 208) / m0_GeV in
    OK (set_reference (set_ion self i)
          {| E_kin_per_A_LEIR_inj := E_kin_per_A_LEIR_inj;
             E_kin_per_A_LEIR_extr := E_kin_per_A_LEIR_extr;
             E_kin_per_A_PS_inj := E_kin_per_A_PS_inj;
             E_kin_per_A_PS_extr := E_kin_per_A_PS_extr;
             E_kin_per_A_SPS_inj := E_kin_per_A_SPS_inj;
             E_kin_per_A_SPS_extr := E_kin_per_A_SPS_extr;
             m0_GeV := m0_GeV; Z0 := Z0;
             Nq0_LEIR_extr := Nq0_LEIR_extr; Q0_LEIR := Q0_LEIR;
             Nb0_LEIR_extr := Nb0_LEIR_extr;
             gamma0_LEIR_inj := gamma0_LEIR_inj; gamma0_LEIR_extr := gamma0_LEIR_extr;
             Nq0_PS_extr := Nq0_PS_extr; Q0_PS := Q0_PS; Nb0_PS_extr := Nb0_PS_extr;
             gamma0_PS_inj := gamma0_PS_inj; gamma0_PS_extr := gamma0_PS_extr;
             Nb0_SPS_extr := Nb0_SPS_extr; Q0_SPS := Q0_SPS;
             Nq0_SPS_extr := Nq0_SPS_extr;
             gamma0_SPS_inj := gamma0_SPS_inj; gamma0_SPS_extr := gamma0_SPS_extr |})
  else Raise (ValueError "Other reference ion type than Pb does not yet exist!").

(** Gamma at entrance and exit of the LEIR and transmitted bunch intensity. *)
Definition leir (self : InjectorChain num) : result (InjectorChain num) :=
  i <- attr "mass_GeV" (ion self) ;;
  r <- attr "E_kin_per_A_LEIR_inj" (reference self) ;;
  let gamma_LEIR_inj := (mass_GeV i + E_kin_per_A_LEIR_inj r * ion_A i) / mass_GeV i in
  let gamma_LEIR_extr := (mass_GeV i + E_kin_per_A_LEIR_extr r * ion_A i) / mass_GeV i in
  Nb_LEIR_extr <- linearIntensityLimit self
                    (mass_GeV i) gamma_LEIR_extr (Nb0_LEIR_extr r) (Q0_LEIR r)
                    (m0_GeV r) (gamma0_LEIR_extr r) false ;;
  let Nq_LEIR_extr := Nb_LEIR_extr * ion_Q i in
  OK (set_leir self
        {| gamma_LEIR_inj := gamma_LEIR_inj; gamma_LEIR_extr := gamma_LEIR_extr;
           Nb_LEIR_extr := Nb_LEIR_extr; Nq_LEIR_extr := Nq_LEIR_extr |}).

(** Gamma at entrance and exit of the PS and transmitted bunch intensity. *)
Definition ps (self : InjectorChain num) : result (InjectorChain num) :=
  i <- attr "mass_GeV" (ion self) ;;
  r <- attr "E_kin_per_A_PS_inj" (reference self) ;;
  let gamma_PS_inj := (mass_GeV i + E_kin_per_A_PS_inj r * ion_A i) / mass_GeV i in
  let gamma_PS_extr := (mass_GeV i + E_kin_per_A_PS_extr r * ion_A i) / mass_GeV i in
  Nb_PS_extr <- linearIntensityLimit self
                  (mass_GeV i) gamma_PS_extr (Nb0_PS_extr r) (Q0_PS r)
                  (m0_GeV r) (gamma0_PS_extr r) false ;;
  let Nq_PS_extr := Nb_PS_extr * ion_Q i in
  OK (set_ps self
        {| gamma_PS_inj := gamma_PS_inj; gamma_PS_extr := gamma_PS_extr;
           Nb_PS_extr := Nb_PS_extr; Nq_PS_extr := Nq_PS_extr |}).

(** Gamma at entrance and exit of the SPS, and transmitted bunch intensity;
    the space charge limit comes from gamma at injection. *)
Definition sps (self : InjectorChain num) : result (InjectorChain num) :=
  i <- attr "mass_GeV" (ion self) ;;
  r <- attr "E_kin_per_A_SPS_inj" (reference self) ;;
  let gamma_SPS_inj := (mass_GeV i + E_kin_per_A_SPS_inj r * ion_A i) / mass_GeV i in
  let gamma_SPS_extr := (mass_GeV i + E_kin_per_A_SPS_extr r * ion_A i) / mass_GeV i in
  let gamma_SPS_inj :=
    if use_Roderiks_gamma self then
      nsqrt (nofZ 1
             + pow2 (((if LEIR_PS_strip self then ion_Z i else ion_Q i) / nofZ 54)
                     / (mass_GeV i / m0_GeV r))
               * (pow2 (gamma0_SPS_inj r) - nofZ 1))
    else gamma_SPS_inj in
  Nb_SPS_extr <- linearIntensityLimit self
                   (mass_GeV i) gamma_SPS_inj (Nb0_SPS_extr r) (Q0_SPS r)
                   (m0_GeV r) (gamma0_SPS_inj r) true ;;
  let Nq_SPS_extr := Nb_SPS_extr * ion_Z i in
  OK (set_sps self
        {| gamma_SPS_inj := gamma_SPS_inj; gamma_SPS_extr := gamma_SPS_extr;
           Nb_SPS_extr := Nb_SPS_extr; Nq_SPS_extr := Nq_SPS_extr |}).

(** Space charge limit in full injection through Linac3, LEIR, PS and SPS;
    [linac3], the stripper foils and [space_charge_tune_shift] do nothing. *)
Definition simulate_injection_SpaceCharge_limit (self : InjectorChain num)
    : result (InjectorChain num) :=
  self <- leir self ;;
  self <- ps self ;;
  sps self.

(** Estimate of the LHC bunch intensity for the current ion species through
    Linac3, LEIR, PS and SPS.  Returns the result dictionary and the
    object, whose stage attributes the call has assigned. *)
Definition calculate_LHC_bunch_intensity (self : InjectorChain num)
    : result (dict (value num) * InjectorChain num) :=
  self <- simulate_injection_SpaceCharge_limit self ;;
  i <- attr "linac3_current" (ion self) ;;
  r <- attr "Nb0_LEIR_extr" (reference self) ;;
  l <- attr "gamma_LEIR_extr" (leir_out self) ;;
  s <- attr "gamma_SPS_inj" (sps_out self) ;;
  (* Calculate ion transmission for LEIR *)
  let ionsPerPulseLinac3 := (linac3_current i * linac3_pulseLength i) / (ion_Q i * e) in
  spaceChargeLimitLEIR <- linearIntensityLimit self
                            (mass_GeV i) (gamma_LEIR_extr l) (Nb0_LEIR_extr r) (Q0_LEIR r)
                            (m0_GeV r) (gamma0_LEIR_extr r) false ;;
  nPulsesLEIR_ <-
    (if (nPulsesLEIR self =? 0)%Z then
       c <- nceil (spaceChargeLimitLEIR
                   / (ionsPerPulseLinac3 * LEIR_injection_efficiency i)) ;;
       OK (Z.min 7 c)
     else OK (nPulsesLEIR self)) ;;
  let totalIntLEIR := ionsPerPulseLinac3 * nofZ nPulsesLEIR_ * LEIR_injection_efficiency i in
  (* Calculate extracted intensity per bunch *)
  let ionsPerBunchExtractedLEIR :=
    LEIR_transmission i * np_min totalIntLEIR spaceChargeLimitLEIR
    / nofZ (LEIR_bunches self) in
  let ionsPerBunchExtractedPS :=
    ionsPerBunchExtractedLEIR
    * (if LEIR_PS_strip self then LEIR_PS_stripping_efficiency i else nofZ 1)
    * PS_transmission i / nofZ (PS_splitting self) in
  let ionsPerBunchSPSinj :=
    ionsPerBunchExtractedPS
    * (if neqb (ion_Z i) (ion_Q i) || LEIR_PS_strip self
       then PS_SPS_transmission_efficiency i
       else PS_SPS_stripping_efficiency i) in
  (* Calculate ion transmission for SPS *)
  spaceChargeLimitSPS <- linearIntensityLimit self
                           (mass_GeV i) (gamma_SPS_inj s) (Nb0_SPS_extr r) (Q0_SPS r)
                           (m0_GeV r) (gamma0_SPS_inj r) true ;;
  let ionsPerBunchLHC :=
    py_min spaceChargeLimitSPS ionsPerBunchSPSinj
    * SPS_transmission i * SPS_slipstacking_transmission i in
  chargeBeforeStrip <- ntrunc (ion_Q i) ;;
  atomicNumber <- ntrunc (ion_Z i) ;;
  massNumber <- ntrunc (ion_A i) ;;
  let result : dict (value num) :=
    [ ("chargeBeforeStrip", VInt chargeBeforeStrip);
      ("atomicNumber", VInt atomicNumber);
      ("massNumber", VInt massNumber);
      ("Linac3_current [A]", VFloat (linac3_current i));
      ("Linac3_pulse_length [s]", VFloat (linac3_pulseLength i));
      ("Linac3_ionsPerPulse", VFloat ionsPerPulseLinac3);
      ("LEIR_numberofPulses", VInt nPulsesLEIR_);
      ("LEIR_injection_efficiency", VFloat (LEIR_injection_efficiency i));
      ("LEIR_maxIntensity", VFloat totalIntLEIR);
      ("LEIR_space_charge_limit", VFloat spaceChargeLimitLEIR);
      ("LEIR_splitting", VInt (LEIR_bunches self));
      ("LEIR_gamma", VFloat (gamma_LEIR_inj l));
      ("LEIR_extractedIonPerBunch", VFloat ionsPerBunchExtractedLEIR);
      ("LEIR_transmission", VFloat (LEIR_transmission i));
      ("PS_splitting", VInt (PS_splitting self));
      ("PS_transmission", VFloat (PS_transmission i));
      ("PS_ionsExtractedPerBunch", VFloat ionsPerBunchExtractedPS);
      ("gammaInjSPS", VFloat (gamma_SPS_inj s));
      ("PS_SPS_stripping_efficiency", VFloat (PS_SPS_stripping_efficiency i));
      ("SPS_maxIntensityPerBunch", VFloat ionsPerBunchSPSinj);
      ("SPS_spaceChargeLimit", VFloat spaceChargeLimitSPS);
      ("SPS_inj_gamma", VFloat (gamma_SPS_inj s));
      ("SPS_accIntensity", VFloat (py_min spaceChargeLimitSPS ionsPerBunchSPSinj));
      ("SPS_transmission", VFloat (SPS_transmission i));
      ("LHC_ionsPerBunch", VFloat ionsPerBunchLHC);
      ("LHC_chargesPerBunch", VFloat (ionsPerBunchLHC * ion_Z i));
      ("Ion", VStr (ion_type i)) ] in
  (* Add key of LEIR-PS stripping efficiency if this is done *)
  let result :=
    if LEIR_PS_strip self
    then dict_set result "LEIR_PS_strippingEfficiency"
           (VFloat (LEIR_PS_stripping_efficiency i))
    else result in
  OK (result, self).

(** The loop of [calculate_LHC_bunch_intensity_all_ion_species] over the
    remaining columns of the ion table. *)
Fixpoint all_ion_species_loop (self : InjectorChain num) (ion_types : list string)
    (full_result : dict (list (value num)))
    : result (dict (list (value num)) * InjectorChain num) :=
  match ion_types with
  | [] => OK (full_result, self)
  | ion_type :: rest =>
      (* Initiate the correct ion *)
      self <- init_ion self ion_type ;;
      '(result, self) <- calculate_LHC_bunch_intensity self ;;
      (* Append the values to the corresponding key *)
      all_ion_species_loop self rest (append_items full_result result)
  end.

(** Estimate of the LHC bunch intensity for all ion species provided in the
    table (with [save_csv=False]: writing the file is not modelled). *)
Definition calculate_LHC_bunch_intensity_all_ion_species (self : InjectorChain num)
    : result (DataFrame num * InjectorChain num) :=
  '(full_result, self) <-
    all_ion_species_loop self (columns (full_ion_data self)) [] ;;
  df_all_ions <- DataFrame_set_index full_result "Ion" ;;
  OK (df_all_ions, self).

(** The arguments of [CERN_Injector_Chain(...)]. *)
Record Args : Type := {
  arg_ion_type : string;
  arg_ion_data : IonTable num;
  arg_ion_type_ref : string;
  arg_nPulsesLEIR : Z;
  arg_LEIR_bunches : Z;
  arg_PS_splitting : Z;
  arg_account_for_SPS_transmission : bool;
  arg_LEIR_PS_strip : bool
}.

(** The defaults of the optional arguments. *)
Definition default_args (ion_type : string) (ion_data : IonTable num) : Args :=
  {| arg_ion_type := ion_type; arg_ion_data := ion_data;
     arg_ion_type_ref := "Pb"; arg_nPulsesLEIR := 1; arg_LEIR_bunches := 1;
     arg_PS_splitting := 1; arg_account_for_SPS_transmission := true;
     arg_LEIR_PS_strip := false |}.

(** The new object with the attributes [__init__] assigns from its
    arguments; no method has assigned any other attribute yet.  The fields
    of the record that the class does not have, which its methods never
    read, hold [False], the empty table and the directory of its output. *)
Definition new_object (a : Args) : InjectorChain num :=
  {| full_ion_data := arg_ion_data a;
     LEIR_PS_strip := arg_LEIR_PS_strip a;
     higher_brho_LEIR := false;
     use_gammas_ref := false;
     ion_energy_data := [];
     debug_mode := false;
     account_for_SPS_transmission := arg_account_for_SPS_transmission a;
     consider_PS_space_charge_limit := false;
     nPulsesLEIR := arg_nPulsesLEIR a;
     LEIR_bunches := arg_LEIR_bunches a;
     PS_splitting := arg_PS_splitting a;
     ion_type_ref := arg_ion_type_ref a;
     save_path := "Output";
     use_Roderiks_gamma := true;
     ion := None; energy := None; reference := None;
     leir_out := None; ps_out := None; sps_out := None |}.

(** [__init__].  The attributes that come from the arguments are written
    into the new object at once: [init_ion] and [ion0_referenceValues]
    read only those the constructor has assigned before it calls them, and
    no method called here reads [use_Roderiks_gamma]. *)
Definition __init__ (a : Args) : result (InjectorChain num) :=
  let self := new_object a in
  self <- init_ion self (arg_ion_type a) ;;
  ion0_referenceValues self.

End Model.

Arguments Args num : clear implicits.

End CERN_Injector_Chain.

(** The arguments of [InjectorChain(...)] that take the arguments [a] of
    [CERN_Injector_Chain(...)] as they are, with the space charge limit of
    the PS and the precomputed gammas switched off. *)
Definition current_args {num : Type} (a : CERN_Injector_Chain.Args num)
    (higher_brho_LEIR : bool) : Args num :=
  {| arg_ion_type := CERN_Injector_Chain.arg_ion_type a;
     arg_ion_data := CERN_Injector_Chain.arg_ion_data a;
     arg_ion_type_ref := CERN_Injector_Chain.arg_ion_type_ref a;
     arg_nPulsesLEIR := CERN_Injector_Chain.arg_nPulsesLEIR a;
     arg_LEIR_bunches := CERN_Injector_Chain.arg_LEIR_bunches a;
     arg_PS_splitting := CERN_Injector_Chain.arg_PS_splitting a;
     arg_account_for_SPS_transmission :=
       CERN_Injector_Chain.arg_account_for_SPS_transmission a;
     arg_LEIR_PS_strip := CERN_Injector_Chain.arg_LEIR_PS_strip a;
     arg_consider_PS_space_charge_limit := false;
     arg_use_gammas_ref := false;
     arg_higher_brho_LEIR := higher_brho_LEIR |}.

(** [del d[key]] where the key is present, and [d] otherwise. *)
Definition without {V : Type} (key : string) (d : dict V) : dict V :=
  filter (fun kv => negb (String.eqb (fst kv) key)) d.

(** The frame without the column [key]. *)
Definition drop_column {num : Type} (key : string) (df : DataFrame num) : DataFrame num :=
  {| df_index := df_index df; df_columns := without key (df_columns df) |}.

(** The reference values of the two classes differ in the intensity of the
    PS only. *)
Definition same_reference_but_PS {num : Type} (r r0 : ReferenceAttrs num) : Prop :=
  E_kin_per_A_LEIR_inj r0 = E_kin_per_A_LEIR_inj r /\
  E_kin_per_A_LEIR_extr r0 = E_kin_per_A_LEIR_extr r /\
  E_kin_per_A_PS_inj r0 = E_kin_per_A_PS_inj r /\
  E_kin_per_A_PS_extr r0 = E_kin_per_A_PS_extr r /\
  E_kin_per_A_SPS_inj r0 = E_kin_per_A_SPS_inj r /\
  E_kin_per_A_SPS_extr r0 = E_kin_per_A_SPS_extr r /\
  m0_GeV r0 = m0_GeV r /\ Z0 r0 = Z0 r /\
  Nq0_LEIR_extr r0 = Nq0_LEIR_extr r /\ Q0_LEIR r0 = Q0_LEIR r /\
  Nb0_LEIR_extr r0 = Nb0_LEIR_extr r /\
  gamma0_LEIR_inj r0 = gamma0_LEIR_inj r /\ gamma0_LEIR_extr r0 = gamma0_LEIR_extr r /\
  Q0_PS r0 = Q0_PS r /\
  gamma0_PS_inj r0 = gamma0_PS_inj r /\ gamma0_PS_extr r0 = gamma0_PS_extr r /\
  Nb0_SPS_extr r0 = Nb0_SPS_extr r /\ Q0_SPS r0 = Q0_SPS r /\
  Nq0_SPS_extr r0 = Nq0_SPS_extr r /\
  gamma0_SPS_inj r0 = gamma0_SPS_inj r /\ gamma0_SPS_extr r0 = gamma0_SPS_extr r.

(** An [InjectorChain] with the space charge limit of the PS and the
    precomputed gammas switched off, and an object of [CERN_Injector_Chain]
    with the same settings, the same ion and the same reference values but
    the intensity of the PS. *)
Definition counterpart {num : Type} (self self0 : InjectorChain num) : Prop :=
  use_gammas_ref self = false /\
  consider_PS_space_charge_limit self = false /\
  full_ion_data self0 = full_ion_data self /\
  LEIR_PS_strip self0 = LEIR_PS_strip self /\
  account_for_SPS_transmission self0 = account_for_SPS_transmission self /\
  nPulsesLEIR self0 = nPulsesLEIR self /\
  LEIR_bunches self0 = LEIR_bunches self /\
  PS_splitting self0 = PS_splitting self /\
  ion_type_ref self0 = ion_type_ref self /\
  use_Roderiks_gamma self0 = use_Roderiks_gamma self /\
  ion self0 = ion self /\
  match reference self, reference self0 with
  | Some r, Some r0 => same_reference_but_PS r r0
  | None, None => True
  | _, _ => False
  end.

(** * Example inputs *)

Section Examples.
Context {num : Type} {arith : Arith num}.

(** Lead, the reference ion, and oxygen. *)
Definition Pb_data : IonData num :=
  {| row_mass_GeV := ndec 193687 (-3); row_Z := ndec 82 0; row_A := ndec 208 0;
     row_Q_before_stripping := ndec 54 0; row_Linac3_current_uA := ndec 20 0;
     row_Linac3_pulse_length_us := ndec 200 0;
     row_LEIR_PS_Stripping_Efficiency := ndec 1 0 |}.

Definition O_data : IonData num :=
  {| row_mass_GeV := ndec 14895 (-3); row_Z := ndec 8 0; row_A := ndec 16 0;
     row_Q_before_stripping := ndec 4 0; row_Linac3_current_uA := ndec 50 0;
     row_Linac3_pulse_length_us := ndec 200 0;
     row_LEIR_PS_Stripping_Efficiency := ndec 9 (-1) |}.

Definition example_table : IonTable num := [("Pb", Pb_data); ("O", O_data)].

(** No file of precomputed gammas is needed when [use_gammas_ref] is off. *)
Definition no_energies : string -> result (EnergyTable num) := fun _ => OK [].

Definition example_args : Args num := default_args "Pb" example_table.

(** The object a call returned, or [d] when the call raised. *)
Definition or_else {T : Type} (r : result T) (d : T) : T :=
  match r with
  | OK v => v
  | Raise _ => d
  end.

(** [InjectorChain('Pb', example_table)]. *)
Definition example_object : InjectorChain num :=
  or_else (__init__ no_energies example_args) (new_object example_args []).

(** [InjectorChain('Pb', example_table, account_for_SPS_transmission=False)]. *)
Definition example_args_no_SPS_transmission : Args num :=
  {| arg_ion_type := "Pb"; arg_ion_data := example_table;
     arg_ion_type_ref := "Pb"; arg_nPulsesLEIR := 1; arg_LEIR_bunches := 1;
     arg_PS_splitting := 1; arg_account_for_SPS_transmission := false;
     arg_LEIR_PS_strip := false; arg_consider_PS_space_charge_limit := true;
     arg_use_gammas_ref := false; arg_higher_brho_LEIR := false |}.

Definition example_object_no_SPS_transmission : InjectorChain num :=
  or_else (__init__ no_energies example_args_no_SPS_transmission)
          (new_object example_args_no_SPS_transmission []).

(** Two ions, X1 and X2, with the properties of lead, and a file of
    precomputed gammas that has different rows for them. *)
Definition twin_table : IonTable num := [("X1", Pb_data); ("X2", Pb_data)].

Definition twin_energies : string -> result (EnergyTable num) :=
  fun _ =>
    OK [ ("54X1208",
          {| LEIR_gamma_inj := ndec 1005 (-3); LEIR_gamma_extr := ndec 108 (-2);
             PS_gamma_inj := ndec 108 (-2); PS_gamma_extr := ndec 73 (-1);
             SPS_gamma_inj := ndec 73 (-1); SPS_gamma_extr := ndec 190 0 |});
         ("54X2208",
          {| LEIR_gamma_inj := ndec 1006 (-3); LEIR_gamma_extr := ndec 109 (-2);
             PS_gamma_inj := ndec 109 (-2); PS_gamma_extr := ndec 75 (-1);
             SPS_gamma_inj := ndec 75 (-1); SPS_gamma_extr := ndec 191 0 |}) ].

(** [InjectorChain('X1', twin_table, use_gammas_ref=True)]. *)
Definition twin_args : Args num :=
  {| arg_ion_type := "X1"; arg_ion_data := twin_table;
     arg_ion_type_ref := "Pb"; arg_nPulsesLEIR := 1; arg_LEIR_bunches := 1;
     arg_PS_splitting := 1; arg_account_for_SPS_transmission := true;
     arg_LEIR_PS_strip := false; arg_consider_PS_space_charge_limit := true;
     arg_use_gammas_ref := true; arg_higher_brho_LEIR := false |}.

Definition twin_object : InjectorChain num :=
  or_else (__init__ twin_energies twin_args) (new_object twin_args []).

(** [InjectorChain('Pb', example_table, nPulsesLEIR=0, LEIR_PS_strip=True)]:
    the number of pulses is chosen by the code, and the ions are stripped
    between LEIR and the PS. *)
Definition auto_args : Args num :=
  {| arg_ion_type := "Pb"; arg_ion_data := example_table;
     arg_ion_type_ref := "Pb"; arg_nPulsesLEIR := 0; arg_LEIR_bunches := 2;
     arg_PS_splitting := 2; arg_account_for_SPS_transmission := true;
     arg_LEIR_PS_strip := true; arg_consider_PS_space_charge_limit := true;
     arg_use_gammas_ref := false; arg_higher_brho_LEIR := false |}.

Definition auto_object : InjectorChain num :=
  or_else (__init__ no_energies auto_args) (new_object auto_args []).

(** [CERN_Injector_Chain('Pb', example_table)], an object of the older
    class, and [InjectorChain('Pb', example_table,
    consider_PS_space_charge_limit=False)]. *)
Definition older_args : CERN_Injector_Chain.Args num :=
  CERN_Injector_Chain.default_args "Pb" example_table.

Definition older_object : InjectorChain num :=
  or_else (CERN_Injector_Chain.__init__ older_args)
          (CERN_Injector_Chain.new_object older_args).

Definition switched_off_object : InjectorChain num :=
  or_else (__init__ no_energies (current_args older_args false))
          (new_object (current_args older_args false) []).

End Examples.

(** The example objects in binary64 arithmetic. *)
Definition example_object64 : InjectorChain PrimFloat.float := example_object.
Definition auto_object64 : InjectorChain PrimFloat.float := auto_object.
Definition twin_object64 : InjectorChain PrimFloat.float := twin_object.
Definition example_object_no_SPS_transmission64 : InjectorChain PrimFloat.float :=
  example_object_no_SPS_transmission.
Definition no_energies64 : string -> result (EnergyTable PrimFloat.float) := no_energies.
Definition example_args64 : Args PrimFloat.float := example_args.
Definition auto_args64 : Args PrimFloat.float := auto_args.
Definition twin_args64 : Args PrimFloat.float := twin_args.

(** An object in the physical domain, over the real numbers: the ion has
    positive mass, charges and mass number, the source delivers no negative
    current, efficiencies are fractions, the numbers of bunches are
    positive and the number of pulses is not negative; where the code
    divides by the intensity per pulse (auto mode) the source delivers ions,
    and precomputed gammas are above 1.  On such an object the computation
    in floating point divides by no zero and takes no root of a negative
    number, so that the real numbers describe it up to rounding. *)
Definition physical (self : InjectorChain R) : Prop :=
  exists i,
    ion self = Some i /\
    (0 < mass_GeV i /\ 0 < ion_Z i /\ 0 < ion_Q i /\ 0 < ion_A i)%R /\
    (0 <= linac3_current i /\ 0 <= linac3_pulseLength i)%R /\
    (0 <= LEIR_PS_stripping_efficiency i <= 1)%R /\
    (1 <= LEIR_bunches self /\ 1 <= PS_splitting self /\ 0 <= nPulsesLEIR self)%Z /\
    (nPulsesLEIR self = 0%Z -> 0 < linac3_current i /\ 0 < linac3_pulseLength i)%R /\
    (use_gammas_ref self = true ->
     exists en,
       energy self = Some en /\
       (1 < LEIR_gamma_inj_ref en /\ 1 < LEIR_gamma_extr_ref en /\
        1 < PS_gamma_inj_ref en /\ 1 < PS_gamma_extr_ref en /\
        1 < SPS_gamma_inj_ref en /\ 1 < SPS_gamma_extr_ref en)%R).

(** The example objects over the real numbers. *)
Definition example_objectR : InjectorChain R := example_object.
Definition no_energiesR : string -> result (EnergyTable R) := no_energies.
Definition example_argsR : Args R := example_args.
Definition auto_objectR : InjectorChain R := auto_object.
Definition auto_argsR : Args R := auto_args.

(** The objects of the two classes in binary64 arithmetic and over the
    real numbers. *)
Definition older_args64 : CERN_Injector_Chain.Args PrimFloat.float := older_args.
Definition older_object64 : InjectorChain PrimFloat.float := older_object.
Definition switched_off_object64 : InjectorChain PrimFloat.float := switched_off_object.
Definition older_argsR : CERN_Injector_Chain.Args R := older_args.
Definition older_objectR : InjectorChain R := older_object.
Definition switched_off_objectR : InjectorChain R := switched_off_object.

(** [InjectorChain('O', repeated_table)], for a table in which the label
    of lead is repeated. *)
Definition repeated_table : IonTable PrimFloat.float :=
  [("Pb", Pb_data); ("Pb", Pb_data); ("O", O_data)].

Definition repeated_object : InjectorChain PrimFloat.float :=
  or_else (__init__ no_energies64 (default_args "O" repeated_table))
          (new_object (default_args "O" repeated_table) []).

(** [InjectorChain('X1', partial_table, use_gammas_ref=True)], for a table
    with an ion that the file of precomputed gammas has no row for. *)
Definition partial_table : IonTable PrimFloat.float := [("X1", Pb_data); ("O", O_data)].

Definition partial_args : Args PrimFloat.float :=
  {| arg_ion_type := "X1"; arg_ion_data := partial_table;
     arg_ion_type_ref := "Pb"; arg_nPulsesLEIR := 1; arg_LEIR_bunches := 1;
     arg_PS_splitting := 1; arg_account_for_SPS_transmission := true;
     arg_LEIR_PS_strip := false; arg_consider_PS_space_charge_limit := true;
     arg_use_gammas_ref := true; arg_higher_brho_LEIR := false |}.

Definition partial_object : InjectorChain PrimFloat.float :=
  or_else (__init__ twin_energies partial_args) (new_object partial_args []).

(** Lead from a source whose current is not known (NaN in the table). *)
Definition Pb_unknown_source : IonData PrimFloat.float :=
  {| row_mass_GeV := ndec 193687 (-3); row_Z := ndec 82 0; row_A := ndec 208 0;
     row_Q_before_stripping := ndec 54 0; row_Linac3_current_uA := PrimFloat.nan;
     row_Linac3_pulse_length_us := ndec 200 0;
     row_LEIR_PS_Stripping_Efficiency := ndec 1 0 |}.

(** [InjectorChain('Pb', [Pb_unknown_source])]. *)
Definition unknown_source_args : Args PrimFloat.float :=
  default_args "Pb" [("Pb", Pb_unknown_source)].

Definition unknown_source_object : InjectorChain PrimFloat.float :=
  or_else (__init__ no_energies64 unknown_source_args) (new_object unknown_source_args []).




(** * Properties *)

Unset Implicit Arguments.

(** ** Reading a successful run backwards *)

Lemma bind_OK {T U : Type} (m : result T) (k : T -> result U) (v : U) :
  bind m k = OK v -> exists x, m = OK x /\ k x = OK v.
Proof.
  destruct m as [x | err]; simpl; intros H.
  - exists x; split; [reflexivity | exact H].
  - discriminate H.
Qed.

Lemma attr_OK {T : Type} (name : string) (o : option T) (v : T) :
  attr name o = OK v -> o = Some v.
Proof. destruct o; simpl; intros H; [injection H as -> | discriminate H]; reflexivity. Qed.

Ltac inv_ok :=
  repeat match goal with
    | H : bind _ _ = OK _ |- _ =>
        let x := fresh "x" in
        let E := fresh "E" in
        apply bind_OK in H; destruct H as (x & E & H); cbv beta in H
    | H : attr _ _ = OK _ |- _ => apply attr_OK in H
    | H : OK _ = OK _ |- _ => injection H as H; try subst
    | H : Some _ = Some _ |- _ => injection H as H; try subst
    | H : Raise _ = OK _ |- _ => discriminate H
    | H : (let '(_, _) := ?p in _) = OK _ |- _ => destruct p
    end.

(** ** Dictionaries *)

Section Dicts.
Context {V : Type}.
Implicit Types (d : dict V) (k : string) (v : V).

Lemma dict_get_None d k : dict_get d k = None <-> ~ In k (keys d).
Proof.
  induction d as [| [k0 v0] d IH]; simpl.
  - tauto.
  - destruct (String.eqb k0 k) eqn:E.
    + apply String.eqb_eq in E. split; [discriminate | tauto].
    + apply String.eqb_neq in E. rewrite IH. tauto.
Qed.

Lemma dict_get_In d k : In k (keys d) -> exists v, dict_get d k = Some v.
Proof.
  intros H. destruct (dict_get d k) as [v |] eqn:E; [exists v; reflexivity |].
  apply dict_get_None in E. contradiction.
Qed.

Lemma dict_get_set_other d k k' v :
  k' <> k -> dict_get (dict_set d k v) k' = dict_get d k'.
Proof.
  intros Hne. induction d as [| [k0 v0] d IH]; simpl.
  - destruct (String.eqb k k') eqn:E; [| reflexivity].
    apply String.eqb_eq in E. congruence.
  - destruct (String.eqb k0 k) eqn:E; simpl.
    + apply String.eqb_eq in E. subst k0.
      destruct (String.eqb k k') eqn:E'; [| reflexivity].
      apply String.eqb_eq in E'. congruence.
    + rewrite IH. reflexivity.
Qed.

Lemma keys_dict_set d k v : In k (keys d) -> keys (dict_set d k v) = keys d.
Proof.
  induction d as [| [k0 v0] d IH]; simpl; [tauto |].
  intros H. destruct (String.eqb k0 k) eqn:E; simpl; [reflexivity |].
  apply String.eqb_neq in E. f_equal. apply IH. tauto.
Qed.

Lemma dict_set_fresh d k v : ~ In k (keys d) -> dict_set d k v = (d ++ [(k, v)])%list.
Proof.
  induction d as [| [k0 v0] d IH]; simpl; [reflexivity |].
  intros H. destruct (String.eqb k0 k) eqn:E.
  - apply String.eqb_eq in E. tauto.
  - f_equal. apply IH. tauto.
Qed.

Lemma dict_get_In_NoDup d k v : NoDup (keys d) -> In (k, v) d -> dict_get d k = Some v.
Proof.
  induction d as [| [k0 v0] d IH]; simpl; [tauto |].
  intros Hnd [Heq | Hin].
  - injection Heq as -> ->. rewrite String.eqb_refl. reflexivity.
  - inversion Hnd as [| ? ? Hk0 Hnd']; subst.
    destruct (String.eqb k0 k) eqn:E.
    + apply String.eqb_eq in E. subst k0. exfalso. apply Hk0.
      apply (in_map fst) in Hin. exact Hin.
    + apply IH; assumption.
Qed.

Lemma dict_get_set_same d k v : dict_get (dict_set d k v) k = Some v.
Proof.
  induction d as [| [k0 v0] d IH]; simpl.
  - rewrite String.eqb_refl. reflexivity.
  - destruct (String.eqb k0 k) eqn:E; simpl; rewrite E; [reflexivity | exact IH].
Qed.

Lemma Forall2_nth_error {T U : Type} (R : T -> U -> Prop) (l1 : list T) (l2 : list U) :
  Forall2 R l1 l2 ->
  forall n a, nth_error l1 n = Some a -> exists b, nth_error l2 n = Some b /\ R a b.
Proof.
  induction 1 as [| a0 b0 l1 l2 Hab _ IH]; intros n a Hn.
  - destruct n; discriminate Hn.
  - destruct n as [| n]; simpl in *.
    + injection Hn as <-. exists b0. split; [reflexivity | exact Hab].
    + apply IH. exact Hn.
Qed.

End Dicts.

(** Appending a record to the columns collected so far. *)
Section Columns.
Context {num : Type} {arith : Arith num}.
Implicit Types (d : dict (value num)) (acc : dict (list (value num))).

Lemma append_step_aligned acc k l v (d : dict (value num)) :
  NoDup (keys acc) -> dict_get acc k = Some l -> ~ In k (keys d) ->
  map (fun c => (fst c, (snd c ++ cell d (fst c))%list)) (dict_set acc k (l ++ [v])%list)
  = map (fun c => (fst c, (snd c ++ cell ((k, v) :: d) (fst c))%list)) acc.
Proof.
  intros Hnd Hget Hk. induction acc as [| [k0 l0] acc IH]; simpl in *; [discriminate |].
  inversion Hnd as [| ? ? Hk0 Hnd']; subst.
  unfold cell at 2. simpl.
  destruct (String.eqb k0 k) eqn:E; simpl.
  - apply String.eqb_eq in E. subst k0. injection Hget as ->.
    rewrite String.eqb_refl.
    assert (Hc : cell d k = []).
    { unfold cell. apply dict_get_None in Hk. rewrite Hk. reflexivity. }
    rewrite Hc, app_nil_r. f_equal.
    apply map_ext_in. intros [k1 l1] Hin. simpl. unfold cell. simpl.
    destruct (String.eqb k k1) eqn:E1; [| reflexivity].
    apply String.eqb_eq in E1. subst k1. exfalso. apply Hk0.
    apply (in_map fst) in Hin. exact Hin.
  - rewrite String.eqb_sym, E. fold (cell d k0). f_equal.
    apply IH; assumption.
Qed.

Lemma append_items_aligned (d : dict (value num)) : forall acc,
  NoDup (keys d) -> NoDup (keys acc) ->
  (forall k, In k (keys d) -> In k (keys acc)) ->
  append_items acc d
  = map (fun c => (fst c, (snd c ++ cell d (fst c))%list)) acc.
Proof.
  unfold append_items.
  induction d as [| [k v] d IH]; intros acc Hd Hacc Hsub; simpl.
  - rewrite <- (map_id acc) at 1. apply map_ext. intros [k l]. simpl.
    unfold cell. simpl. rewrite app_nil_r. reflexivity.
  - inversion Hd as [| ? ? Hk Hd']; subst.
    destruct (dict_get_In acc k) as [l Hl]; [apply Hsub; left; reflexivity |].
    rewrite Hl. rewrite IH.
    + apply append_step_aligned; assumption.
    + assumption.
    + rewrite keys_dict_set; [assumption |].
      apply Hsub. left; reflexivity.
    + intros k' Hk'. rewrite keys_dict_set.
      * apply Hsub. right. exact Hk'.
      * apply Hsub. left; reflexivity.
Qed.

Lemma append_items_fresh (d : dict (value num)) : forall acc,
  NoDup (keys d) -> (forall k, In k (keys d) -> ~ In k (keys acc)) ->
  append_items acc d = (acc ++ map (fun kv => (fst kv, [snd kv])) d)%list.
Proof.
  unfold append_items.
  induction d as [| [k v] d IH]; intros acc Hd Hfresh; simpl.
  - rewrite app_nil_r. reflexivity.
  - inversion Hd as [| ? ? Hk Hd']; subst.
    assert (Hnone : dict_get acc k = None).
    { apply dict_get_None. apply Hfresh. left; reflexivity. }
    rewrite Hnone, dict_set_fresh by (apply Hfresh; left; reflexivity).
    rewrite IH.
    + rewrite <- app_assoc. reflexivity.
    + assumption.
    + intros k' Hk' Hin. unfold keys in Hin. rewrite map_app in Hin.
      apply in_app_or in Hin. destruct Hin as [Hin | [<- | []]].
      * apply (Hfresh k'); [right; exact Hk' | exact Hin].
      * apply Hk. exact Hk'.
Qed.

Lemma keys_transpose (ks : list string) (ds : list (dict (value num))) :
  keys (transpose ks ds) = ks.
Proof.
  unfold keys, transpose. rewrite map_map. simpl. apply map_id.
Qed.

Lemma transpose_single (d : dict (value num)) :
  NoDup (keys d) ->
  transpose (keys d) [d] = map (fun kv => (fst kv, [snd kv])) d.
Proof.
  intros Hnd. unfold transpose, keys. rewrite map_map.
  apply map_ext_in. intros [k v] Hin. simpl. rewrite app_nil_r.
  unfold cell. rewrite (dict_get_In_NoDup d k v Hnd Hin). reflexivity.
Qed.

Lemma append_items_transpose (ks : list string) (ds : list (dict (value num))) d :
  NoDup ks -> keys d = ks ->
  append_items (transpose ks ds) d = transpose ks (ds ++ [d]).
Proof.
  intros Hnd Hk. rewrite append_items_aligned.
  - unfold transpose. rewrite map_map. apply map_ext. intros k. simpl.
    rewrite flat_map_app. simpl. rewrite app_nil_r. reflexivity.
  - rewrite Hk. exact Hnd.
  - rewrite keys_transpose. exact Hnd.
  - intros k. rewrite keys_transpose, Hk. tauto.
Qed.

(** The columns collected from a list of records with one list of keys. *)
Lemma fold_append_items (ks : list string) (rest : list (dict (value num))) :
  NoDup ks -> forall ds,
  Forall (fun d => keys d = ks) rest ->
  fold_left append_items rest (transpose ks ds) = transpose ks (ds ++ rest).
Proof.
  intros Hnd. induction rest as [| d rest IH]; intros ds Hall; simpl.
  - rewrite app_nil_r. reflexivity.
  - inversion Hall as [| ? ? Hd Hrest]; subst.
    rewrite append_items_transpose by (exact Hnd || reflexivity).
    rewrite IH by assumption. rewrite <- app_assoc. reflexivity.
Qed.

Lemma fold_append_items_nil (d : dict (value num)) (rest : list (dict (value num))) :
  NoDup (keys d) -> Forall (fun d' => keys d' = keys d) rest ->
  fold_left append_items (d :: rest) [] = transpose (keys d) (d :: rest).
Proof.
  intros Hnd Hall. simpl.
  rewrite append_items_fresh by (exact Hnd || (intros k _ []) ).
  simpl. rewrite <- transpose_single by exact Hnd.
  apply (fold_append_items (keys d) rest Hnd [d] Hall).
Qed.

(** The entry of row [n] in the column of the key [k]. *)
Lemma nth_error_column (k : string) (ds : list (dict (value num))) :
  Forall (fun d => In k (keys d)) ds ->
  forall n, nth_error (flat_map (fun d => cell d k) ds) n
            = match nth_error ds n with
              | Some d => dict_get d k
              | None => None
              end.
Proof.
  induction ds as [| d ds IH]; intros Hall n; simpl.
  - destruct n; reflexivity.
  - inversion Hall as [| ? ? Hd Hrest]; subst.
    destruct (dict_get_In d k Hd) as [v Hv]. unfold cell at 1. rewrite Hv. simpl.
    destruct n as [| n]; simpl; [symmetry; exact Hv | apply IH; exact Hrest].
Qed.

Lemma dict_get_transpose (ks : list string) (ds : list (dict (value num))) k :
  In k ks -> dict_get (transpose ks ds) k = Some (flat_map (fun d => cell d k) ds).
Proof.
  unfold transpose. induction ks as [| k0 ks IH]; simpl; [tauto |].
  intros [-> | Hin].
  - rewrite String.eqb_refl. reflexivity.
  - destruct (String.eqb k0 k) eqn:E; [| apply IH; exact Hin].
    apply String.eqb_eq in E. subst k0. reflexivity.
Qed.

Lemma length_column (k : string) (ds : list (dict (value num))) :
  Forall (fun d => In k (keys d)) ds ->
  List.length (flat_map (fun d => cell d k) ds) = List.length ds.
Proof.
  induction 1 as [| d ds Hd _ IH]; simpl; [reflexivity |].
  destruct (dict_get_In d k Hd) as [v Hv]. unfold cell at 1. rewrite Hv. simpl.
  f_equal. exact IH.
Qed.

(** What a successful [DataFrame_set_index] returned. *)
Lemma DataFrame_set_index_OK (d : dict (list (value num))) key df :
  DataFrame_set_index d key = OK df ->
  exists col,
    dict_get d key = Some col /\ df_index df = col /\
    df_columns df = filter (fun c => negb (String.eqb (fst c) key)) d.
Proof.
  unfold DataFrame_set_index. destruct d as [| [k0 c0] d]; [discriminate |].
  destruct (forallb _ _); [| discriminate].
  destruct (dict_get _ key) as [col |]; [| discriminate].
  intros H. injection H as <-. exists col. repeat split.
Qed.

End Columns.

(** Two reads of one attribute group give one value. *)
Ltac same_attrs :=
  repeat match goal with
    | H1 : ?o = Some ?a, H2 : ?o = Some ?b |- _ =>
        assert (b = a) by congruence; subst b; clear H2
    end.

Section Generic.
Context {num : Type} {arith : Arith num}.
Local Open Scope num_scope.

Implicit Types (self : InjectorChain num) (i : IonAttrs num) (r : ReferenceAttrs num).

(** *** The linear intensity scaler *)

(** The value [linearIntensityLimit] returns for an ion of charge [charge]. *)
Lemma linearIntensityLimit_eq self i m gamma Nb_0 charge_0 m_0 gamma_0 fully_stripped :
  ion self = Some i ->
  linearIntensityLimit self m gamma Nb_0 charge_0 m_0 gamma_0 fully_stripped
  = OK (Nb_0 * ((m / m_0)
                * pow2 (charge_0 / (if fully_stripped then ion_Z i else ion_Q i))
                * (beta gamma / beta gamma_0)
                * pow2 (gamma / gamma_0))).
Proof. intros Hi. unfold linearIntensityLimit. rewrite Hi. reflexivity. Qed.

(** The scaler reads nothing of the object but the attributes [init_ion]
    assigned. *)
Lemma linearIntensityLimit_ion self self' m gamma Nb_0 charge_0 m_0 gamma_0 fs :
  ion self' = ion self ->
  linearIntensityLimit self' m gamma Nb_0 charge_0 m_0 gamma_0 fs
  = linearIntensityLimit self m gamma Nb_0 charge_0 m_0 gamma_0 fs.
Proof. intros E. unfold linearIntensityLimit. rewrite E. reflexivity. Qed.


(** *** The stage methods *)

(** What a successful call of [leir] did. *)
Lemma leir_OK self self' :
  leir self = OK self' ->
  exists i r l,
    ion self = Some i /\ reference self = Some r /\
    self' = set_leir self l /\
    linearIntensityLimit self (mass_GeV i) (gamma_LEIR_extr l) (Nb0_LEIR_extr r)
      (Q0_LEIR r) (m0_GeV r) (gamma0_LEIR_extr r) false = OK (Nb_LEIR_extr l) /\
    Nq_LEIR_extr l = Nb_LEIR_extr l * ion_Q i /\
    (if use_gammas_ref self
     then exists en, energy self = Some en /\
                     gamma_LEIR_inj l = LEIR_gamma_inj_ref en /\
                     gamma_LEIR_extr l = LEIR_gamma_extr_ref en
     else gamma_LEIR_inj l = (mass_GeV i + E_kin_per_A_LEIR_inj r * ion_A i) / mass_GeV i /\
          gamma_LEIR_extr l = (mass_GeV i + E_kin_per_A_LEIR_extr r * ion_A i) / mass_GeV i).
Proof.
  unfold leir. intros H. inv_ok.
  do 3 eexists.
  split; [eassumption |]. split; [eassumption |]. split; [reflexivity |].
  simpl. split; [eassumption |]. split; [reflexivity |].
  destruct (use_gammas_ref self); inv_ok.
  - eexists; repeat split; eassumption || reflexivity.
  - same_attrs; split; reflexivity.
Qed.

(** What a successful call of [ps] did. *)
Lemma ps_OK self self' :
  ps self = OK self' ->
  exists i r p,
    ion self = Some i /\ reference self = Some r /\
    self' = set_ps self p /\
    linearIntensityLimit self (mass_GeV i) (gamma_PS_extr p) (Nb0_PS_extr r)
      (Q0_PS r) (m0_GeV r) (gamma0_PS_extr r) false = OK (Nb_PS_extr p) /\
    Nq_PS_extr p = Nb_PS_extr p * ion_Q i /\
    (if use_gammas_ref self
     then exists en, energy self = Some en /\
                     gamma_PS_inj p = PS_gamma_inj_ref en /\
                     gamma_PS_extr p = PS_gamma_extr_ref en
     else gamma_PS_inj p = (mass_GeV i + E_kin_per_A_PS_inj r * ion_A i) / mass_GeV i /\
          gamma_PS_extr p = (mass_GeV i + E_kin_per_A_PS_extr r * ion_A i) / mass_GeV i).
Proof.
  unfold ps. intros H. inv_ok.
  do 3 eexists.
  split; [eassumption |]. split; [eassumption |]. split; [reflexivity |].
  simpl. split; [eassumption |]. split; [reflexivity |].
  destruct (use_gammas_ref self); inv_ok.
  - eexists; repeat split; eassumption || reflexivity.
  - same_attrs; split; reflexivity.
Qed.

(** What a successful call of [sps] did. *)
Lemma sps_OK self self' :
  sps self = OK self' ->
  exists i r s,
    ion self = Some i /\ reference self = Some r /\
    self' = set_sps self s /\
    linearIntensityLimit self (mass_GeV i) (gamma_SPS_inj s) (Nb0_SPS_extr r)
      (Q0_SPS r) (m0_GeV r) (gamma0_SPS_inj r) true = OK (Nb_SPS_extr s) /\
    Nq_SPS_extr s = Nb_SPS_extr s * ion_Z i /\
    (if use_gammas_ref self
     then exists en, energy self = Some en /\
                     gamma_SPS_inj s = SPS_gamma_inj_ref en /\
                     gamma_SPS_extr s = SPS_gamma_extr_ref en
     else gamma_SPS_extr s = (mass_GeV i + E_kin_per_A_SPS_extr r * ion_A i) / mass_GeV i /\
          gamma_SPS_inj s =
            if use_Roderiks_gamma self
            then nsqrt (nofZ 1
                        + pow2 (((if LEIR_PS_strip self then ion_Z i else ion_Q i) / nofZ 54)
                                / (mass_GeV i / m0_GeV r))
                          * (pow2 (gamma0_SPS_inj r) - nofZ 1))
            else (mass_GeV i + E_kin_per_A_SPS_inj r * ion_A i) / mass_GeV i).
Proof.
  unfold sps. intros H. inv_ok.
  do 3 eexists.
  split; [eassumption |]. split; [eassumption |]. split; [reflexivity |].
  simpl. split; [eassumption |]. split; [reflexivity |].
  destruct (use_gammas_ref self); inv_ok.
  - eexists; repeat split; eassumption || reflexivity.
  - destruct (use_Roderiks_gamma self); inv_ok; same_attrs; split; reflexivity.
Qed.

(** The stage methods succeed on an object whose ion and reference
    attributes are assigned, and whose precomputed gammas are loaded when
    they are used. *)
Lemma leir_runs self i r :
  ion self = Some i -> reference self = Some r ->
  (use_gammas_ref self = true -> energy self <> None) ->
  exists self', leir self = OK self'.
Proof.
  intros Hi Hr He. unfold leir, linearIntensityLimit. rewrite Hi, Hr.
  destruct (use_gammas_ref self).
  - destruct (energy self) as [en |]; [| exfalso; apply He; reflexivity].
    simpl. eexists; reflexivity.
  - simpl. eexists; reflexivity.
Qed.

Lemma ps_runs self i r :
  ion self = Some i -> reference self = Some r ->
  (use_gammas_ref self = true -> energy self <> None) ->
  exists self', ps self = OK self'.
Proof.
  intros Hi Hr He. unfold ps, linearIntensityLimit. rewrite Hi, Hr.
  destruct (use_gammas_ref self).
  - destruct (energy self) as [en |]; [| exfalso; apply He; reflexivity].
    simpl. eexists; reflexivity.
  - simpl. eexists; reflexivity.
Qed.

Lemma sps_runs self i r :
  ion self = Some i -> reference self = Some r ->
  (use_gammas_ref self = true -> energy self <> None) ->
  exists self', sps self = OK self'.
Proof.
  intros Hi Hr He. unfold sps, linearIntensityLimit. rewrite Hi, Hr.
  destruct (use_gammas_ref self).
  - destruct (energy self) as [en |]; [| exfalso; apply He; reflexivity].
    simpl. eexists; reflexivity.
  - simpl. destruct (use_Roderiks_gamma self); simpl; eexists; reflexivity.
Qed.


(** The object after a run of all stages: every stage has assigned its
    attributes, and nothing else changed. *)
Lemma simulate_OK self self' :
  simulate_injection_SpaceCharge_limit self = OK self' ->
  exists l p s,
    leir self = OK (set_leir self l) /\
    ps (set_leir self l) = OK (set_ps (set_leir self l) p) /\
    sps (set_ps (set_leir self l) p) = OK self' /\
    self' = set_sps (set_ps (set_leir self l) p) s.
Proof.
  unfold simulate_injection_SpaceCharge_limit. intros H. inv_ok.
  destruct (leir_OK _ _ E) as (i1 & r1 & l & _ & _ & -> & _).
  destruct (ps_OK _ _ E0) as (i2 & r2 & p & _ & _ & -> & _).
  destruct (sps_OK _ _ H) as (i3 & r3 & s & _ & _ & -> & _).
  exists l, p, s. repeat split; assumption.
Qed.

(** *** The chain aggregator *)

(** The stages of a successful run, one by one. *)
Lemma simulate_stages self self' :
  simulate_injection_SpaceCharge_limit self = OK self' ->
  exists i r l p s,
    ion self = Some i /\ reference self = Some r /\
    self' = set_sps (set_ps (set_leir self l) p) s /\
    linearIntensityLimit self (mass_GeV i) (gamma_LEIR_extr l) (Nb0_LEIR_extr r)
      (Q0_LEIR r) (m0_GeV r) (gamma0_LEIR_extr r) false = OK (Nb_LEIR_extr l) /\
    linearIntensityLimit self (mass_GeV i) (gamma_SPS_inj s) (Nb0_SPS_extr r)
      (Q0_SPS r) (m0_GeV r) (gamma0_SPS_inj r) true = OK (Nb_SPS_extr s).
Proof.
  intros H. destruct (simulate_OK _ _ H) as (l & p & s & Hl & Hp & Hs & ->).
  destruct (leir_OK _ _ Hl) as (i & r & l' & Hi & Hr & El & Hlim & _).
  destruct (sps_OK _ _ Hs) as (i' & r' & s' & Hi' & Hr' & Es & Hlim' & _).
  simpl in Hi', Hr'. same_attrs.
  assert (l' = l) by (injection El; congruence). subst l'.
  assert (s' = s) by (injection Es; congruence). subst s'.
  exists i, r, l, p, s. repeat split; assumption.
Qed.

End Generic.

(** Reads a successful [calculate_LHC_bunch_intensity] backwards, down to
    the values of its local variables. *)
Ltac calc_inv H :=
  unfold calculate_LHC_bunch_intensity in H; inv_ok;
  match goal with
  | E : simulate_injection_SpaceCharge_limit _ = OK _ |- _ =>
      let Hsim := fresh "Hsim" in
      pose proof E as Hsim;
      destruct (simulate_stages _ _ E) as (? & ? & ? & ? & ? & ? & ? & -> & ? & ?)
  end;
  unfold linearIntensityLimit in *; simpl in *; same_attrs;
  match goal with Hion : ion _ = Some _ |- _ => rewrite Hion in * end;
  simpl in *; inv_ok.

Section Aggregator.
Context {num : Type} {arith : Arith num}.
Local Open Scope num_scope.

Implicit Types (self : InjectorChain num) (i : IonAttrs num) (r : ReferenceAttrs num).

(** C10: the space-charge limits that [calculate_LHC_bunch_intensity]
    recomputes for LEIR and for the SPS are the extracted bunch intensities
    [Nb_LEIR_extr] and [Nb_SPS_extr] that [leir] and [sps] assigned in the run
    of the stages just before. *)
Theorem recomputed_limits_are_stage_intensities self res self' :
  calculate_LHC_bunch_intensity self = OK (res, self') ->
  simulate_injection_SpaceCharge_limit self = OK self' /\
  exists l s,
    leir_out self' = Some l /\ sps_out self' = Some s /\
    dict_get res "LEIR_space_charge_limit" = Some (VFloat (Nb_LEIR_extr l)) /\
    dict_get res "SPS_spaceChargeLimit" = Some (VFloat (Nb_SPS_extr s)).
Proof.
  unfold calculate_LHC_bunch_intensity. intros H. inv_ok.
  destruct (simulate_stages _ _ E) as (i & r & l & p & s & Hi & Hr & -> & Hl & Hs).
  split; [assumption |]. exists l, s.
  unfold linearIntensityLimit in *. simpl in *. same_attrs.
  match goal with Hion : ion self = Some _ |- _ => rewrite Hion in * end.
  simpl in *. inv_ok.
  split; [reflexivity |]. split; [reflexivity |].
  destruct (LEIR_PS_strip self); simpl; split; congruence.
Qed.

(** *** Initialisation *)

Lemma same_config_refl self : same_config self self.
Proof. repeat split. Qed.

Lemma same_config_trans self1 self2 self3 :
  same_config self1 self2 -> same_config self2 self3 -> same_config self1 self3.
Proof. unfold same_config. intuition congruence. Qed.

(** What a successful call of [load_ion_energy] did. *)
Lemma load_ion_energy_OK self self' :
  load_ion_energy self = OK self' ->
  exists i q a row en,
    ion self = Some i /\ ntrunc (ion_Q i) = OK q /\ ntrunc (ion_A i) = OK a /\
    loc (ion_energy_data self) (str q ++ ion_type i ++ str a) = OK row /\
    self' = set_energy self en /\
    LEIR_gamma_inj_ref en = LEIR_gamma_inj row /\
    LEIR_gamma_extr_ref en = LEIR_gamma_extr row /\
    PS_gamma_inj_ref en = PS_gamma_inj row /\
    PS_gamma_extr_ref en = PS_gamma_extr row /\
    SPS_gamma_inj_ref en = SPS_gamma_inj row /\
    SPS_gamma_extr_ref en = SPS_gamma_extr row.
Proof.
  unfold load_ion_energy. intros H. inv_ok.
  do 5 eexists. repeat split; try eassumption; reflexivity.
Qed.

(** What a successful call of [init_ion] did: every attribute of the ion
    is assigned anew, from the column of the ion and from constants, and the
    precomputed gammas are loaded anew when they are used. *)
Lemma init_ion_OK self ion_type' self' :
  init_ion self ion_type' = OK self' ->
  exists i,
    ion self' = Some i /\ ion_initialised self' i /\
    ion_type i = ion_type' /\
    SPS_transmission i = ndec 62 (-2) /\
    same_config self self' /\
    reference self' = reference self /\
    leir_out self' = leir_out self /\ ps_out self' = ps_out self /\
    sps_out self' = sps_out self /\
    (if use_gammas_ref self
     then load_ion_energy (set_ion self i) = OK self'
     else self' = set_ion self i).
Proof.
  unfold init_ion. intros H. inv_ok. simpl in H.
  destruct (use_gammas_ref self) eqn:Hg.
  - match type of H with load_ion_energy (set_ion _ ?i0) = _ => exists i0 end.
    destruct (load_ion_energy_OK _ _ H)
      as (i & q & a & row & en & _ & _ & _ & _ & Hs & _).
    split; [rewrite Hs; reflexivity |].
    split; [rewrite Hs; unfold ion_initialised; simpl; tauto |].
    split; [reflexivity |]. split; [reflexivity |].
    split; [rewrite Hs; repeat split |].
    rewrite Hs at 1 2 3 4. simpl. repeat split. exact H.
  - inv_ok. eexists. split; [reflexivity |].
    split; [unfold ion_initialised; simpl; tauto |].
    repeat split.
Qed.

(** What a successful call of [ion0_referenceValues] did. *)
Lemma ion0_referenceValues_OK self self' :
  ion0_referenceValues self = OK self' ->
  exists i,
    ion self = Some i /\ ion_type_ref self = "Pb" /\
    let T := if negb (account_for_SPS_transmission self)
             then ndec 10 (-1) else SPS_transmission i in
    self' = set_reference (set_ion self (if negb (account_for_SPS_transmission self)
                                         then set_SPS_transmission i (ndec 10 (-1))
                                         else i))
              (Pb_reference T).
Proof.
  unfold ion0_referenceValues. intros H.
  destruct (String.eqb (ion_type_ref self) "Pb") eqn:Href; [| discriminate H].
  apply String.eqb_eq in Href. inv_ok.
  eexists. split; [eassumption |]. split; [assumption |].
  destruct (account_for_SPS_transmission self); reflexivity.
Qed.

Lemma ion_initialised_config self self' i :
  same_config self self' -> ion_initialised self i -> ion_initialised self' i.
Proof.
  unfold same_config, ion_initialised. intros (-> & -> & _). tauto.
Qed.

Lemma ion_initialised_SPS_transmission self i T :
  T = ndec 62 (-2) \/ T = ndec 10 (-1) ->
  ion_initialised self i -> ion_initialised self (set_SPS_transmission i T).
Proof. unfold ion_initialised. simpl. tauto. Qed.

(** The constructor establishes [initialised]. *)
Lemma init_initialised (read_csv : string -> result (EnergyTable num)) (a : Args num) self :
  __init__ read_csv a = OK self -> initialised a self.
Proof.
  unfold __init__. intros H. inv_ok.
  destruct (init_ion_OK _ _ _ E0)
    as (i & Hi & Hinit & _ & HT & Hcfg & Href & _ & _ & _ & Hen).
  destruct (ion0_referenceValues_OK _ _ H) as (i' & Hi' & Hpb & ->).
  same_attrs. unfold same_config in Hcfg. simpl in Hcfg.
  destruct Hcfg as (C1 & C2 & C3 & C4 & C5 & C6 & C7 & C8 & C9 & C10 & C11 & C12 & C13 & C14).
  unfold initialised. simpl.
  repeat match goal with |- _ /\ _ => split end; try assumption.
  - rewrite C14, C4. destruct (arg_use_gammas_ref a); reflexivity.
  - rewrite C4. simpl in Hen. intros Hg. rewrite Hg in Hen.
    destruct (load_ion_energy_OK _ _ Hen) as (? & ? & ? & ? & en & _ & _ & _ & _ & Hs & _).
    rewrite Hs. simpl. discriminate.
  - eexists. split; [reflexivity |].
    apply (ion_initialised_config x0); [repeat split; assumption |].
    destruct (account_for_SPS_transmission x0); simpl; [assumption |].
    apply ion_initialised_SPS_transmission; [right; reflexivity | assumption].
  - eexists. split; [| reflexivity].
    destruct (account_for_SPS_transmission x0); simpl; [left; assumption | right; reflexivity].
Qed.

(** Every method keeps [initialised]. *)
Lemma reachable_initialised (read_csv : string -> result (EnergyTable num)) (a : Args num) self :
  reachable read_csv a self -> initialised a self.
Proof.
  induction 1 as [self H | self n self' _ IH H | self self' _ IH H
                 | self self' _ IH H | self self' _ IH H | self self' _ IH H
                 | self self' _ IH H].
  - apply (init_initialised read_csv); assumption.
  - destruct (init_ion_OK _ _ _ H)
      as (i & Hi & Hinit & _ & HT & Hcfg & Href & _ & _ & _ & Hen).
    pose proof Hcfg as (C1 & C2 & C3 & C4 & C5 & C6 & C7 & C8 & C9 & C10 & C11 & C12 & C13 & C14).
    destruct IH as (I1 & I2 & I3 & I4 & I5 & I6 & I7 & I8 & I9 & I10 & I11 & _ & I13).
    unfold initialised.
    repeat match goal with |- _ /\ _ => split end; try congruence.
    + intros Hg. rewrite C4 in Hg. rewrite Hg in Hen.
      destruct (load_ion_energy_OK _ _ Hen) as (? & ? & ? & ? & en & _ & _ & _ & _ & Hs & _).
      rewrite Hs. simpl. discriminate.
    + exists i. split; assumption.
    + destruct I13 as (T & HTT & HR). exists T. split; [assumption | congruence].
  - destruct (load_ion_energy_OK _ _ H) as (? & ? & ? & ? & en & _ & _ & _ & _ & -> & _).
    destruct IH as (I1 & I2 & I3 & I4 & I5 & I6 & I7 & I8 & I9 & I10 & I11 & I12 & I13).
    unfold initialised. simpl.
    repeat match goal with |- _ /\ _ => split end; try assumption.
    discriminate.
  - destruct (ion0_referenceValues_OK _ _ H) as (i & Hi & Hpb & ->).
    destruct IH as (I1 & I2 & I3 & I4 & I5 & I6 & I7 & I8 & I9 & I10 & I11 & I12 & I13).
    destruct I12 as (i' & Hi' & Hinit). same_attrs.
    unfold initialised. simpl.
    repeat match goal with |- _ /\ _ => split end; try assumption.
    + eexists. split; [reflexivity |].
      apply (ion_initialised_config self); [repeat split |].
      destruct (account_for_SPS_transmission self); simpl; [assumption |].
      apply ion_initialised_SPS_transmission; [right; reflexivity | assumption].
    + eexists. split; [| reflexivity].
      destruct (account_for_SPS_transmission self); simpl; [| right; reflexivity].
      apply Hinit.
  - destruct (leir_OK _ _ H) as (? & ? & l & _ & _ & -> & _). exact IH.
  - destruct (ps_OK _ _ H) as (? & ? & p & _ & _ & -> & _). exact IH.
  - destruct (sps_OK _ _ H) as (? & ? & s & _ & _ & -> & _). exact IH.
Qed.

(** *** The reference initializer *)

(** On an object whose ion is initialised, [ion0_referenceValues] succeeds
    when the reference is Pb. *)
Lemma ion0_referenceValues_Pb self i :
  ion self = Some i -> ion_type_ref self = "Pb" ->
  let i' := if negb (account_for_SPS_transmission self)
            then set_SPS_transmission i (ndec 10 (-1)) else i in
  ion0_referenceValues self
  = OK (set_reference (set_ion self i') (Pb_reference (SPS_transmission i'))).
Proof.
  intros Hi Hpb. unfold ion0_referenceValues. rewrite Hpb, Hi. simpl.
  destruct (account_for_SPS_transmission self); reflexivity.
Qed.

Lemma ion0_referenceValues_not_Pb self :
  ion_type_ref self <> "Pb" ->
  ion0_referenceValues self
  = Raise (ValueError "Other reference ion type than Pb does not yet exist!").
Proof.
  intros Hpb. unfold ion0_referenceValues.
  destruct (String.eqb (ion_type_ref self) "Pb") eqn:E; [| reflexivity].
  apply String.eqb_eq in E. contradiction.
Qed.

(** C7: [ion0_referenceValues] raises if and only if the reference species
    is not 'Pb'; then the constructor returns no object; and for 'Pb' it
    succeeds and assigns every reference constant, the values of
    [Pb_reference], with the SPS bunch intensity adjusted for the SPS
    transmission of the object (1.0 when the transmission is not accounted
    for). *)
Theorem ion0_referenceValues_raises_iff_not_Pb
    (read_csv : string -> result (EnergyTable num)) self i :
  ion self = Some i ->
  ((exists err, ion0_referenceValues self = Raise err) <-> ion_type_ref self <> "Pb") /\
  (ion_type_ref self = "Pb" ->
   exists self',
     ion0_referenceValues self = OK self' /\
     reference self'
     = Some (Pb_reference (if account_for_SPS_transmission self
                           then SPS_transmission i else ndec 10 (-1)))) /\
  (forall a : Args num,
     arg_ion_type_ref a <> "Pb" -> exists err, __init__ read_csv a = Raise err).
Proof.
  intros Hi. split; [split |]; [| | split].
  - intros [err Herr] Hpb.
    rewrite (ion0_referenceValues_Pb self i Hi Hpb) in Herr. discriminate Herr.
  - intros Hpb. eexists. apply ion0_referenceValues_not_Pb. exact Hpb.
  - intros Hpb. eexists. split; [apply (ion0_referenceValues_Pb self i Hi Hpb) |].
    simpl. destruct (account_for_SPS_transmission self); reflexivity.
  - intros a Hpb.
    destruct (__init__ read_csv a) as [s | err] eqn:E; [| eexists; reflexivity].
    exfalso. unfold __init__ in E. inv_ok.
    destruct (ion0_referenceValues_OK _ _ E) as (? & _ & Hp & _).
    match goal with
    | H : init_ion _ _ = OK _ |- _ =>
        destruct (init_ion_OK _ _ _ H) as (? & _ & _ & _ & _ & Hcfg & _)
    end.
    destruct Hcfg as (_ & _ & _ & _ & _ & _ & _ & _ & _ & _ & _ & C12 & _).
    simpl in C12. apply Hpb. congruence.
Qed.

(** The object the constructor returns has the SPS transmission 0.62, or 1.0
    when the transmission is not accounted for, and the reference bunch
    intensity of the SPS is adjusted for that transmission. *)
Lemma constructor_SPS_transmission
    (read_csv : string -> result (EnergyTable num)) (a : Args num) self :
  __init__ read_csv a = OK self ->
  exists i,
    ion self = Some i /\
    SPS_transmission i = (if arg_account_for_SPS_transmission a
                          then ndec 62 (-2) else ndec 10 (-1)) /\
    reference self = Some (Pb_reference (SPS_transmission i)).
Proof.
  unfold __init__. intros H. inv_ok.
  destruct (ion0_referenceValues_OK _ _ H) as (i & Hi & _ & ->).
  match goal with
  | Hinit : init_ion _ _ = OK _ |- _ =>
      destruct (init_ion_OK _ _ _ Hinit) as (i' & Hi' & _ & _ & HT & Hc & _)
  end.
  same_attrs.
  destruct Hc as (_ & _ & _ & _ & _ & _ & -> & _). simpl.
  destruct (arg_account_for_SPS_transmission a); simpl;
    eexists; (split; [reflexivity |]); split; try reflexivity; try assumption;
    rewrite HT; reflexivity.
Qed.

(** *** Pulses and stripping *)


(** C4: the result has the key of the LEIR-PS stripping efficiency exactly
    when LEIR-PS stripping is configured; and the intensity injected into
    the SPS is the PS intensity times 1.0 (the transmission efficiency) when
    the ion is fully stripped already ([Z == Q]) or LEIR-PS stripping is
    configured, and times 0.9 (the PS-SPS stripping efficiency) otherwise. *)
Theorem early_strip_toggle (read_csv : string -> result (EnergyTable num))
    (a : Args num) self res self' :
  reachable read_csv a self ->
  calculate_LHC_bunch_intensity self = OK (res, self') ->
  exists i spaceChargeLimitPS ionsPerBunchExtractedPS,
    ion self = Some i /\
    dict_get res "LEIR_PS_strippingEfficiency"
    = (if LEIR_PS_strip self
       then Some (VFloat (LEIR_PS_stripping_efficiency i)) else None) /\
    dict_get res "PS_space_charge_limit" = Some (VFloat spaceChargeLimitPS) /\
    dict_get res "PS_ionsExtractedPerBunch" = Some (VFloat ionsPerBunchExtractedPS) /\
    let ionsPerBunchPS :=
      if consider_PS_space_charge_limit self
      then py_min spaceChargeLimitPS ionsPerBunchExtractedPS
      else ionsPerBunchExtractedPS in
    dict_get res "SPS_maxIntensityPerBunch"
    = Some (VFloat (ionsPerBunchPS
                    * (if neqb (ion_Z i) (ion_Q i) || LEIR_PS_strip self
                       then ndec 10 (-1) else ndec 9 (-1)))).
Proof.
  intros Hreach H.
  destruct (reachable_initialised read_csv a self Hreach)
    as (_ & _ & _ & _ & _ & _ & _ & _ & _ & _ & _ & (i & Hi & Hinit) & _).
  destruct Hinit as (_ & _ & _ & _ & _ & _ & _ & _ & _ & _ & _ & Ht & _ & Hs & _).
  calc_inv H. inv_ok.
  rewrite Ht, Hs. cbv zeta.
  destruct (LEIR_PS_strip self); do 3 eexists; repeat split; reflexivity.
Qed.

(** *** Batch mode: one iteration *)

(** [calculate_LHC_bunch_intensity] reads the attributes the constructor
    assigned, the ion, the reference values and, when they are used, the
    precomputed gammas; it reads no stage attribute a former call left.
    The name of the ion only goes into the entry "Ion" of the result. *)
Lemma calculate_agree self self' i n :
  same_config self self' ->
  ion self = Some i -> ion self' = Some (set_ion_type i n) ->
  reference self' = reference self ->
  (use_gammas_ref self = true -> energy self' = energy self) ->
  match calculate_LHC_bunch_intensity self with
  | OK (res, _) =>
      exists st, calculate_LHC_bunch_intensity self'
                 = OK (dict_set res "Ion" (VStr n), st)
  | Raise err => calculate_LHC_bunch_intensity self' = Raise err
  end.
Proof.
  intros Hc Hi Hi' Hr He.
  destruct self, self'. unfold same_config in Hc. simpl in *.
  destruct Hc as (-> & -> & -> & -> & -> & -> & -> & -> & -> & -> & -> & -> & -> & ->).
  subst.
  unfold calculate_LHC_bunch_intensity, simulate_injection_SpaceCharge_limit,
    leir, ps, sps, linearIntensityLimit.
  simpl.
  destruct use_gammas_ref0.
  - rewrite (He eq_refl). destruct energy0; simpl; [| reflexivity].
    destruct reference0; simpl; [| reflexivity].
    destruct (nPulsesLEIR0 =? 0)%Z; simpl;
      repeat match goal with
        | |- context [bind ?m _] =>
            lazymatch m with
            | nceil _ => destruct m
            | ntrunc _ => destruct m
            end; simpl
        end;
      try reflexivity;
      destruct LEIR_PS_strip0; simpl; eexists; reflexivity.
  - destruct reference0; simpl; [| reflexivity].
    destruct use_Roderiks_gamma0; simpl;
      (destruct (nPulsesLEIR0 =? 0)%Z; simpl;
       repeat match goal with
         | |- context [bind ?m _] =>
             lazymatch m with
             | nceil _ => destruct m
             | ntrunc _ => destruct m
             end; simpl
         end;
       try reflexivity;
       destruct LEIR_PS_strip0; simpl; eexists; reflexivity).
Qed.

(** The entry "Ion" of a result is the name of the ion. *)
Lemma calculate_Ion self res self' :
  calculate_LHC_bunch_intensity self = OK (res, self') ->
  exists i, ion self = Some i /\ dict_set res "Ion" (VStr (ion_type i)) = res.
Proof.
  intros H. calc_inv H. eexists. split; [reflexivity |].
  destruct (LEIR_PS_strip self); reflexivity.
Qed.

Lemma set_ion_type_same i : set_ion_type i (ion_type i) = i.
Proof. destruct i; reflexivity. Qed.

(** [init_ion] reads the attributes the constructor assigned and nothing
    else: on two objects that agree on them it assigns the same
    attributes. *)
Lemma init_ion_agree self self' n self1 :
  same_config self self' ->
  init_ion self n = OK self1 ->
  exists self1',
    init_ion self' n = OK self1' /\
    same_config self1 self1' /\
    ion self1' = ion self1 /\
    (use_gammas_ref self = true -> energy self1' = energy self1) /\
    reference self1 = reference self /\ reference self1' = reference self'.
Proof.
  intros Hc H.
  destruct self, self'. unfold same_config in Hc. simpl in *.
  destruct Hc as (-> & -> & -> & -> & -> & -> & -> & -> & -> & -> & -> & -> & -> & ->).
  revert H. unfold init_ion, load_ion_energy. simpl.
  destruct (column full_ion_data0 n) as [d | err]; simpl; [| discriminate].
  destruct use_gammas_ref0; simpl.
  - destruct (ntrunc (row_Q_before_stripping d)); simpl; [| discriminate].
    destruct (ntrunc (row_A d)); simpl; [| discriminate].
    destruct (loc ion_energy_data0 _); simpl; [| discriminate].
    intros H; injection H as <-. eexists. split; [reflexivity |].
    repeat split.
  - intros H; injection H as <-. eexists. split; [reflexivity |].
    repeat split. discriminate.
Qed.

(** The result of an iteration does not depend on what former iterations
    left in the object. *)
Lemma row_result_agree self self' n res :
  same_config self self' -> reference self' = reference self ->
  row_result self n res -> row_result self' n res.
Proof.
  intros Hc Hr (self1 & self2 & Hinit & Hcalc).
  destruct (init_ion_agree _ _ _ _ Hc Hinit)
    as (self1' & Hinit' & Hc1 & Hi1 & He1 & Hr1 & Hr1').
  destruct (calculate_Ion _ _ _ Hcalc) as (i & Hi & Hset).
  pose proof (calculate_agree self1 self1' i (ion_type i) Hc1 Hi) as Hag.
  rewrite set_ion_type_same, Hcalc, Hset in Hag.
  destruct Hag as [st Hst].
  - congruence.
  - congruence.
  - destruct Hc as (_ & _ & _ & Hg & _).
    destruct (init_ion_OK _ _ _ Hinit) as (_ & _ & _ & _ & _ & Hc0 & _).
    destruct Hc0 as (_ & _ & _ & Hg0 & _). intros Hu. apply He1. congruence.
  - exists self1', st. split; assumption.
Qed.

(** *** Batch mode: the loop *)

Lemma same_config_sym self self' : same_config self self' -> same_config self' self.
Proof. unfold same_config. intuition congruence. Qed.

(** [calculate_LHC_bunch_intensity] assigns stage attributes only. *)
Lemma calculate_frame self res self' :
  calculate_LHC_bunch_intensity self = OK (res, self') ->
  same_config self self' /\ reference self' = reference self /\
  ion self' = ion self /\ energy self' = energy self.
Proof.
  unfold calculate_LHC_bunch_intensity. intros H. inv_ok.
  match goal with
  | E : simulate_injection_SpaceCharge_limit _ = OK _ |- _ =>
      destruct (simulate_OK _ _ E) as (l & p & s & _ & _ & _ & ->)
  end.
  repeat split.
Qed.

(** The keys of a result, in order. *)
Lemma calculate_keys self res self' :
  calculate_LHC_bunch_intensity self = OK (res, self') ->
  keys res = (result_keys
              ++ (if LEIR_PS_strip self then ["LEIR_PS_strippingEfficiency"] else []))%list.
Proof.
  intros H. calc_inv H. destruct (LEIR_PS_strip self); reflexivity.
Qed.

Lemma result_keys_NoDup (b : bool) :
  NoDup (result_keys ++ (if b then ["LEIR_PS_strippingEfficiency"] else []))%list.
Proof.
  destruct b; unfold result_keys; simpl;
    repeat (constructor; [simpl; intuition discriminate |]); constructor.
Qed.

(** What a successful run of the loop did: one result per ion, each the
    result of an iteration on the object the loop started from. *)
Lemma all_ion_species_loop_OK (ion_types : list string) :
  forall self full_result full_result' self',
  all_ion_species_loop self ion_types full_result = OK (full_result', self') ->
  exists results,
    Forall2 (row_result self) ion_types results /\
    full_result' = fold_left append_items results full_result /\
    same_config self self' /\ reference self' = reference self.
Proof.
  induction ion_types as [| n rest IH]; intros self acc acc' self' H; simpl in H.
  - inv_ok. exists []. repeat split. constructor.
  - inv_ok.
    match goal with
    | Hinit : init_ion self n = OK ?s1,
      Hcalc : calculate_LHC_bunch_intensity ?s1 = OK (?res, ?self2),
      Hloop : all_ion_species_loop ?self2 rest _ = OK _ |- _ =>
        destruct (init_ion_OK _ _ _ Hinit) as (i0 & _ & _ & _ & _ & Hc1 & Hr1 & _);
        destruct (calculate_frame _ _ _ Hcalc) as (Hc2 & Hr2 & _);
        pose proof (same_config_trans _ _ _ Hc1 Hc2) as Hc;
        assert (Hr : reference self2 = reference self) by congruence;
        assert (Hrow : row_result self n res) by (exists s1, self2; split; assumption);
        destruct (IH _ _ _ _ Hloop) as (results & Hall & -> & Hc' & Hr');
        exists (res :: results); split; [| split; [reflexivity | split]];
        [ constructor; [exact Hrow |];
          eapply Forall2_impl; [| exact Hall]; intros n' res' Hrow';
          apply (row_result_agree self2 self);
          [apply same_config_sym; exact Hc | congruence | exact Hrow']
        | apply (same_config_trans _ _ _ Hc Hc')
        | congruence ]
    end.
Qed.

(** *** Batch mode: rows of the result *)

(** A column of the ion table that [column] finds is the one at any index
    that carries the label. *)
Lemma column_nth_error (t : IonTable num) n name d d' :
  nth_error t n = Some (name, d) -> column t name = OK d' -> d' = d.
Proof.
  intros Hn Hc. apply nth_error_In in Hn.
  assert (Hin : In (name, d) (filter (fun c => String.eqb (fst c) name) t)).
  { apply filter_In. split; [exact Hn | apply String.eqb_refl]. }
  unfold column in Hc.
  destruct (filter (fun c => String.eqb (fst c) name) t) as [| c [| c' l]];
    try discriminate.
  injection Hc as <-. destruct Hin as [-> | []]. reflexivity.
Qed.

(** The result of an iteration has the name of its ion under "Ion", and
    the keys of every result of the batch. *)
Lemma row_result_Ion self n res :
  row_result self n res ->
  dict_get res "Ion" = Some (VStr n) /\
  keys res = (result_keys
              ++ (if LEIR_PS_strip self then ["LEIR_PS_strippingEfficiency"] else []))%list.
Proof.
  intros (self1 & self2 & Hinit & Hcalc).
  destruct (init_ion_OK _ _ _ Hinit) as (i & Hi & _ & Hn & _ & Hc & _).
  destruct (calculate_Ion _ _ _ Hcalc) as (i' & Hi' & Hset). same_attrs.
  split.
  - rewrite <- Hset, Hn. apply dict_get_set_same.
  - rewrite (calculate_keys _ _ _ Hcalc).
    destruct Hc as (_ & -> & _). reflexivity.
Qed.

(** Two ions with one column of properties and, when precomputed gammas are
    used, one row of gammas: [init_ion] assigns the same attributes but the
    name. *)
Lemma init_ion_rename self n1 n2 self1 self2 d :
  init_ion self n1 = OK self1 -> init_ion self n2 = OK self2 ->
  column (full_ion_data self) n1 = OK d -> column (full_ion_data self) n2 = OK d ->
  (use_gammas_ref self = true ->
   forall q a, ntrunc (row_Q_before_stripping d) = OK q -> ntrunc (row_A d) = OK a ->
               loc (ion_energy_data self) (str q ++ n1 ++ str a)
               = loc (ion_energy_data self) (str q ++ n2 ++ str a)) ->
  exists i,
    ion self1 = Some i /\ ion self2 = Some (set_ion_type i n2) /\
    same_config self1 self2 /\ reference self2 = reference self1 /\
    (use_gammas_ref self1 = true -> energy self2 = energy self1).
Proof.
  unfold init_ion, load_ion_energy. intros H1 H2 Hd1 Hd2 Hloc.
  rewrite Hd1 in H1. rewrite Hd2 in H2. simpl in H1, H2.
  destruct (use_gammas_ref self) eqn:Hg.
  - destruct (ntrunc (row_Q_before_stripping d)) as [q |] eqn:Hq; simpl in *;
      [| discriminate].
    destruct (ntrunc (row_A d)) as [a |] eqn:Ha; simpl in *; [| discriminate].
    rewrite <- (Hloc eq_refl q a eq_refl eq_refl) in H2.
    destruct (loc (ion_energy_data self) (str q ++ n1 ++ str a)) as [row |];
      simpl in *; [| discriminate].
    injection H1 as <-. injection H2 as <-.
    eexists. split; [reflexivity |]. repeat split.
  - injection H1 as <-. injection H2 as <-.
    eexists. split; [reflexivity |]. repeat split.
Qed.

(** The results of two such ions are the same but for the name. *)
Lemma row_result_rename self n1 n2 res1 res2 d :
  row_result self n1 res1 -> row_result self n2 res2 ->
  column (full_ion_data self) n1 = OK d -> column (full_ion_data self) n2 = OK d ->
  (use_gammas_ref self = true ->
   forall q a, ntrunc (row_Q_before_stripping d) = OK q -> ntrunc (row_A d) = OK a ->
               loc (ion_energy_data self) (str q ++ n1 ++ str a)
               = loc (ion_energy_data self) (str q ++ n2 ++ str a)) ->
  res2 = dict_set res1 "Ion" (VStr n2).
Proof.
  intros (s1 & s1' & Hinit1 & Hcalc1) (s2 & s2' & Hinit2 & Hcalc2) Hd1 Hd2 Hloc.
  destruct (init_ion_rename _ _ _ _ _ _ Hinit1 Hinit2 Hd1 Hd2 Hloc)
    as (i & Hi1 & Hi2 & Hc & Hr & He).
  pose proof (calculate_agree s1 s2 i n2 Hc Hi1 Hi2 Hr He) as Hag.
  rewrite Hcalc1 in Hag. destruct Hag as [st Hst]. congruence.
Qed.

(** Every iteration of batch mode computes with an SPS transmission of 0.62,
    whatever [account_for_SPS_transmission] is: [init_ion] assigns it anew,
    and [ion0_referenceValues] is not called again. *)
Lemma row_result_SPS_transmission self n res :
  row_result self n res ->
  dict_get res "SPS_transmission" = Some (VFloat (ndec 62 (-2))) /\
  exists acc,
    dict_get res "SPS_accIntensity" = Some (VFloat acc) /\
    dict_get res "LHC_ionsPerBunch"
    = Some (VFloat (acc * ndec 62 (-2) * ndec 10 (-1))).
Proof.
  intros (self1 & self2 & Hinit & Hcalc).
  destruct (init_ion_OK _ _ _ Hinit) as (i & Hi & Hini & _ & HT & _).
  destruct Hini as (_ & _ & _ & _ & _ & _ & _ & _ & _ & _ & _ & _ & _ & _ & HS & _).
  calc_inv Hcalc. inv_ok. rewrite HT, HS.
  destruct (LEIR_PS_strip self1); (split; [reflexivity |]);
    eexists; split; reflexivity.
Qed.

(** The columns batch mode collects, from its results. *)
Lemma batch_columns self full_result self' :
  all_ion_species_loop self (columns (full_ion_data self)) [] = OK (full_result, self') ->
  full_ion_data self <> [] ->
  exists results ks,
    Forall2 (row_result self) (columns (full_ion_data self)) results /\
    ks = (result_keys
          ++ (if LEIR_PS_strip self then ["LEIR_PS_strippingEfficiency"] else []))%list /\
    Forall (fun d => keys d = ks) results /\
    full_result = transpose ks results.
Proof.
  intros H Hne.
  destruct (all_ion_species_loop_OK _ _ _ _ _ H) as (results & Hall & -> & _).
  exists results. eexists. split; [exact Hall |]. split; [reflexivity |].
  assert (Hkeys : Forall (fun d => keys d
            = (result_keys ++ (if LEIR_PS_strip self
                               then ["LEIR_PS_strippingEfficiency"] else []))%list)
            results).
  { clear H Hne. induction Hall as [| n res ns ress Hrow _ IH]; constructor.
    - apply (row_result_Ion _ _ _ Hrow).
    - exact IH. }
  split; [exact Hkeys |].
  destruct results as [| d0 rest].
  - inversion Hall as [Hnil |]. destruct (full_ion_data self); [congruence | discriminate].
  - inversion Hkeys as [| ? ? Hd0 Hrest]; subst.
    rewrite <- Hd0. apply fold_append_items_nil.
    + rewrite Hd0. apply result_keys_NoDup.
    + rewrite Hd0. exact Hrest.
Qed.

(** The column "Ion" lists the ions in the order of the iterations. *)
Lemma Ion_column self names results :
  Forall2 (row_result self) names results ->
  flat_map (fun d => cell d "Ion") results = map (fun n => VStr n) names.
Proof.
  induction 1 as [| n res ns ress Hrow _ IH]; simpl; [reflexivity |].
  destruct (row_result_Ion _ _ _ Hrow) as [Hget _].
  unfold cell at 1. rewrite Hget. simpl. f_equal. exact IH.
Qed.

(** C9, as amended: whenever batch mode returns a table for an ion table
    with N columns, the table has one record per ion, N in all, in the order
    of the ion table; and two ions with identical property values (and, when
    the precomputed gammas are used, identical rows of gammas) have records
    that agree in every cell: nothing a former iteration computed goes into
    a record. *)
Theorem batch_records self df self' :
  calculate_LHC_bunch_intensity_all_ion_species self = OK (df, self') ->
  df_index df = map (fun n => VStr n) (columns (full_ion_data self)) /\
  Forall (fun c => List.length (snd c) = List.length (full_ion_data self)) (df_columns df) /\
  forall n1 n2 name1 name2 d,
    nth_error (full_ion_data self) n1 = Some (name1, d) ->
    nth_error (full_ion_data self) n2 = Some (name2, d) ->
    (use_gammas_ref self = true ->
     forall q a, ntrunc (row_Q_before_stripping d) = OK q -> ntrunc (row_A d) = OK a ->
                 loc (ion_energy_data self) (str q ++ name1 ++ str a)
                 = loc (ion_energy_data self) (str q ++ name2 ++ str a)) ->
    snd (df_row df n1) = snd (df_row df n2).
Proof.
  unfold calculate_LHC_bunch_intensity_all_ion_species. intros H. inv_ok.
  match goal with
  | Hloop : all_ion_species_loop _ _ _ = OK _, Hdf : DataFrame_set_index _ _ = OK _ |- _ =>
      rename Hloop into HL; rename Hdf into HD
  end.
  assert (Hne : full_ion_data self <> []).
  { intros Hnil. rewrite Hnil in HL. simpl in HL. inv_ok. simpl in HD. discriminate HD. }
  destruct (batch_columns _ _ _ HL Hne) as (results & ks & Hall & Hks & Hkeys & ->).
  destruct (DataFrame_set_index_OK _ _ _ HD) as (col & Hcol & Hidx & Hcols).
  assert (Hnd : NoDup ks) by (rewrite Hks; apply result_keys_NoDup).
  assert (Hion : In "Ion" ks).
  { rewrite Hks. apply in_or_app. left. unfold result_keys. simpl. tauto. }
  assert (Hlen : List.length results = List.length (full_ion_data self)).
  { rewrite <- (Forall2_length Hall). unfold columns. apply length_map. }
  assert (Hhas : forall k, In k ks -> Forall (fun d => In k (keys d)) results).
  { intros k Hk. eapply Forall_impl; [| exact Hkeys]. simpl. intros d ->. exact Hk. }
  rewrite (dict_get_transpose ks results "Ion" Hion) in Hcol. injection Hcol as <-.
  split; [| split].
  - rewrite Hidx. apply (Ion_column self). exact Hall.
  - rewrite Hcols. apply Forall_forall. intros c Hc.
    apply filter_In in Hc. destruct Hc as [Hc _].
    unfold transpose in Hc. apply in_map_iff in Hc. destruct Hc as (k & <- & Hk).
    simpl. rewrite length_column by (apply Hhas; exact Hk). exact Hlen.
  - intros n1 n2 name1 name2 d Hn1 Hn2 Hloc.
    unfold df_row. simpl. rewrite Hcols.
    apply map_ext_in. intros c Hc.
    apply filter_In in Hc. destruct Hc as [Hc Hnot].
    unfold transpose in Hc. apply in_map_iff in Hc. destruct Hc as (k & <- & Hk).
    simpl in *. f_equal.
    rewrite !nth_error_column by (apply Hhas; exact Hk).
    assert (Hcol1 : nth_error (columns (full_ion_data self)) n1 = Some name1).
    { unfold columns. rewrite nth_error_map, Hn1. reflexivity. }
    assert (Hcol2 : nth_error (columns (full_ion_data self)) n2 = Some name2).
    { unfold columns. rewrite nth_error_map, Hn2. reflexivity. }
    destruct (Forall2_nth_error _ _ _ Hall _ _ Hcol1) as (res1 & -> & Hrow1).
    destruct (Forall2_nth_error _ _ _ Hall _ _ Hcol2) as (res2 & -> & Hrow2).
    assert (Hd1 : column (full_ion_data self) name1 = OK d).
    { destruct Hrow1 as (s1 & _ & Hinit & _). unfold init_ion in Hinit.
      destruct (column (full_ion_data self) name1) as [d' |] eqn:E; [| discriminate].
      f_equal. apply (column_nth_error _ _ _ _ _ Hn1 E). }
    assert (Hd2 : column (full_ion_data self) name2 = OK d).
    { destruct Hrow2 as (s2 & _ & Hinit & _). unfold init_ion in Hinit.
      destruct (column (full_ion_data self) name2) as [d' |] eqn:E; [| discriminate].
      f_equal. apply (column_nth_error _ _ _ _ _ Hn2 E). }
    rewrite (row_result_rename _ _ _ _ _ _ Hrow1 Hrow2 Hd1 Hd2 Hloc).
    symmetry. apply dict_get_set_other.
    intros ->. rewrite String.eqb_refl in Hnot. discriminate Hnot.
Qed.

End Aggregator.

(** * The chain in IEEE 754 binary64 *)

Section Binary64.

Lemma example_object_constructed :
  __init__ no_energies64 example_args64 = OK example_object64.
Proof. vm_compute. reflexivity. Qed.

Lemma auto_object_constructed :
  __init__ no_energies64 auto_args64 = OK auto_object64.
Proof. vm_compute. reflexivity. Qed.

Lemma twin_object_constructed :
  __init__ (num := PrimFloat.float) twin_energies twin_args64 = OK twin_object64.
Proof. vm_compute. reflexivity. Qed.



Lemma recomputed_limits_witness :
  exists res self',
    calculate_LHC_bunch_intensity example_object64
    = OK (res, self') /\
    simulate_injection_SpaceCharge_limit example_object64 = OK self' /\
    exists l s,
      leir_out self' = Some l /\ sps_out self' = Some s /\
      dict_get res "LEIR_space_charge_limit" = Some (VFloat (Nb_LEIR_extr l)) /\
      dict_get res "SPS_spaceChargeLimit" = Some (VFloat (Nb_SPS_extr s)).
Proof.
  destruct (calculate_LHC_bunch_intensity example_object64)
    as [[res self'] | err] eqn:E; [| vm_compute in E; discriminate E].
  exists res, self'. split; [reflexivity |].
  exact (recomputed_limits_are_stage_intensities example_object64 res self' E).
Defined.


Lemma early_strip_toggle_witness :
  exists (res : dict (value PrimFloat.float)) self' i
         spaceChargeLimitPS ionsPerBunchExtractedPS,
    reachable no_energies64 auto_args64 auto_object64 /\
    calculate_LHC_bunch_intensity auto_object64 = OK (res, self') /\
    ion auto_object64 = Some i /\
    dict_get res "LEIR_PS_strippingEfficiency"
    = (if LEIR_PS_strip auto_object64
       then Some (VFloat (LEIR_PS_stripping_efficiency i)) else None) /\
    dict_get res "PS_space_charge_limit" = Some (VFloat spaceChargeLimitPS) /\
    dict_get res "PS_ionsExtractedPerBunch" = Some (VFloat ionsPerBunchExtractedPS) /\
    dict_get res "SPS_maxIntensityPerBunch"
    = Some (VFloat (nmul (if consider_PS_space_charge_limit auto_object64
                          then py_min spaceChargeLimitPS ionsPerBunchExtractedPS
                          else ionsPerBunchExtractedPS)
                         (if neqb (ion_Z i) (ion_Q i) || LEIR_PS_strip auto_object64
                          then ndec 10 (-1) else ndec 9 (-1)))).
Proof.
  assert (Hreach : reachable no_energies64 auto_args64 auto_object64)
    by (apply reach_init; vm_compute; reflexivity).
  destruct (calculate_LHC_bunch_intensity auto_object64)
    as [[res self'] | err] eqn:E; [| vm_compute in E; discriminate E].
  destruct (early_strip_toggle no_energies64 auto_args64 auto_object64 res self' Hreach E)
    as (i & scl & ext & H).
  exists res, self', i, scl, ext. split; [exact Hreach |]. split; [reflexivity | exact H].
Defined.

Lemma ion0_referenceValues_witness :
  exists i,
    ion example_object64 = Some i /\
    ((exists err, ion0_referenceValues example_object64 = Raise err)
     <-> ion_type_ref example_object64 <> "Pb") /\
    (ion_type_ref example_object64 = "Pb" ->
     exists self',
       ion0_referenceValues example_object64 = OK self' /\
       reference self'
       = Some (Pb_reference (if account_for_SPS_transmission example_object64
                             then SPS_transmission i else ndec 10 (-1)))) /\
    (forall a : Args PrimFloat.float,
       arg_ion_type_ref a <> "Pb" -> exists err, __init__ no_energies64 a = Raise err).
Proof.
  destruct (ion example_object64) as [i |] eqn:Hi;
    [| vm_compute in Hi; discriminate Hi].
  exists i. split; [reflexivity |].
  exact (ion0_referenceValues_raises_iff_not_Pb no_energies64 example_object64 i Hi).
Defined.

Lemma batch_records_witness :
  exists df self',
    calculate_LHC_bunch_intensity_all_ion_species
      example_object64 = OK (df, self') /\
    df_index df = map (fun n => VStr n) (columns (full_ion_data example_object64)) /\
    Forall (fun c => List.length (snd c) = List.length (full_ion_data example_object64))
      (df_columns df) /\
    forall n1 n2 name1 name2 d,
      nth_error (full_ion_data example_object64) n1 = Some (name1, d) ->
      nth_error (full_ion_data example_object64) n2 = Some (name2, d) ->
      (use_gammas_ref example_object64 = true ->
       forall q a, ntrunc (row_Q_before_stripping d) = OK q -> ntrunc (row_A d) = OK a ->
                   loc (ion_energy_data example_object64) (str q ++ name1 ++ str a)
                   = loc (ion_energy_data example_object64) (str q ++ name2 ++ str a)) ->
      snd (df_row df n1) = snd (df_row df n2).
Proof.
  destruct (calculate_LHC_bunch_intensity_all_ion_species
              example_object64)
    as [[df self'] | err] eqn:E; [| vm_compute in E; discriminate E].
  exists df, self'. split; [reflexivity |].
  exact (batch_records example_object64 df self' E).
Defined.

(** The claim C9 fails when the precomputed gammas are used: X1 and X2 have
    identical ion properties, but the file of gammas has different rows for
    them, and so have their records. *)
Lemma batch_records_counterexample :
  exists df self',
    calculate_LHC_bunch_intensity_all_ion_species
      twin_object64 = OK (df, self') /\
    nth_error (full_ion_data twin_object64) 0 = Some ("X1", Pb_data) /\
    nth_error (full_ion_data twin_object64) 1 = Some ("X2", Pb_data) /\
    snd (df_row df 0) <> snd (df_row df 1).
Proof.
  do 2 eexists. split; [vm_compute; reflexivity |].
  split; [reflexivity |]. split; [reflexivity |].
  intros H.
  apply (f_equal (fun row => match dict_get row "LEIR_gamma" with
                             | Some (Some (VFloat x)) => PrimFloat.eqb x (ndec 1005 (-3))
                             | _ => false
                             end)) in H.
  vm_compute in H. discriminate H.
Qed.

(** C6 at a failing input: the object is constructed with
    [account_for_SPS_transmission=False], so the reference intensity of the
    SPS is 2.21e8 / 1.0; but in batch mode every ion is computed with an SPS
    transmission of 0.62, which is also the factor between the accepted and
    the delivered intensity. *)
Theorem batch_resets_SPS_transmission :
  exists r df self' acc1 acc2,
    reference example_object_no_SPS_transmission64 = Some r /\
    Nb0_SPS_extr r = ndiv (ndec 221 6) (ndec 10 (-1)) /\
    calculate_LHC_bunch_intensity_all_ion_species example_object_no_SPS_transmission64
    = OK (df, self') /\
    dict_get (df_columns df) "SPS_transmission"
    = Some [VFloat (ndec 62 (-2)); VFloat (ndec 62 (-2))] /\
    nltb (num := PrimFloat.float) (ndec 62 (-2)) (ndec 10 (-1)) = true /\
    dict_get (df_columns df) "SPS_accIntensity" = Some [VFloat acc1; VFloat acc2] /\
    dict_get (df_columns df) "LHC_ionsPerBunch"
    = Some [VFloat (nmul (nmul acc1 (ndec 62 (-2))) (ndec 10 (-1)));
            VFloat (nmul (nmul acc2 (ndec 62 (-2))) (ndec 10 (-1)))].
Proof.
  do 5 eexists. split; [vm_compute; reflexivity |].
  split; [vm_compute; reflexivity |].
  split; [vm_compute; reflexivity |].
  split; [vm_compute; reflexivity |].
  split; [vm_compute; reflexivity |].
  split; [vm_compute; reflexivity |].
  vm_compute; reflexivity.
Qed.

(** ** NaN *)

Lemma is_nan_Prim2SF (x : PrimFloat.float) :
  FloatOps.Prim2SF x = SpecFloat.S754_nan -> PrimFloat.is_nan x = true.
Proof.
  intros H. unfold PrimFloat.is_nan. rewrite FloatAxioms.eqb_spec, H. reflexivity.
Qed.

Lemma Prim2SF_is_nan (x : PrimFloat.float) :
  PrimFloat.is_nan x = true -> FloatOps.Prim2SF x = SpecFloat.S754_nan.
Proof.
  unfold PrimFloat.is_nan. rewrite FloatAxioms.eqb_spec.
  destruct (FloatOps.Prim2SF x) as [s | s | | s m e]; try reflexivity;
    unfold SpecFloat.SFeqb, SpecFloat.SFcompare.
  - destruct s; discriminate.
  - destruct s; discriminate.
  - destruct s; rewrite Z.compare_refl; try rewrite Pos.compare_refl;
      try rewrite Pos.compare_cont_refl; simpl; try discriminate;
      rewrite ?Pos.compare_refl; discriminate.
Qed.

(** NaN is absorbing for multiplication and division. *)
Lemma mul_nan_l (x y : PrimFloat.float) :
  PrimFloat.is_nan x = true -> PrimFloat.is_nan (PrimFloat.mul x y) = true.
Proof.
  intros H. apply is_nan_Prim2SF. rewrite FloatAxioms.mul_spec.
  rewrite (Prim2SF_is_nan x H). reflexivity.
Qed.

Lemma mul_nan_r (x y : PrimFloat.float) :
  PrimFloat.is_nan y = true -> PrimFloat.is_nan (PrimFloat.mul x y) = true.
Proof.
  intros H. apply is_nan_Prim2SF. rewrite FloatAxioms.mul_spec.
  rewrite (Prim2SF_is_nan y H). destruct (FloatOps.Prim2SF x); reflexivity.
Qed.

Lemma div_nan_l (x y : PrimFloat.float) :
  PrimFloat.is_nan x = true -> PrimFloat.is_nan (PrimFloat.div x y) = true.
Proof.
  intros H. apply is_nan_Prim2SF. rewrite FloatAxioms.div_spec.
  rewrite (Prim2SF_is_nan x H). reflexivity.
Qed.






End Binary64.

(** * The chain over the real numbers *)

Section Reals.
Local Open Scope R_scope.

Lemma py_min_Rmin (a b : R) : py_min a b = Rmin a b.
Proof.
  unfold py_min, Rmin. simpl.
  destruct (Rlt_dec b a), (Rle_dec a b); lra.
Qed.

Lemma np_min_Rmin (a b : R) : np_min a b = Rmin a b.
Proof. unfold np_min. simpl. apply py_min_Rmin. Qed.

Lemma pow2_nonneg (x : R) : 0 <= pow2 x.
Proof. unfold pow2. simpl. nra. Qed.

Lemma beta_nonneg (g : R) : 0 <= beta g.
Proof. unfold beta. simpl. apply sqrt_pos. Qed.

Lemma div_nonneg (a b : R) : 0 <= a -> 0 <= b -> 0 <= a / b.
Proof.
  intros Ha [Hb | <-].
  - apply Rlt_le in Hb as Hb'. apply Rmult_le_pos; [exact Ha |].
    apply Rlt_le, Rinv_0_lt_compat, Hb.
  - unfold Rdiv. rewrite Rinv_0. lra.
Qed.

Lemma Rmin_nonneg (a b : R) : 0 <= a -> 0 <= b -> 0 <= Rmin a b.
Proof. intros. apply Rmin_glb; assumption. Qed.

(** The least integer not below a number that is not negative. *)
Lemma ceil_nonneg (x : R) : 0 <= x -> (0 <= Ideal.ceil x)%Z.
Proof.
  intros Hx. unfold Ideal.ceil. destruct (archimed (- x)) as [_ Hup].
  assert (H : IZR (up (- x)) <= 1) by lra.
  apply le_IZR in H. lia.
Qed.

(** Over the real numbers the value of [linearIntensityLimit] is the
    product of the documentation, however it is associated. *)
Lemma linearIntensityLimit_ideal (self : InjectorChain R) (i : IonAttrs R)
    (m gamma Nb_0 charge_0 m_0 gamma_0 : R) (fully_stripped : bool) :
  ion self = Some i ->
  let charge := if fully_stripped then ion_Z i else ion_Q i in
  linearIntensityLimit self m gamma Nb_0 charge_0 m_0 gamma_0 fully_stripped
  = OK (Nb_0 * (m / m_0) * (charge_0 / charge) ^ 2
        * (sqrt (1 - 1 / gamma ^ 2) / sqrt (1 - 1 / gamma_0 ^ 2))
        * (gamma / gamma_0) ^ 2).
Proof.
  intros Hi charge. rewrite (linearIntensityLimit_eq self i) by exact Hi.
  f_equal. unfold pow2, beta, pow2. simpl. fold charge.
  replace (gamma * (gamma * 1)) with (gamma * gamma) by ring.
  replace (gamma_0 * (gamma_0 * 1)) with (gamma_0 * gamma_0) by ring.
  ring.
Qed.

(** The scaled intensity is not negative. *)
Lemma intensity_nonneg (Nb_0 m m_0 charge_0 charge gamma gamma_0 : R) :
  0 <= Nb_0 -> 0 <= m -> 0 <= m_0 ->
  0 <= Nb_0 * (m / m_0 * pow2 (charge_0 / charge) * (beta gamma / beta gamma_0)
               * pow2 (gamma / gamma_0)).
Proof.
  intros HN Hm Hm0.
  apply Rmult_le_pos; [exact HN |].
  apply Rmult_le_pos; [| apply pow2_nonneg].
  apply Rmult_le_pos; [| apply div_nonneg; apply beta_nonneg].
  apply Rmult_le_pos; [apply div_nonneg; assumption | apply pow2_nonneg].
Qed.

(** A minimum of two limits, reduced by transmissions, is within both. *)
Lemma transmitted_min_le (a b T S : R) :
  0 <= a -> 0 <= b -> 0 <= T <= 1 -> 0 <= S <= 1 ->
  Rmin a b * T * S <= a /\ Rmin a b * T * S <= b.
Proof.
  intros Ha Hb HT HS.
  assert (Hmin : 0 <= Rmin a b) by (apply Rmin_nonneg; assumption).
  assert (H1 : 0 <= Rmin a b * T) by (apply Rmult_le_pos; lra).
  assert (H2 : Rmin a b * T <= Rmin a b)
    by (rewrite <- (Rmult_1_r (Rmin a b)) at 2; apply Rmult_le_compat_l; lra).
  assert (Hle : Rmin a b * T * S <= Rmin a b * T)
    by (rewrite <- (Rmult_1_r (Rmin a b * T)) at 2; apply Rmult_le_compat_l; lra).
  pose proof (Rmin_l a b). pose proof (Rmin_r a b). lra.
Qed.

(** What one of several bunches keeps of a transmitted intensity. *)
Lemma extracted_le (t M B : R) :
  0 <= M -> 0 <= t <= 1 -> 1 <= B -> 0 <= t * M / B <= M.
Proof.
  intros HM Ht HB.
  assert (H1 : 0 <= t * M) by (apply Rmult_le_pos; lra).
  assert (H2 : t * M <= M)
    by (rewrite <- (Rmult_1_l M) at 2; apply Rmult_le_compat_r; lra).
  assert (H3 : 0 < / B <= 1).
  { split; [apply Rinv_0_lt_compat; lra |].
    rewrite <- Rinv_1. apply Rinv_le_contravar; lra. }
  unfold Rdiv. split; [apply Rmult_le_pos; lra |].
  apply Rle_trans with (t * M); [| exact H2].
  rewrite <- (Rmult_1_r (t * M)) at 2. apply Rmult_le_compat_l; lra.
Qed.

(** Over the real numbers the aggregator raises nothing on an object
    whose ion and reference are assigned. *)
Lemma calculate_runs (self : InjectorChain R) i r :
  ion self = Some i -> reference self = Some r ->
  (use_gammas_ref self = true -> energy self <> None) ->
  exists res self', calculate_LHC_bunch_intensity self = OK (res, self').
Proof.
  intros Hi Hr He. destruct self. simpl in *. subst.
  unfold calculate_LHC_bunch_intensity, simulate_injection_SpaceCharge_limit,
    leir, ps, sps, linearIntensityLimit.
  simpl.
  destruct use_gammas_ref0.
  - destruct energy0 as [en |]; [| exfalso; apply He; reflexivity].
    simpl. destruct (nPulsesLEIR0 =? 0)%Z; simpl; do 2 eexists; reflexivity.
  - simpl. destruct use_Roderiks_gamma0; simpl;
      destruct (nPulsesLEIR0 =? 0)%Z; simpl; do 2 eexists; reflexivity.
Qed.

(** The reference intensities and the reference mass are positive. *)
Lemma Pb_reference_positive (T : R) :
  T = ndec 62 (-2) \/ T = ndec 10 (-1) ->
  0 < Nb0_LEIR_extr (Pb_reference T) /\ 0 < Nb0_PS_extr (Pb_reference T) /\
  0 < Nb0_SPS_extr (Pb_reference T) /\ 0 < m0_GeV (Pb_reference T).
Proof.
  intros HT. unfold Pb_reference. simpl. unfold Ideal.dec. simpl.
  assert (0 < T)
    by (destruct HT as [-> | ->]; simpl; unfold Ideal.dec; simpl; lra).
  repeat split; try lra.
  apply Rdiv_lt_0_compat; lra.
Qed.

(** The constants of the chain are fractions, and the elementary charge is
    positive. *)
Lemma ion_initialised_fractions (self : InjectorChain R) (i : IonAttrs R) :
  ion_initialised self i ->
  0 <= LEIR_injection_efficiency i /\ 0 <= LEIR_transmission i <= 1 /\
  0 <= PS_transmission i /\ 0 <= PS_SPS_transmission_efficiency i /\
  0 <= PS_SPS_stripping_efficiency i /\
  0 <= SPS_transmission i <= 1 /\ 0 <= SPS_slipstacking_transmission i <= 1.
Proof.
  intros (_ & _ & _ & _ & _ & _ & _ & _ & -> & -> & -> & -> & _ & -> & -> & HT).
  assert (0 <= SPS_transmission i <= 1)
    by (destruct HT as [-> | ->]; simpl; unfold Ideal.dec; simpl; lra).
  simpl. unfold Ideal.dec. simpl. repeat split; lra.
Qed.

Lemma e_positive : 0 < e (num := R).
Proof. unfold e. simpl. unfold Ideal.dec. simpl. lra. Qed.

#[local] Arguments pow2 : simpl never.
#[local] Arguments beta : simpl never.
#[local] Arguments py_min : simpl never.
#[local] Arguments np_min : simpl never.
#[local] Arguments e : simpl never.

Create HintDb nonneg.
#[local] Hint Resolve Rmult_le_pos div_nonneg Rmin_nonneg pow2_nonneg beta_nonneg
  intensity_nonneg Rlt_le : nonneg.


Lemma example_objectR_physical : physical example_objectR.
Proof.
  unfold physical. eexists. split; [reflexivity |].
  simpl. unfold Ideal.dec. simpl.
  repeat split; try lra; try lia; try discriminate.
Qed.


(** ** Batch mode returns *)

(** A label that exactly one column carries is found. *)
Lemma column_found (t : IonTable R) (n : string) :
  NoDup (columns t) -> In n (columns t) -> exists d, column t n = OK d.
Proof.
  unfold column, columns.
  induction t as [| [k d] t IH]; simpl; intros Hnd Hin; [contradiction |].
  inversion Hnd as [| ? ? Hk Hnd']; subst.
  assert (Hnone : ~ In n (map fst t) -> filter (fun c => String.eqb (fst c) n) t = []).
  { clear. intros Hn. induction t as [| [k' d'] t IH]; simpl; [reflexivity |].
    destruct (String.eqb k' n) eqn:E.
    - apply String.eqb_eq in E. subst. exfalso. apply Hn. left; reflexivity.
    - apply IH. intros H. apply Hn. right. exact H. }
  destruct (String.eqb k n) eqn:E.
  - apply String.eqb_eq in E. subst k. rewrite (Hnone Hk). exists d. reflexivity.
  - apply String.eqb_neq in E. destruct Hin as [Heq | Hin]; [contradiction |].
    apply IH; assumption.
Qed.

(** The loop raises nothing when the labels are columns of the table, no
    label is repeated, and the gammas are computed by the formulas. *)
Lemma all_ion_species_loop_runs (names : list string) :
  forall (self : InjectorChain R) r acc,
  NoDup (columns (full_ion_data self)) ->
  (forall n, In n names -> In n (columns (full_ion_data self))) ->
  use_gammas_ref self = false -> reference self = Some r ->
  exists acc' self', all_ion_species_loop self names acc = OK (acc', self').
Proof.
  induction names as [| n rest IH]; intros self r acc Hnd Hsub Hg Hr; simpl.
  - do 2 eexists; reflexivity.
  - destruct (column_found _ n Hnd) as [d Hd]; [apply Hsub; left; reflexivity |].
    assert (Hinit : exists self1, init_ion self n = OK self1).
    { unfold init_ion. rewrite Hd. simpl. rewrite Hg. eexists; reflexivity. }
    destruct Hinit as [self1 Hinit].
    destruct (init_ion_OK _ _ _ Hinit) as (i & Hi & _ & _ & _ & Hc1 & Hr1 & _).
    pose proof Hc1 as (C1 & _ & _ & C4 & _).
    destruct (calculate_runs self1 i r Hi) as (res & self2 & Hcalc).
    { congruence. }
    { rewrite C4, Hg. discriminate. }
    destruct (calculate_frame _ _ _ Hcalc) as (Hc2 & Hr2 & _).
    pose proof Hc2 as (D1 & _ & _ & D4 & _).
    rewrite Hinit. simpl. rewrite Hcalc. simpl.
    apply (IH self2 r).
    + rewrite D1, C1. exact Hnd.
    + intros n' Hn'. rewrite D1, C1. apply Hsub. right. exact Hn'.
    + congruence.
    + congruence.
Qed.

(** Over the real numbers batch mode returns a table for every table of
    ions that is not empty and repeats no label, when the gammas are
    computed by the formulas. *)
Lemma batch_runs (self : InjectorChain R) r :
  full_ion_data self <> [] -> NoDup (columns (full_ion_data self)) ->
  use_gammas_ref self = false -> reference self = Some r ->
  exists df self', calculate_LHC_bunch_intensity_all_ion_species self = OK (df, self').
Proof.
  intros Hne Hnd Hg Hr.
  destruct (all_ion_species_loop_runs (columns (full_ion_data self)) self r []
              Hnd (fun n H => H) Hg Hr) as (full & self' & Hloop).
  unfold calculate_LHC_bunch_intensity_all_ion_species. rewrite Hloop. simpl.
  destruct (batch_columns _ _ _ Hloop Hne) as (results & ks & Hall & Hks & Hkeys & ->).
  assert (Hion : In "Ion" ks).
  { rewrite Hks. apply in_or_app. left. unfold result_keys. simpl. tauto. }
  assert (Hhas : forall k, In k ks -> Forall (fun d => In k (keys d)) results).
  { intros k Hk. eapply Forall_impl; [| exact Hkeys]. simpl. intros d ->. exact Hk. }
  assert (Hdf : exists df, DataFrame_set_index (transpose ks results) "Ion" = OK df).
  { unfold DataFrame_set_index.
    destruct (transpose ks results) as [| [k0 c0] cols] eqn:Et.
    - destruct ks; [contradiction | discriminate Et].
    - rewrite <- Et. rewrite (dict_get_transpose ks results "Ion" Hion).
      assert (Hlen : forallb (fun c => Nat.eqb (List.length (snd c)) (List.length c0))
                       (transpose ks results) = true).
      { apply forallb_forall. intros c Hc. apply Nat.eqb_eq.
        assert (Hl : forall c', In c' (transpose ks results) ->
                                List.length (snd c') = List.length results).
        { intros c' Hc'. unfold transpose in Hc'. apply in_map_iff in Hc'.
          destruct Hc' as (k & <- & Hk). simpl. apply length_column, Hhas, Hk. }
        rewrite (Hl c Hc). symmetry.
        apply (Hl (k0, c0)). rewrite Et. left; reflexivity. }
      rewrite Hlen. eexists; reflexivity. }
  destruct Hdf as [df Hdf]. rewrite Hdf. simpl. do 2 eexists; reflexivity.
Qed.

End Reals.

(** * Further properties of the methods *)

Section Further.
Context {num : Type} {arith : Arith num}.
Local Open Scope num_scope.

Implicit Types (self : InjectorChain num) (i : IonAttrs num) (r : ReferenceAttrs num).

(** ** The entries of a result *)

(** The numbers in the dictionary [calculate_LHC_bunch_intensity] returns,
    in terms of the ion, the reference values and the attributes the
    stages assigned. *)
Lemma calculate_entries self res self' :
  calculate_LHC_bunch_intensity self = OK (res, self') ->
  exists i r l p s n,
    ion self = Some i /\ reference self = Some r /\
    simulate_injection_SpaceCharge_limit self = OK self' /\
    leir_out self' = Some l /\ ps_out self' = Some p /\ sps_out self' = Some s /\
    let ionsPerPulseLinac3 := (linac3_current i * linac3_pulseLength i) / (ion_Q i * e) in
    let scale m gamma Nb_0 charge_0 charge m_0 gamma_0 :=
      Nb_0 * ((m / m_0) * pow2 (charge_0 / charge) * (beta gamma / beta gamma_0)
              * pow2 (gamma / gamma_0)) in
    let spaceChargeLimitLEIR :=
      scale (mass_GeV i) (gamma_LEIR_extr l) (Nb0_LEIR_extr r) (Q0_LEIR r) (ion_Q i)
            (m0_GeV r) (gamma0_LEIR_extr r) in
    let totalIntLEIR := ionsPerPulseLinac3 * nofZ n * LEIR_injection_efficiency i in
    let ionsPerBunchExtractedLEIR :=
      LEIR_transmission i * np_min totalIntLEIR spaceChargeLimitLEIR
      / nofZ (LEIR_bunches self) in
    let ionsPerBunchExtractedPS :=
      ionsPerBunchExtractedLEIR
      * (if LEIR_PS_strip self then LEIR_PS_stripping_efficiency i else nofZ 1)
      * PS_transmission i / nofZ (PS_splitting self) in
    let spaceChargeLimitPS :=
      scale (mass_GeV i) (gamma_PS_inj p) (Nb0_PS_extr r) (Q0_PS r)
            (if LEIR_PS_strip self then ion_Z i else ion_Q i)
            (m0_GeV r) (gamma0_PS_inj r) in
    let ionsPerBunchPS :=
      if consider_PS_space_charge_limit self
      then py_min spaceChargeLimitPS ionsPerBunchExtractedPS
      else ionsPerBunchExtractedPS in
    let ionsPerBunchSPSinj :=
      ionsPerBunchPS
      * (if neqb (ion_Z i) (ion_Q i) || LEIR_PS_strip self
         then PS_SPS_transmission_efficiency i
         else PS_SPS_stripping_efficiency i) in
    let spaceChargeLimitSPS :=
      scale (mass_GeV i) (gamma_SPS_inj s) (Nb0_SPS_extr r) (Q0_SPS r) (ion_Z i)
            (m0_GeV r) (gamma0_SPS_inj r) in
    let ionsPerBunchLHC :=
      py_min spaceChargeLimitSPS ionsPerBunchSPSinj
      * SPS_transmission i * SPS_slipstacking_transmission i in
    (if (nPulsesLEIR self =? 0)%Z
     then exists c,
            nceil (spaceChargeLimitLEIR
                   / (ionsPerPulseLinac3 * LEIR_injection_efficiency i)) = OK c /\
            n = Z.min 7 c
     else n = nPulsesLEIR self) /\
    dict_get res "Linac3_ionsPerPulse" = Some (VFloat ionsPerPulseLinac3) /\
    dict_get res "LEIR_numberofPulses" = Some (VInt n) /\
    dict_get res "LEIR_maxIntensity" = Some (VFloat totalIntLEIR) /\
    dict_get res "LEIR_space_charge_limit" = Some (VFloat spaceChargeLimitLEIR) /\
    dict_get res "LEIR_gamma" = Some (VFloat (gamma_LEIR_inj l)) /\
    dict_get res "LEIR_extractedIonPerBunch" = Some (VFloat ionsPerBunchExtractedLEIR) /\
    dict_get res "PS_space_charge_limit" = Some (VFloat spaceChargeLimitPS) /\
    dict_get res "PS_ionsExtractedPerBunch" = Some (VFloat ionsPerBunchExtractedPS) /\
    dict_get res "gammaInjSPS" = Some (VFloat (gamma_SPS_inj s)) /\
    dict_get res "SPS_maxIntensityPerBunch" = Some (VFloat ionsPerBunchSPSinj) /\
    dict_get res "SPS_spaceChargeLimit" = Some (VFloat spaceChargeLimitSPS) /\
    dict_get res "SPS_inj_gamma" = Some (VFloat (gamma_SPS_inj s)) /\
    dict_get res "SPS_accIntensity"
    = Some (VFloat (py_min spaceChargeLimitSPS ionsPerBunchSPSinj)) /\
    dict_get res "LHC_ionsPerBunch" = Some (VFloat ionsPerBunchLHC) /\
    dict_get res "LHC_chargesPerBunch" = Some (VFloat (ionsPerBunchLHC * ion_Z i)) /\
    Nb_LEIR_extr l = spaceChargeLimitLEIR /\ Nb_SPS_extr s = spaceChargeLimitSPS.
Proof.
  intros H. calc_inv H.
  match goal with
  | E : (if (nPulsesLEIR self =? 0)%Z then bind (nceil ?t) _ else _) = OK ?n |- _ =>
      assert (Hn : if (nPulsesLEIR self =? 0)%Z
                   then exists c, nceil t = OK c /\ n = Z.min 7 c
                   else n = nPulsesLEIR self)
        by (destruct (nPulsesLEIR self =? 0)%Z; inv_ok;
            [eexists; split; [eassumption | reflexivity] | reflexivity]);
      clear E
  end.
  do 6 eexists.
  split; [reflexivity |]. split; [eassumption |]. split; [eassumption |].
  do 3 (split; [reflexivity |]). cbv zeta.
  split; [exact Hn |].
  destruct (LEIR_PS_strip self); repeat split; try reflexivity; symmetry; assumption.
Qed.

(** ** Calling a method again *)

(** The stages read the attributes the constructor assigned, the ion, the
    reference values and, when they are used, the precomputed gammas: on
    two objects that agree on them they assign the same attributes. *)
Lemma simulate_agree self self' l p s :
  same_config self self' -> ion self' = ion self ->
  reference self' = reference self ->
  (use_gammas_ref self = true -> energy self' = energy self) ->
  simulate_injection_SpaceCharge_limit self = OK (set_sps (set_ps (set_leir self l) p) s) ->
  simulate_injection_SpaceCharge_limit self'
  = OK (set_sps (set_ps (set_leir self' l) p) s).
Proof.
  intros Hc Hi Hr He.
  destruct self as [fid strip hb ugr ied dm acc cons nP LB PSs itr sp urg io eo ro lo po so].
  destruct self' as [fid' strip' hb' ugr' ied' dm' acc' cons' nP' LB' PSs' itr' sp' urg'
                     io' eo' ro' lo' po' so'].
  unfold same_config in Hc. simpl in *.
  destruct Hc as (-> & -> & -> & -> & -> & -> & -> & -> & -> & -> & -> & -> & -> & ->).
  subst.
  unfold simulate_injection_SpaceCharge_limit, leir, ps, sps, linearIntensityLimit.
  simpl.
  destruct ugr.
  - rewrite (He eq_refl). destruct eo; simpl; [| discriminate].
    destruct io; simpl; [| discriminate].
    destruct ro; simpl; [| discriminate].
    unfold set_sps, set_ps, set_leir. simpl.
    intros H. injection H as <- <- <-. reflexivity.
  - destruct io; simpl; [| discriminate].
    destruct ro; simpl; [| discriminate].
    unfold set_sps, set_ps, set_leir. simpl.
    destruct urg; simpl; intros H; injection H as <- <- <-; reflexivity.
Qed.

(** X1: a second call of [calculate_LHC_bunch_intensity] on the object the
    first call left returns the same dictionary and leaves the object as it
    is: the method reads no attribute that it assigns. *)
Theorem calculate_idempotent self res self' :
  calculate_LHC_bunch_intensity self = OK (res, self') ->
  calculate_LHC_bunch_intensity self' = OK (res, self').
Proof.
  intros H.
  destruct (calculate_frame _ _ _ H) as (Hc & Hr & Hi & He).
  destruct (calculate_Ion _ _ _ H) as (i & Hion & Hset).
  pose proof (calculate_agree self self' i (ion_type i) Hc Hion) as Hag.
  rewrite set_ion_type_same, H, Hset in Hag.
  destruct Hag as [st Hst]; [congruence | exact Hr | intros _; exact He |].
  rewrite Hst. do 2 f_equal.
  destruct (calculate_entries _ _ _ H) as (_ & _ & _ & _ & _ & _ & _ & _ & Hsim & _).
  destruct (calculate_entries _ _ _ Hst) as (_ & _ & _ & _ & _ & _ & _ & _ & Hsim' & _).
  destruct (simulate_OK _ _ Hsim) as (l & p & s & _ & _ & _ & Hself').
  rewrite Hself' in Hsim.
  pose proof (simulate_agree self self' l p s Hc Hi Hr (fun _ => He) Hsim) as Hsim2.
  rewrite Hsim2 in Hsim'. injection Hsim' as <-.
  rewrite Hself'. destruct self; reflexivity.
Qed.

(** X2: [init_ion] forgets the ion that was active: after a successful
    [init_ion(n1)], the call [init_ion(n2)] returns, or raises, what it
    would have without the first call. *)
Theorem init_ion_overwrites self n1 self1 n2 :
  init_ion self n1 = OK self1 -> init_ion self1 n2 = init_ion self n2.
Proof.
  destruct self as [fid strip hb ugr ied dm acc cons nP LB PSs itr sp urg io eo ro lo po so].
  unfold init_ion, load_ion_energy. simpl.
  destruct (column fid n1) as [d1 | err]; simpl; [| discriminate].
  destruct ugr; simpl.
  - destruct (ntrunc (row_Q_before_stripping d1)); simpl; [| discriminate].
    destruct (ntrunc (row_A d1)); simpl; [| discriminate].
    destruct (loc ied _); simpl; [| discriminate].
    intros H; injection H as <-. simpl. reflexivity.
  - intros H; injection H as <-. simpl. reflexivity.
Qed.

(** ** Labels that are missing or repeated *)

(** The columns that carry a label. *)
Lemma filter_column_length (t : IonTable num) (n : string) :
  List.length (filter (fun c => String.eqb (fst c) n) t)
  = count_occ string_dec (columns t) n.
Proof.
  induction t as [| [k d] t IH]; simpl; [reflexivity |].
  destruct (String.eqb k n) eqn:E.
  - apply String.eqb_eq in E. subst k.
    destruct (string_dec n n); [| contradiction]. simpl. f_equal. exact IH.
  - apply String.eqb_neq in E.
    destruct (string_dec k n); [contradiction |]. exact IH.
Qed.

Lemma column_unknown (t : IonTable num) (n : string) :
  ~ In n (columns t) -> column t n = Raise (KeyError n).
Proof.
  intros Hn. apply (count_occ_not_In string_dec) in Hn.
  rewrite <- filter_column_length in Hn. unfold column.
  destruct (filter _ t); [reflexivity | discriminate Hn].
Qed.

Lemma column_repeated (t : IonTable num) (n : string) :
  (2 <= count_occ string_dec (columns t) n)%nat ->
  column t n = Raise (KeyError "mass [GeV]").
Proof.
  intros Hn. rewrite <- filter_column_length in Hn. unfold column.
  destruct (filter _ t) as [| c [| c' rest]]; simpl in Hn; [lia | lia | reflexivity].
Qed.

Lemma loc_unknown (t : EnergyTable num) (key : string) :
  ~ In key (map fst t) -> loc t key = Raise (KeyError key).
Proof.
  induction t as [| [k r] t IH]; simpl; intros H; [reflexivity |].
  destruct (String.eqb k key) eqn:E.
  - apply String.eqb_eq in E. exfalso. apply H. left. exact E.
  - apply IH. intros H'. apply H. right. exact H'.
Qed.

(** X3: for an ion type that is no column of the ion table, [init_ion]
    raises KeyError with the ion type, and the constructor returns no
    object (it raises that error, or the error of reading the file of
    precomputed gammas before). *)
Theorem unknown_ion_raises (read_csv : string -> result (EnergyTable num)) self (n : string) :
  ~ In n (columns (full_ion_data self)) ->
  init_ion self n = Raise (KeyError n) /\
  forall a : Args num,
    arg_ion_data a = full_ion_data self -> arg_ion_type a = n ->
    exists err, __init__ read_csv a = Raise err.
Proof.
  intros Hn. split.
  - unfold init_ion. rewrite (column_unknown _ _ Hn). reflexivity.
  - intros a Ht Ha. unfold __init__.
    destruct (if arg_LEIR_PS_strip a then _ else _) as [t | err]; simpl;
      [| eexists; reflexivity].
    unfold init_ion. simpl. rewrite Ht, Ha, (column_unknown _ _ Hn). simpl.
    eexists; reflexivity.
Qed.

(** The loop of batch mode raises when a label it has to process is
    repeated in the table. *)
Lemma loop_repeated_label (names : list string) :
  forall self acc n,
  In n names -> (2 <= count_occ string_dec (columns (full_ion_data self)) n)%nat ->
  exists err, all_ion_species_loop self names acc = Raise err.
Proof.
  induction names as [| m rest IH]; intros self acc n Hin Hn; [contradiction |].
  simpl.
  destruct (init_ion self m) as [self1 | err] eqn:Hinit; simpl; [| eexists; reflexivity].
  destruct (calculate_LHC_bunch_intensity self1) as [[res self2] | err] eqn:Hcalc; simpl;
    [| eexists; reflexivity].
  destruct (init_ion_OK _ _ _ Hinit) as (_ & _ & _ & _ & _ & (C1 & _) & _).
  destruct (calculate_frame _ _ _ Hcalc) as ((D1 & _) & _).
  destruct Hin as [-> | Hin].
  - unfold init_ion in Hinit. rewrite (column_repeated _ _ Hn) in Hinit. discriminate Hinit.
  - apply (IH self2 _ n Hin). rewrite D1, C1. exact Hn.
Qed.

(** X4: when two columns of the ion table carry the same label, [init_ion]
    raises KeyError for that label (the selection is a frame, which has no
    column 'mass [GeV]'), and batch mode returns no table, whichever ion the
    object was constructed with. *)
Theorem repeated_label_raises self (n : string) :
  (2 <= count_occ string_dec (columns (full_ion_data self)) n)%nat ->
  init_ion self n = Raise (KeyError "mass [GeV]") /\
  exists err, calculate_LHC_bunch_intensity_all_ion_species self = Raise err.
Proof.
  intros Hn. split.
  - unfold init_ion. rewrite (column_repeated _ _ Hn). reflexivity.
  - assert (Hin : In n (columns (full_ion_data self))).
    { apply (count_occ_In string_dec). lia. }
    destruct (loop_repeated_label _ self [] n Hin Hn) as [err Herr].
    exists err. unfold calculate_LHC_bunch_intensity_all_ion_species.
    rewrite Herr. reflexivity.
Qed.

(** X5: with [use_gammas_ref], [init_ion] raises KeyError with the key
    [str(int(Q)) + ion_type + str(int(A))] when the table of precomputed
    gammas has no row of that key. *)
Theorem missing_energy_row_raises self (n : string) (d : IonData num) (q a : Z) :
  use_gammas_ref self = true ->
  column (full_ion_data self) n = OK d ->
  ntrunc (row_Q_before_stripping d) = OK q -> ntrunc (row_A d) = OK a ->
  ~ In (str q ++ n ++ str a) (map fst (ion_energy_data self)) ->
  init_ion self n = Raise (KeyError (str q ++ n ++ str a)).
Proof.
  intros Hg Hd Hq Ha Hkey. unfold init_ion, load_ion_energy.
  rewrite Hd. simpl. rewrite Hg. simpl. rewrite Hq, Ha. simpl.
  rewrite (loc_unknown _ _ Hkey). reflexivity.
Qed.

(** ** What holds after every successful call *)






(** ** Exceptions of the aggregator *)


End Further.

(** * The tables over all ions *)

Section AllIons.
Context {num : Type} {arith : Arith num}.
Local Open Scope num_scope.
Implicit Types (self : InjectorChain num).

(** Assigning a cell in a frame given by a function of the labels. *)
Lemma set_cell_map (idx : list string) (F : string -> dict (option num))
    (col label : string) (x : num) :
  set_cell (map (fun n => (n, F n)) idx) col label x
  = map (fun n => (n, if String.eqb n label then dict_set (F n) col (Some x) else F n)) idx.
Proof.
  unfold set_cell. rewrite map_map. apply map_ext. intros n. simpl.
  destruct (String.eqb n label); reflexivity.
Qed.

(** Assigning every cell of a row of intensities. *)
Lemma set_row_Nb (cells : dict (option num)) (x1 x2 x3 x4 x5 x6 : num) :
  keys cells = ["Nb_LEIR"; "Nq_LEIR"; "Nb_PS"; "Nq_PS"; "Nb_SPS"; "Nq_SPS"] ->
  dict_set (dict_set (dict_set (dict_set (dict_set (dict_set cells
    "Nb_LEIR" (Some x1)) "Nq_LEIR" (Some x2)) "Nb_PS" (Some x3)) "Nq_PS" (Some x4))
    "Nb_SPS" (Some x5)) "Nq_SPS" (Some x6)
  = [("Nb_LEIR", Some x1); ("Nq_LEIR", Some x2); ("Nb_PS", Some x3); ("Nq_PS", Some x4);
     ("Nb_SPS", Some x5); ("Nq_SPS", Some x6)].
Proof.
  intros H.
  destruct cells as [| [k1 v1] [| [k2 v2] [| [k3 v3] [| [k4 v4] [| [k5 v5]
    [| [k6 v6] [| ? ?]]]]]]]; try discriminate H.
  injection H as -> -> -> -> -> ->. reflexivity.
Qed.

(** Assigning every cell of a row of gammas. *)
Lemma set_row_gamma (cells : dict (option num)) (x1 x2 x3 : num) :
  keys cells = ["LEIR"; "PS"; "SPS"] ->
  dict_set (dict_set (dict_set cells "LEIR" (Some x1)) "PS" (Some x2)) "SPS" (Some x3)
  = [("LEIR", Some x1); ("PS", Some x2); ("SPS", Some x3)].
Proof.
  intros H.
  destruct cells as [| [k1 v1] [| [k2 v2] [| [k3 v3] [| ? ?]]]]; try discriminate H.
  injection H as -> -> ->. reflexivity.
Qed.

(** The loop assigns the rows of the ions it processes, with the values
    that an iteration computes on the object as it was at the start, and no
    other row. *)
Lemma all_ions_loop_OK (idx names : list string) :
  forall self0 self t t' self' (FN FI FE : string -> dict (option num)),
  same_config self0 self -> reference self = reference self0 ->
  ion_Nb_data t = map (fun n => (n, FN n)) idx ->
  ion_gamma_inj_data t = map (fun n => (n, FI n)) idx ->
  ion_gamma_extr_data t = map (fun n => (n, FE n)) idx ->
  (forall n, keys (FN n) = ["Nb_LEIR"; "Nq_LEIR"; "Nb_PS"; "Nq_PS"; "Nb_SPS"; "Nq_SPS"]) ->
  (forall n, keys (FI n) = ["LEIR"; "PS"; "SPS"]) ->
  (forall n, keys (FE n) = ["LEIR"; "PS"; "SPS"]) ->
  all_ions_loop self names t = OK (t', self') ->
  exists FN' FI' FE',
    ion_Nb_data t' = map (fun n => (n, FN' n)) idx /\
    ion_gamma_inj_data t' = map (fun n => (n, FI' n)) idx /\
    ion_gamma_extr_data t' = map (fun n => (n, FE' n)) idx /\
    (forall n, ~ In n names -> FN' n = FN n /\ FI' n = FI n /\ FE' n = FE n) /\
    (forall n, In n names ->
       exists l p s,
         stage_values self0 n l p s /\
         FN' n = [("Nb_LEIR", Some (Nb_LEIR_extr l)); ("Nq_LEIR", Some (Nq_LEIR_extr l));
                  ("Nb_PS", Some (Nb_PS_extr p)); ("Nq_PS", Some (Nq_PS_extr p));
                  ("Nb_SPS", Some (Nb_SPS_extr s)); ("Nq_SPS", Some (Nq_SPS_extr s))] /\
         FI' n = [("LEIR", Some (gamma_LEIR_inj l)); ("PS", Some (gamma_PS_inj p));
                  ("SPS", Some (gamma_SPS_inj s))] /\
         FE' n = [("LEIR", Some (gamma_LEIR_extr l)); ("PS", Some (gamma_PS_extr p));
                  ("SPS", Some (gamma_SPS_extr s))]).
Proof.
  induction names as [| m rest IH];
    intros self0 self t t' self' FN FI FE Hc Hr HN HI HE KN KI KE H.
  - simpl in H. injection H as <- <-. exists FN, FI, FE.
    repeat split; try assumption. intros n [].
  - simpl in H. inv_ok.
    match goal with
    | H1 : init_ion self m = OK ?a, H2 : simulate_injection_SpaceCharge_limit ?a = OK ?b |- _ =>
        rename H1 into Hinit; rename H2 into Hsim; rename a into self1; rename b into self2
    end.
    match goal with
    | Hl : leir_out self2 = Some ?l, Hp : ps_out self2 = Some ?p,
      Hs : sps_out self2 = Some ?s |- _ =>
        rename Hl into Hlo; rename Hp into Hpo; rename Hs into Hso;
        rename l into lv; rename p into pv; rename s into sv
    end.
    (* the values are those of an iteration on the object at the start *)
    assert (Hvals : stage_values self0 m lv pv sv).
    { destruct (init_ion_agree self self0 m self1 (same_config_sym _ _ Hc) Hinit)
        as (self1' & Hinit' & Hc1 & Hi1 & He1 & Hr1 & Hr1').
      destruct (simulate_OK _ _ Hsim) as (l & p & s & _ & _ & _ & Hself2).
      rewrite Hself2 in Hsim, Hlo, Hpo, Hso. simpl in Hlo, Hpo, Hso.
      injection Hlo as ->. injection Hpo as ->. injection Hso as ->.
      assert (Hg : use_gammas_ref self1 = use_gammas_ref self).
      { destruct (init_ion_OK _ _ _ Hinit) as (_ & _ & _ & _ & _ & (_ & _ & _ & G & _) & _).
        exact G. }
      pose proof (simulate_agree self1 self1' lv pv sv Hc1 Hi1) as Hag.
      exists self1', (set_sps (set_ps (set_leir self1' lv) pv) sv).
      split; [exact Hinit' |]. split; [| repeat split].
      apply Hag; [congruence | | exact Hsim].
      intros Hu. apply He1. congruence. }
    (* the object the loop goes on with *)
    assert (Hc2 : same_config self0 self2 /\ reference self2 = reference self0).
    { destruct (init_ion_OK _ _ _ Hinit) as (_ & _ & _ & _ & _ & C1 & R1 & _).
      destruct (simulate_OK _ _ Hsim) as (l & p & s & _ & _ & _ & ->).
      split; [| simpl; congruence].
      apply (same_config_trans _ _ _ Hc). exact C1. }
    destruct Hc2 as [Hc2 Hr2].
    match goal with
    | H : all_ions_loop self2 rest ?t1 = OK _ |- _ =>
        destruct (IH self0 self2 t1 t' self'
                    (fun n => if String.eqb n m
                              then [("Nb_LEIR", Some (Nb_LEIR_extr lv));
                                    ("Nq_LEIR", Some (Nq_LEIR_extr lv));
                                    ("Nb_PS", Some (Nb_PS_extr pv));
                                    ("Nq_PS", Some (Nq_PS_extr pv));
                                    ("Nb_SPS", Some (Nb_SPS_extr sv));
                                    ("Nq_SPS", Some (Nq_SPS_extr sv))]
                              else FN n)
                    (fun n => if String.eqb n m
                              then [("LEIR", Some (gamma_LEIR_inj lv));
                                    ("PS", Some (gamma_PS_inj pv));
                                    ("SPS", Some (gamma_SPS_inj sv))]
                              else FI n)
                    (fun n => if String.eqb n m
                              then [("LEIR", Some (gamma_LEIR_extr lv));
                                    ("PS", Some (gamma_PS_extr pv));
                                    ("SPS", Some (gamma_SPS_extr sv))]
                              else FE n)
                    Hc2 Hr2)
          as (FN' & FI' & FE' & HN' & HI' & HE' & Hout & Hin); [| | | | | | exact H |]
    end.
    + simpl. rewrite HN. rewrite !set_cell_map. apply map_ext. intros n.
      destruct (String.eqb n m); [| reflexivity].
      f_equal. apply set_row_Nb, KN.
    + simpl. rewrite HI. rewrite !set_cell_map. apply map_ext. intros n.
      destruct (String.eqb n m); [| reflexivity].
      f_equal. apply set_row_gamma, KI.
    + simpl. rewrite HE. rewrite !set_cell_map. apply map_ext. intros n.
      destruct (String.eqb n m); [| reflexivity].
      f_equal. apply set_row_gamma, KE.
    + intros n. destruct (String.eqb n m); [reflexivity | apply KN].
    + intros n. destruct (String.eqb n m); [reflexivity | apply KI].
    + intros n. destruct (String.eqb n m); [reflexivity | apply KE].
    + exists FN', FI', FE'. repeat (split; [assumption |]). split.
      * intros n Hn. destruct (Hout n) as (E1 & E2 & E3).
        { intros Hn'. apply Hn. right. exact Hn'. }
        assert (Hnm : String.eqb n m = false).
        { apply String.eqb_neq. intros ->. apply Hn. left. reflexivity. }
        rewrite Hnm in E1, E2, E3. repeat split; assumption.
      * intros n Hn. destruct (in_dec string_dec n rest) as [Hrest | Hrest].
        { apply Hin. exact Hrest. }
        destruct Hn as [<- | Hn]; [| contradiction].
        destruct (Hout m Hrest) as (E1 & E2 & E3).
        rewrite String.eqb_refl in E1, E2, E3.
        exists lv, pv, sv. repeat split; assumption.
Qed.

(** The tables as functions of the labels. *)
Lemma limit_tables_functions self b ret t self' :
  simulate_SpaceCharge_intensity_limit_all_ions self b = OK (ret, t, self') ->
  exists FN FI FE,
    ion_Nb_data t = map (fun n => (n, FN n)) (columns (full_ion_data self)) /\
    ion_gamma_inj_data t = map (fun n => (n, FI n)) (columns (full_ion_data self)) /\
    ion_gamma_extr_data t = map (fun n => (n, FE n)) (columns (full_ion_data self)) /\
    forall n, In n (columns (full_ion_data self)) ->
      exists l p s,
        stage_values self n l p s /\
        FN n = [("Nb_LEIR", Some (Nb_LEIR_extr l)); ("Nq_LEIR", Some (Nq_LEIR_extr l));
                ("Nb_PS", Some (Nb_PS_extr p)); ("Nq_PS", Some (Nq_PS_extr p));
                ("Nb_SPS", Some (Nb_SPS_extr s)); ("Nq_SPS", Some (Nq_SPS_extr s))] /\
        FI n = [("LEIR", Some (gamma_LEIR_inj l)); ("PS", Some (gamma_PS_inj p));
                ("SPS", Some (gamma_SPS_inj s))] /\
        FE n = [("LEIR", Some (gamma_LEIR_extr l)); ("PS", Some (gamma_PS_extr p));
                ("SPS", Some (gamma_SPS_extr s))].
Proof.
  unfold simulate_SpaceCharge_intensity_limit_all_ions. intros H. inv_ok.
  match goal with
  | H : all_ions_loop _ _ ?t0 = OK _ |- _ =>
      destruct (all_ions_loop_OK (columns (full_ion_data self)) _ self self t0 _ _
                  (fun _ => map (fun c => (c, None))
                              ["Nb_LEIR"; "Nq_LEIR"; "Nb_PS"; "Nq_PS"; "Nb_SPS"; "Nq_SPS"])
                  (fun _ => map (fun c => (c, None)) ["LEIR"; "PS"; "SPS"])
                  (fun _ => map (fun c => (c, None)) ["LEIR"; "PS"; "SPS"])
                  (same_config_refl self) eq_refl eq_refl eq_refl eq_refl
                  (fun _ => eq_refl) (fun _ => eq_refl) (fun _ => eq_refl) H)
        as (FN & FI & FE & HN & HI & HE & _ & Hin)
  end.
  exists FN, FI, FE. repeat (split; [assumption |]). exact Hin.
Qed.

(** The rows of the tables, by position. *)
Lemma limit_tables_OK self b ret t self' :
  simulate_SpaceCharge_intensity_limit_all_ions self b = OK (ret, t, self') ->
  forall k n,
    nth_error (columns (full_ion_data self)) k = Some n ->
    exists l p s,
      stage_values self n l p s /\
      nth_error (ion_Nb_data t) k
      = Some (n, [("Nb_LEIR", Some (Nb_LEIR_extr l)); ("Nq_LEIR", Some (Nq_LEIR_extr l));
                  ("Nb_PS", Some (Nb_PS_extr p)); ("Nq_PS", Some (Nq_PS_extr p));
                  ("Nb_SPS", Some (Nb_SPS_extr s)); ("Nq_SPS", Some (Nq_SPS_extr s))]) /\
      nth_error (ion_gamma_inj_data t) k
      = Some (n, [("LEIR", Some (gamma_LEIR_inj l)); ("PS", Some (gamma_PS_inj p));
                  ("SPS", Some (gamma_SPS_inj s))]) /\
      nth_error (ion_gamma_extr_data t) k
      = Some (n, [("LEIR", Some (gamma_LEIR_extr l)); ("PS", Some (gamma_PS_extr p));
                  ("SPS", Some (gamma_SPS_extr s))]).
Proof.
  intros H. destruct (limit_tables_functions _ _ _ _ _ H)
    as (FN & FI & FE & HN & HI & HE & Hin).
  intros k n Hk.
  destruct (Hin n (nth_error_In _ _ Hk)) as (l & p & s & Hv & EN & EI & EE).
  exists l, p, s. split; [exact Hv |].
  rewrite HN, HI, HE, !nth_error_map, Hk. simpl. rewrite EN, EI, EE.
  repeat split.
Qed.

(** X19: when [simulate_SpaceCharge_intensity_limit_all_ions] returns, its
    three tables have one row per column of the ion table, in the order of
    the table, and every cell is assigned: the row of an ion holds the
    intensities [Nb], [Nq = Nb * charge] and the gammas that [init_ion] and
    the stages give for that ion on the object as it was before the call,
    whatever ions were processed before it.  The value returned is the
    table of intensities, or nothing without [return_dataframe]. *)
Theorem limit_tables_rows self b ret t self' :
  simulate_SpaceCharge_intensity_limit_all_ions self b = OK (ret, t, self') ->
  ret = (if b then Some (ion_Nb_data t) else None) /\
  map fst (ion_Nb_data t) = columns (full_ion_data self) /\
  map fst (ion_gamma_inj_data t) = columns (full_ion_data self) /\
  map fst (ion_gamma_extr_data t) = columns (full_ion_data self) /\
  forall k n,
    nth_error (columns (full_ion_data self)) k = Some n ->
    exists self1 self2 i l p s,
      init_ion self n = OK self1 /\
      simulate_injection_SpaceCharge_limit self1 = OK self2 /\
      ion self1 = Some i /\
      leir_out self2 = Some l /\ ps_out self2 = Some p /\ sps_out self2 = Some s /\
      Nq_LEIR_extr l = Nb_LEIR_extr l * ion_Q i /\
      Nq_PS_extr p = Nb_PS_extr p * ion_Q i /\
      Nq_SPS_extr s = Nb_SPS_extr s * ion_Z i /\
      nth_error (ion_Nb_data t) k
      = Some (n, [("Nb_LEIR", Some (Nb_LEIR_extr l)); ("Nq_LEIR", Some (Nq_LEIR_extr l));
                  ("Nb_PS", Some (Nb_PS_extr p)); ("Nq_PS", Some (Nq_PS_extr p));
                  ("Nb_SPS", Some (Nb_SPS_extr s)); ("Nq_SPS", Some (Nq_SPS_extr s))]) /\
      nth_error (ion_gamma_inj_data t) k
      = Some (n, [("LEIR", Some (gamma_LEIR_inj l)); ("PS", Some (gamma_PS_inj p));
                  ("SPS", Some (gamma_SPS_inj s))]) /\
      nth_error (ion_gamma_extr_data t) k
      = Some (n, [("LEIR", Some (gamma_LEIR_extr l)); ("PS", Some (gamma_PS_extr p));
                  ("SPS", Some (gamma_SPS_extr s))]).
Proof.
  intros H. pose proof (limit_tables_OK _ _ _ _ _ H) as Hrows.
  assert (Hidx : forall fr : Frame num,
            (forall k n, nth_error (columns (full_ion_data self)) k = Some n ->
                         exists cells, nth_error fr k = Some (n, cells)) ->
            List.length fr = List.length (columns (full_ion_data self)) ->
            map fst fr = columns (full_ion_data self)).
  { intros fr Hfr Hlen. apply nth_error_ext. intros k. rewrite nth_error_map.
    destruct (nth_error (columns (full_ion_data self)) k) as [n |] eqn:E.
    - destruct (Hfr k n E) as [cells ->]. reflexivity.
    - apply nth_error_None in E. rewrite <- Hlen in E. apply nth_error_None in E.
      rewrite E. reflexivity. }
  assert (Hlen : List.length (ion_Nb_data t) = List.length (columns (full_ion_data self))
                 /\ List.length (ion_gamma_inj_data t)
                    = List.length (columns (full_ion_data self))
                 /\ List.length (ion_gamma_extr_data t)
                    = List.length (columns (full_ion_data self))).
  { destruct (limit_tables_functions _ _ _ _ _ H) as (FN & FI & FE & -> & -> & -> & _).
    rewrite !length_map. repeat split. }
  destruct Hlen as (L1 & L2 & L3).
  split.
  { unfold simulate_SpaceCharge_intensity_limit_all_ions in H. inv_ok. reflexivity. }
  split; [apply Hidx; [| exact L1] |].
  { intros k n Hk. destruct (Hrows k n Hk) as (? & ? & ? & _ & -> & _). eexists; reflexivity. }
  split; [apply Hidx; [| exact L2] |].
  { intros k n Hk. destruct (Hrows k n Hk) as (? & ? & ? & _ & _ & -> & _).
    eexists; reflexivity. }
  split; [apply Hidx; [| exact L3] |].
  { intros k n Hk. destruct (Hrows k n Hk) as (? & ? & ? & _ & _ & _ & ->).
    eexists; reflexivity. }
  intros k n Hk.
  destruct (Hrows k n Hk) as (l & p & s & (self1 & self2 & Hinit & Hsim & Hl & Hp & Hs)
                              & EN & EI & EE).
  destruct (simulate_OK _ _ Hsim) as (l' & p' & s' & Hleir & Hps & Hsps & Hself2).
  rewrite Hself2 in Hl, Hp, Hs. simpl in Hl, Hp, Hs.
  injection Hl as ->. injection Hp as ->. injection Hs as ->.
  destruct (leir_OK _ _ Hleir) as (i1 & r1 & l' & Hi1 & _ & El & _ & Ql & _).
  apply (f_equal leir_out) in El. simpl in El. injection El as <-.
  destruct (ps_OK _ _ Hps) as (i2 & r2 & p' & Hi2 & _ & Ep & _ & Qp & _).
  apply (f_equal ps_out) in Ep. simpl in Ep. injection Ep as <-.
  destruct (sps_OK _ _ Hsps) as (i3 & r3 & s' & Hi3 & _ & Es & _ & Qs & _).
  rewrite Hself2 in Es. apply (f_equal sps_out) in Es. simpl in Es. injection Es as <-.
  simpl in Hi2, Hi3.
  assert (i2 = i1) by congruence. assert (i3 = i1) by congruence. subst i2 i3.
  exists self1, self2, i1, l, p, s. rewrite Hself2 in *. simpl.
  repeat split; assumption || reflexivity.
Qed.

(** ** The rows of batch mode *)

(** Look-up in the cells of a row of a data frame. *)
Lemma dict_get_map {V W : Type} (f : V -> W) (d : dict V) (key : string) :
  dict_get (map (fun c => (fst c, f (snd c))) d) key = option_map f (dict_get d key).
Proof.
  induction d as [| [k v] d IH]; simpl; [reflexivity |].
  destruct (String.eqb k key); [reflexivity | exact IH].
Qed.

Lemma dict_get_filter_other {V : Type} (d : dict V) (x key : string) :
  key <> x ->
  dict_get (filter (fun c => negb (String.eqb (fst c) x)) d) key = dict_get d key.
Proof.
  intros Hne. induction d as [| [k v] d IH]; simpl; [reflexivity |].
  destruct (String.eqb k x) eqn:Ex; simpl.
  - apply String.eqb_eq in Ex. subst k.
    destruct (String.eqb x key) eqn:E; [| exact IH].
    apply String.eqb_eq in E. congruence.
  - destruct (String.eqb k key); [reflexivity | exact IH].
Qed.

(** The table of batch mode, cell by cell: the row of an ion holds the
    entries of the result of an iteration for that ion on the object as it
    was before the call. *)
Lemma batch_cells self df self' :
  calculate_LHC_bunch_intensity_all_ion_species self = OK (df, self') ->
  forall k n,
    nth_error (columns (full_ion_data self)) k = Some n ->
    exists res,
      row_result self n res /\
      fst (df_row df k) = Some (VStr n) /\
      forall key, key <> "Ion" ->
        dict_get (snd (df_row df k)) key = option_map Some (dict_get res key).
Proof.
  unfold calculate_LHC_bunch_intensity_all_ion_species. intros H. inv_ok.
  match goal with
  | Hloop : all_ion_species_loop _ _ _ = OK _, Hdf : DataFrame_set_index _ _ = OK _ |- _ =>
      rename Hloop into HL; rename Hdf into HD
  end.
  assert (Hne : full_ion_data self <> []).
  { intros Hnil. rewrite Hnil in HL. simpl in HL. inv_ok. simpl in HD. discriminate HD. }
  destruct (batch_columns _ _ _ HL Hne) as (results & ks & Hall & Hks & Hkeys & ->).
  destruct (DataFrame_set_index_OK _ _ _ HD) as (col & Hcol & Hidx & Hcols).
  assert (Hion : In "Ion" ks).
  { rewrite Hks. apply in_or_app. left. unfold result_keys. simpl. tauto. }
  assert (Hhas : forall key, In key ks -> Forall (fun d => In key (keys d)) results).
  { intros key Hk. eapply Forall_impl; [| exact Hkeys]. simpl. intros d ->. exact Hk. }
  rewrite (dict_get_transpose ks results "Ion" Hion) in Hcol. injection Hcol as <-.
  intros k n Hk.
  destruct (Forall2_nth_error _ _ _ Hall _ _ Hk) as (res & Hres & Hrow).
  exists res. split; [exact Hrow |]. split.
  - unfold df_row. simpl. rewrite Hidx, (Ion_column self _ _ Hall), nth_error_map, Hk.
    reflexivity.
  - intros key Hkey. unfold df_row. simpl. rewrite Hcols.
    rewrite (dict_get_map (fun c => nth_error c k)).
    rewrite dict_get_filter_other by exact Hkey.
    assert (Hkres : keys res = ks).
    { apply nth_error_In in Hres. rewrite Forall_forall in Hkeys. apply Hkeys, Hres. }
    destruct (in_dec string_dec key ks) as [Hin | Hout].
    + rewrite (dict_get_transpose ks results key Hin). simpl.
      rewrite nth_error_column by (apply Hhas; exact Hin). rewrite Hres.
      destruct (dict_get_In res key) as [v Hv]; [rewrite Hkres; exact Hin |].
      rewrite Hv. reflexivity.
    + assert (H1 : dict_get (transpose ks results) key = None).
      { apply dict_get_None. rewrite keys_transpose. exact Hout. }
      assert (H2 : dict_get res key = None).
      { apply dict_get_None. rewrite Hkres. exact Hout. }
      rewrite H1, H2. reflexivity.
Qed.

(** X20: when batch mode returns a table, the row of every ion of the ion
    table is the result that [init_ion] for that ion and
    [calculate_LHC_bunch_intensity] return on the object as it was before
    the call, whatever ions were processed before it: the index holds the
    name of the ion, and every cell the entry of the result under the
    label of its column. *)
Theorem batch_rows_are_single_results self df self' :
  calculate_LHC_bunch_intensity_all_ion_species self = OK (df, self') ->
  forall k n,
    nth_error (columns (full_ion_data self)) k = Some n ->
    exists self1 res self2,
      init_ion self n = OK self1 /\
      calculate_LHC_bunch_intensity self1 = OK (res, self2) /\
      fst (df_row df k) = Some (VStr n) /\
      dict_get res "Ion" = Some (VStr n) /\
      forall key, key <> "Ion" ->
        dict_get (snd (df_row df k)) key = option_map Some (dict_get res key).
Proof.
  intros H k n Hk.
  destruct (batch_cells _ _ _ H k n Hk) as (res & Hrow & Hidx & Hcells).
  destruct (row_result_Ion _ _ _ Hrow) as [Hion _].
  destruct Hrow as (self1 & self2 & Hinit & Hcalc).
  exists self1, res, self2. repeat split; assumption.
Qed.

(** X21: the two methods that loop over the ion table agree: when both
    return, the intensities [Nb_LEIR] and [Nb_SPS] of an ion in the table of
    [simulate_SpaceCharge_intensity_limit_all_ions] are the space charge
    limits of LEIR and of the SPS in the row of that ion in the table of
    batch mode, and its injection gammas of LEIR and SPS are the gammas in
    that row. *)
Theorem limit_tables_agree_with_batch self b ret t self1 df self2 :
  simulate_SpaceCharge_intensity_limit_all_ions self b = OK (ret, t, self1) ->
  calculate_LHC_bunch_intensity_all_ion_species self = OK (df, self2) ->
  forall k n,
    nth_error (columns (full_ion_data self)) k = Some n ->
    exists Nb inj x y g h,
      nth_error (ion_Nb_data t) k = Some (n, Nb) /\
      nth_error (ion_gamma_inj_data t) k = Some (n, inj) /\
      dict_get Nb "Nb_LEIR" = Some (Some x) /\
      dict_get (snd (df_row df k)) "LEIR_space_charge_limit" = Some (Some (VFloat x)) /\
      dict_get Nb "Nb_SPS" = Some (Some y) /\
      dict_get (snd (df_row df k)) "SPS_spaceChargeLimit" = Some (Some (VFloat y)) /\
      dict_get inj "LEIR" = Some (Some g) /\
      dict_get (snd (df_row df k)) "LEIR_gamma" = Some (Some (VFloat g)) /\
      dict_get inj "SPS" = Some (Some h) /\
      dict_get (snd (df_row df k)) "SPS_inj_gamma" = Some (Some (VFloat h)).
Proof.
  intros Hsim Hbatch k n Hk.
  destruct (limit_tables_OK _ _ _ _ _ Hsim k n Hk)
    as (l & p & s & (s1 & s2 & Hinit & Hstages & Hl & Hp & Hs) & EN & EI & _).
  destruct (batch_cells _ _ _ Hbatch k n Hk)
    as (res & (s1' & s2' & Hinit' & Hcalc) & _ & Hcells).
  assert (s1' = s1) by congruence. subst s1'.
  destruct (calculate_entries _ _ _ Hcalc)
    as (i & r & l' & p' & s' & m & _ & _ & Hstages' & Hl' & Hp' & Hs' & H).
  assert (s2' = s2) by congruence. subst s2'.
  assert (l' = l) by congruence. assert (s' = s) by congruence. subst l' s'.
  cbv zeta in H.
  destruct H as (_ & _ & _ & _ & D1 & D2 & _ & _ & _ & _ & _ & D3 & D4 & _ & _ & _ & N1 & N2).
  rewrite <- N1 in D1. rewrite <- N2 in D3.
  do 6 eexists. split; [exact EN |]. split; [exact EI |].
  split; [reflexivity |].
  split; [rewrite Hcells by discriminate; rewrite D1; reflexivity |].
  split; [reflexivity |].
  split; [rewrite Hcells by discriminate; rewrite D3; reflexivity |].
  split; [reflexivity |].
  split; [rewrite Hcells by discriminate; rewrite D2; reflexivity |].
  split; [reflexivity |].
  rewrite Hcells by discriminate. rewrite D4. reflexivity.
Qed.

(** ** The file the constructor reads *)

(** X22: the constructor reads the file of precomputed gammas that its
    arguments [LEIR_PS_strip] and [higher_brho_LEIR] select, also when
    [use_gammas_ref] is off: when the file cannot be read the constructor
    raises the error of reading it, and the object it returns holds the
    table read from that file. *)
Theorem constructor_reads_file (read_csv : string -> result (EnergyTable num))
    (a : Args num) :
  let path :=
    "../data/ion_injection_energies_"
    ++ (if arg_LEIR_PS_strip a then "LEIR_PS_strip" else "PS_SPS_strip")
    ++ (if arg_higher_brho_LEIR a then "_higher_brho_LEIR" else "") ++ ".csv" in
  (forall err, read_csv path = Raise err -> __init__ read_csv a = Raise err) /\
  (forall self, __init__ read_csv a = OK self ->
                read_csv path = OK (ion_energy_data self)).
Proof.
  intros path.
  assert (Hpath : (if arg_LEIR_PS_strip a
                   then read_csv ("../data/ion_injection_energies_LEIR_PS_strip"
                                  ++ (if arg_higher_brho_LEIR a
                                      then "_higher_brho_LEIR" else "") ++ ".csv")
                   else read_csv ("../data/ion_injection_energies_PS_SPS_strip"
                                  ++ (if arg_higher_brho_LEIR a
                                      then "_higher_brho_LEIR" else "") ++ ".csv"))
                  = read_csv path).
  { unfold path. destruct (arg_LEIR_PS_strip a), (arg_higher_brho_LEIR a); reflexivity. }
  unfold __init__. rewrite Hpath. clearbody path. split.
  - intros err ->. reflexivity.
  - intros self H. destruct (read_csv path) as [t | err]; simpl in H; [| discriminate H].
    inv_ok.
    match goal with
    | H1 : init_ion _ _ = OK ?s1, H2 : ion0_referenceValues ?s1 = OK _ |- _ =>
        destruct (init_ion_OK _ _ _ H1) as (_ & _ & _ & _ & _ & (_ & _ & _ & _ & C & _) & _);
        destruct (ion0_referenceValues_OK _ _ H2) as (? & _ & _ & ->)
    end.
    simpl in *. congruence.
Qed.

End AllIons.

(** ** The further properties on the example objects *)

Section FurtherBinary64.

Lemma calculate_idempotent_witness :
  exists res self',
    calculate_LHC_bunch_intensity example_object64 = OK (res, self') /\
    calculate_LHC_bunch_intensity self' = OK (res, self').
Proof.
  destruct (calculate_LHC_bunch_intensity example_object64)
    as [[res self'] | err] eqn:E; [| vm_compute in E; discriminate E].
  exists res, self'. split; [reflexivity |].
  exact (calculate_idempotent example_object64 res self' E).
Defined.

Lemma init_ion_overwrites_witness :
  exists self1,
    init_ion example_object64 "O" = OK self1 /\
    init_ion self1 "Pb" = init_ion example_object64 "Pb".
Proof.
  destruct (init_ion example_object64 "O") as [self1 | err] eqn:E;
    [| vm_compute in E; discriminate E].
  exists self1. split; [reflexivity |].
  exact (init_ion_overwrites example_object64 "O" self1 "Pb" E).
Defined.

Lemma example_object_no_uranium :
  ~ In "U" (columns (full_ion_data example_object64)).
Proof. vm_compute. intros [H | [H | []]]; discriminate H. Qed.

Lemma unknown_ion_raises_witness :
  ~ In "U" (columns (full_ion_data example_object64)) /\
  init_ion example_object64 "U" = Raise (KeyError "U") /\
  forall a : Args PrimFloat.float,
    arg_ion_data a = full_ion_data example_object64 -> arg_ion_type a = "U" ->
    exists err, __init__ no_energies64 a = Raise err.
Proof.
  split; [exact example_object_no_uranium |].
  exact (unknown_ion_raises no_energies64 example_object64 "U" example_object_no_uranium).
Defined.

Lemma repeated_object_constructed :
  __init__ no_energies64 (default_args "O" repeated_table) = OK repeated_object.
Proof. vm_compute. reflexivity. Qed.

Lemma repeated_object_label :
  (2 <= count_occ string_dec (columns (full_ion_data repeated_object)) "Pb")%nat.
Proof. vm_compute. apply le_n. Qed.

Lemma repeated_label_raises_witness :
  (2 <= count_occ string_dec (columns (full_ion_data repeated_object)) "Pb")%nat /\
  init_ion repeated_object "Pb" = Raise (KeyError "mass [GeV]") /\
  exists err, calculate_LHC_bunch_intensity_all_ion_species repeated_object = Raise err.
Proof.
  split; [exact repeated_object_label |].
  exact (repeated_label_raises repeated_object "Pb" repeated_object_label).
Defined.

Lemma partial_object_constructed :
  __init__ (num := PrimFloat.float) twin_energies partial_args = OK partial_object.
Proof. vm_compute. reflexivity. Qed.

Lemma partial_object_no_row :
  ~ In (str 4 ++ "O" ++ str 16) (map fst (ion_energy_data partial_object)).
Proof. vm_compute. intros [H | [H | []]]; discriminate H. Qed.

Lemma missing_energy_row_raises_witness :
  use_gammas_ref partial_object = true /\
  column (full_ion_data partial_object) "O" = OK O_data /\
  ntrunc (row_Q_before_stripping (O_data (num := PrimFloat.float))) = OK 4%Z /\
  ntrunc (row_A (O_data (num := PrimFloat.float))) = OK 16%Z /\
  ~ In (str 4 ++ "O" ++ str 16) (map fst (ion_energy_data partial_object)) /\
  init_ion partial_object "O" = Raise (KeyError (str 4 ++ "O" ++ str 16)).
Proof.
  assert (H1 : use_gammas_ref partial_object = true) by (vm_compute; reflexivity).
  assert (H2 : column (full_ion_data partial_object) "O" = OK O_data)
    by (vm_compute; reflexivity).
  assert (H3 : ntrunc (row_Q_before_stripping (O_data (num := PrimFloat.float))) = OK 4%Z)
    by (vm_compute; reflexivity).
  assert (H4 : ntrunc (row_A (O_data (num := PrimFloat.float))) = OK 16%Z)
    by (vm_compute; reflexivity).
  repeat (split; [assumption || exact partial_object_no_row |]).
  exact (missing_energy_row_raises partial_object "O" O_data 4 16 H1 H2 H3 H4
           partial_object_no_row).
Defined.




End FurtherBinary64.

(** * Further properties in IEEE 754 binary64 *)

Section FurtherFloats.
Import SpecFloat FloatOps.

(** ** Zero and NaN from the source *)





(** A comparison with NaN is false. *)
Lemma ltb_nan_l (x y : PrimFloat.float) :
  PrimFloat.is_nan x = true -> PrimFloat.ltb x y = false.
Proof.
  intros H. rewrite FloatAxioms.ltb_spec, (Prim2SF_is_nan x H). reflexivity.
Qed.

#[local] Arguments B64.ceil : simpl never.
#[local] Arguments B64.trunc : simpl never.
#[local] Arguments e : simpl never.
#[local] Arguments beta : simpl never.
#[local] Arguments pow2 : simpl never.




(** X24: a NaN of the source does not reach the result.  With a fixed
    number of pulses and a Linac3 current that is NaN, the intensities
    extracted from LEIR and from the PS are NaN, but the built-in [min]
    returns its first argument when the second is NaN: with the PS space
    charge limit considered, the intensity injected into the SPS is that
    limit times the transmission or stripping efficiency; without it, the
    intensity accelerated in the SPS is the SPS space charge limit. *)
Theorem nan_current_is_dropped
    (self : InjectorChain PrimFloat.float) (i : IonAttrs PrimFloat.float)
    (res : dict (value PrimFloat.float)) (self' : InjectorChain PrimFloat.float) :
  ion self = Some i -> nisnan (linac3_current i) = true ->
  calculate_LHC_bunch_intensity self = OK (res, self') ->
  exists ext extPS sclPS sclSPS,
    dict_get res "LEIR_extractedIonPerBunch" = Some (VFloat ext) /\ nisnan ext = true /\
    dict_get res "PS_ionsExtractedPerBunch" = Some (VFloat extPS) /\ nisnan extPS = true /\
    dict_get res "PS_space_charge_limit" = Some (VFloat sclPS) /\
    dict_get res "SPS_spaceChargeLimit" = Some (VFloat sclSPS) /\
    (consider_PS_space_charge_limit self = true ->
     dict_get res "SPS_maxIntensityPerBunch"
     = Some (VFloat (nmul sclPS
                       (if neqb (ion_Z i) (ion_Q i) || LEIR_PS_strip self
                        then PS_SPS_transmission_efficiency i
                        else PS_SPS_stripping_efficiency i)))) /\
    (consider_PS_space_charge_limit self = false ->
     dict_get res "SPS_accIntensity" = Some (VFloat sclSPS) /\
     dict_get res "LHC_ionsPerBunch"
     = Some (VFloat (nmul (nmul sclSPS (SPS_transmission i))
                          (SPS_slipstacking_transmission i)))).
Proof.
  intros Hi Hnan Hcalc.
  destruct (calculate_entries _ _ _ Hcalc)
    as (i' & r & l & p & s & n & Hi' & _ & _ & _ & _ & _ & H).
  assert (i' = i) by congruence. subst i'.
  cbv zeta in H.
  destruct H as (_ & _ & _ & _ & _ & _ & Dext & DsclPS & DextPS & _ & Dinj & DsclSPS & _
                 & Dacc & Dlhc & _).
  simpl in Hnan.
  assert (Htot : forall x y z : PrimFloat.float,
            PrimFloat.is_nan
              (nmul (nmul (ndiv (nmul (linac3_current i) x) y) z)
                    (LEIR_injection_efficiency i)) = true).
  { intros x y z. simpl. apply mul_nan_l, mul_nan_l, div_nan_l, mul_nan_l. exact Hnan. }
  do 4 eexists.
  split; [exact Dext |]. split.
  { simpl. apply div_nan_l, mul_nan_r. unfold np_min. simpl.
    rewrite (Htot _ _ _). apply Htot. }
  assert (Hext : forall T B : PrimFloat.float,
            PrimFloat.is_nan (ndiv (nmul T (np_min
              (nmul (nmul (ndiv (nmul (linac3_current i) (linac3_pulseLength i))
                                (nmul (ion_Q i) e)) (nofZ n))
                    (LEIR_injection_efficiency i))
              (nmul (Nb0_LEIR_extr r)
                 (nmul (nmul (nmul (ndiv (mass_GeV i) (m0_GeV r))
                                   (pow2 (ndiv (Q0_LEIR r) (ion_Q i))))
                             (ndiv (beta (gamma_LEIR_extr l)) (beta (gamma0_LEIR_extr r))))
                       (pow2 (ndiv (gamma_LEIR_extr l) (gamma0_LEIR_extr r))))))) B) = true).
  { intros T B. simpl. apply div_nan_l, mul_nan_r. unfold np_min. simpl.
    rewrite (Htot _ _ _). apply Htot. }
  assert (HextPS : forall T B f P S : PrimFloat.float,
            PrimFloat.is_nan (ndiv (nmul (nmul (ndiv (nmul T (np_min
              (nmul (nmul (ndiv (nmul (linac3_current i) (linac3_pulseLength i))
                                (nmul (ion_Q i) e)) (nofZ n))
                    (LEIR_injection_efficiency i))
              (nmul (Nb0_LEIR_extr r)
                 (nmul (nmul (nmul (ndiv (mass_GeV i) (m0_GeV r))
                                   (pow2 (ndiv (Q0_LEIR r) (ion_Q i))))
                             (ndiv (beta (gamma_LEIR_extr l)) (beta (gamma0_LEIR_extr r))))
                       (pow2 (ndiv (gamma_LEIR_extr l) (gamma0_LEIR_extr r))))))) B) f) P) S)
            = true).
  { intros T B f P S. simpl. apply div_nan_l, mul_nan_l, mul_nan_l. apply Hext. }
  split; [exact DextPS |]. split; [apply HextPS |].
  split; [exact DsclPS |]. split; [exact DsclSPS |].
  split.
  - intros Hc. rewrite Hc in Dinj. rewrite Dinj. do 3 f_equal.
    unfold py_min. simpl. rewrite ltb_nan_l by apply HextPS. reflexivity.
  - intros Hc. rewrite Hc in Dacc, Dlhc.
    assert (Hmin : forall a f : PrimFloat.float,
              py_min a (nmul (ndiv (nmul (nmul (ndiv (nmul (LEIR_transmission i) (np_min
                (nmul (nmul (ndiv (nmul (linac3_current i) (linac3_pulseLength i))
                                  (nmul (ion_Q i) e)) (nofZ n))
                      (LEIR_injection_efficiency i))
                (nmul (Nb0_LEIR_extr r)
                   (nmul (nmul (nmul (ndiv (mass_GeV i) (m0_GeV r))
                                     (pow2 (ndiv (Q0_LEIR r) (ion_Q i))))
                               (ndiv (beta (gamma_LEIR_extr l)) (beta (gamma0_LEIR_extr r))))
                         (pow2 (ndiv (gamma_LEIR_extr l) (gamma0_LEIR_extr r)))))))
                (nofZ (LEIR_bunches self)))
                (if LEIR_PS_strip self then LEIR_PS_stripping_efficiency i else nofZ 1))
                (PS_transmission i)) (nofZ (PS_splitting self))) f) = a).
    { intros a f. unfold py_min. simpl. rewrite ltb_nan_l; [reflexivity |].
      apply mul_nan_l. apply HextPS. }
    rewrite Hmin in Dacc, Dlhc. split; assumption.
Qed.

End FurtherFloats.

(** ** The tables of the example object *)

Section AllIonsBinary64.

Lemma limit_tables_rows_witness :
  exists ret t self',
    simulate_SpaceCharge_intensity_limit_all_ions example_object64 true = OK (ret, t, self') /\
    ret = Some (ion_Nb_data t) /\
    map fst (ion_Nb_data t) = columns (full_ion_data example_object64) /\
    map fst (ion_gamma_inj_data t) = columns (full_ion_data example_object64) /\
    map fst (ion_gamma_extr_data t) = columns (full_ion_data example_object64) /\
    exists self1 self2 i l p s,
      init_ion example_object64 "O" = OK self1 /\
      simulate_injection_SpaceCharge_limit self1 = OK self2 /\
      ion self1 = Some i /\
      leir_out self2 = Some l /\ ps_out self2 = Some p /\ sps_out self2 = Some s /\
      Nq_LEIR_extr l = nmul (Nb_LEIR_extr l) (ion_Q i) /\
      Nq_PS_extr p = nmul (Nb_PS_extr p) (ion_Q i) /\
      Nq_SPS_extr s = nmul (Nb_SPS_extr s) (ion_Z i) /\
      nth_error (ion_Nb_data t) 1
      = Some ("O", [("Nb_LEIR", Some (Nb_LEIR_extr l)); ("Nq_LEIR", Some (Nq_LEIR_extr l));
                    ("Nb_PS", Some (Nb_PS_extr p)); ("Nq_PS", Some (Nq_PS_extr p));
                    ("Nb_SPS", Some (Nb_SPS_extr s)); ("Nq_SPS", Some (Nq_SPS_extr s))]) /\
      nth_error (ion_gamma_inj_data t) 1
      = Some ("O", [("LEIR", Some (gamma_LEIR_inj l)); ("PS", Some (gamma_PS_inj p));
                    ("SPS", Some (gamma_SPS_inj s))]) /\
      nth_error (ion_gamma_extr_data t) 1
      = Some ("O", [("LEIR", Some (gamma_LEIR_extr l)); ("PS", Some (gamma_PS_extr p));
                    ("SPS", Some (gamma_SPS_extr s))]).
Proof.
  destruct (simulate_SpaceCharge_intensity_limit_all_ions example_object64 true)
    as [[[ret t] self'] | err] eqn:E; [| vm_compute in E; discriminate E].
  destruct (limit_tables_rows example_object64 true ret t self' E)
    as (H1 & H2 & H3 & H4 & H5).
  exists ret, t, self'. split; [reflexivity |].
  repeat (split; [assumption |]).
  apply (H5 1%nat "O"). vm_compute. reflexivity.
Defined.

Lemma batch_rows_are_single_results_witness :
  exists df self' self1 res self2,
    calculate_LHC_bunch_intensity_all_ion_species example_object64 = OK (df, self') /\
    nth_error (columns (full_ion_data example_object64)) 1 = Some "O" /\
    init_ion example_object64 "O" = OK self1 /\
    calculate_LHC_bunch_intensity self1 = OK (res, self2) /\
    fst (df_row df 1) = Some (VStr "O") /\
    dict_get res "Ion" = Some (VStr "O") /\
    forall key, key <> "Ion" ->
      dict_get (snd (df_row df 1)) key = option_map Some (dict_get res key).
Proof.
  destruct (calculate_LHC_bunch_intensity_all_ion_species example_object64)
    as [[df self'] | err] eqn:E; [| vm_compute in E; discriminate E].
  assert (Hk : nth_error (columns (full_ion_data example_object64)) 1 = Some "O")
    by (vm_compute; reflexivity).
  destruct (batch_rows_are_single_results example_object64 df self' E 1%nat "O" Hk)
    as (self1 & res & self2 & H).
  exists df, self', self1, res, self2. split; [reflexivity |]. split; [exact Hk | exact H].
Defined.

Lemma limit_tables_agree_with_batch_witness :
  exists ret t self1 df self2 Nb inj x y g h,
    simulate_SpaceCharge_intensity_limit_all_ions example_object64 true = OK (ret, t, self1) /\
    calculate_LHC_bunch_intensity_all_ion_species example_object64 = OK (df, self2) /\
    nth_error (columns (full_ion_data example_object64)) 1 = Some "O" /\
    nth_error (ion_Nb_data t) 1 = Some ("O", Nb) /\
    nth_error (ion_gamma_inj_data t) 1 = Some ("O", inj) /\
    dict_get Nb "Nb_LEIR" = Some (Some x) /\
    dict_get (snd (df_row df 1)) "LEIR_space_charge_limit" = Some (Some (VFloat x)) /\
    dict_get Nb "Nb_SPS" = Some (Some y) /\
    dict_get (snd (df_row df 1)) "SPS_spaceChargeLimit" = Some (Some (VFloat y)) /\
    dict_get inj "LEIR" = Some (Some g) /\
    dict_get (snd (df_row df 1)) "LEIR_gamma" = Some (Some (VFloat g)) /\
    dict_get inj "SPS" = Some (Some h) /\
    dict_get (snd (df_row df 1)) "SPS_inj_gamma" = Some (Some (VFloat h)).
Proof.
  destruct (simulate_SpaceCharge_intensity_limit_all_ions example_object64 true)
    as [[[ret t] self1] | err] eqn:E1; [| vm_compute in E1; discriminate E1].
  destruct (calculate_LHC_bunch_intensity_all_ion_species example_object64)
    as [[df self2] | err] eqn:E2; [| vm_compute in E2; discriminate E2].
  assert (Hk : nth_error (columns (full_ion_data example_object64)) 1 = Some "O")
    by (vm_compute; reflexivity).
  destruct (limit_tables_agree_with_batch example_object64 true ret t self1 df self2
              E1 E2 1%nat "O" Hk) as (Nb & inj & x & y & g & h & H).
  exists ret, t, self1, df, self2, Nb, inj, x, y, g, h.
  split; [reflexivity |]. split; [reflexivity |]. split; [exact Hk | exact H].
Defined.

Lemma unknown_source_object_constructed :
  __init__ no_energies64 unknown_source_args = OK unknown_source_object.
Proof. vm_compute. reflexivity. Qed.

Lemma nan_current_is_dropped_witness :
  exists i res self' ext extPS sclPS sclSPS,
    ion unknown_source_object = Some i /\ nisnan (linac3_current i) = true /\
    calculate_LHC_bunch_intensity unknown_source_object = OK (res, self') /\
    dict_get res "LEIR_extractedIonPerBunch" = Some (VFloat ext) /\ nisnan ext = true /\
    dict_get res "PS_ionsExtractedPerBunch" = Some (VFloat extPS) /\ nisnan extPS = true /\
    dict_get res "PS_space_charge_limit" = Some (VFloat sclPS) /\
    dict_get res "SPS_spaceChargeLimit" = Some (VFloat sclSPS) /\
    (consider_PS_space_charge_limit unknown_source_object = true ->
     dict_get res "SPS_maxIntensityPerBunch"
     = Some (VFloat (nmul sclPS
                       (if neqb (ion_Z i) (ion_Q i) || LEIR_PS_strip unknown_source_object
                        then PS_SPS_transmission_efficiency i
                        else PS_SPS_stripping_efficiency i)))) /\
    (consider_PS_space_charge_limit unknown_source_object = false ->
     dict_get res "SPS_accIntensity" = Some (VFloat sclSPS) /\
     dict_get res "LHC_ionsPerBunch"
     = Some (VFloat (nmul (nmul sclSPS (SPS_transmission i))
                          (SPS_slipstacking_transmission i)))).
Proof.
  destruct (ion unknown_source_object) as [i |] eqn:Hi;
    [| vm_compute in Hi; discriminate Hi].
  assert (Hnan : nisnan (linac3_current i) = true).
  { vm_compute in Hi. injection Hi as <-. vm_compute. reflexivity. }
  destruct (calculate_LHC_bunch_intensity unknown_source_object)
    as [[res self'] | err] eqn:E; [| vm_compute in E; discriminate E].
  destruct (nan_current_is_dropped unknown_source_object i res self' Hi Hnan E)
    as (ext & extPS & sclPS & sclSPS & H).
  exists i, res, self', ext, extPS, sclPS, sclSPS.
  split; [reflexivity |]. split; [exact Hnan |]. split; [reflexivity | exact H].
Defined.

End AllIonsBinary64.

(** * Further properties over the real numbers *)

Section FurtherReals.
Local Open Scope R_scope.

(** ** The relativistic beta *)

Lemma beta_sqr (g : R) : 1 <= g -> beta g * beta g = 1 - 1 / (g * g).
Proof.
  intros Hg. unfold beta, pow2. simpl. apply sqrt_sqrt.
  assert (0 < g * g) by nra.
  assert (1 / (g * g) <= 1).
  { apply (Rmult_le_reg_r (g * g)); [assumption |]. field_simplify; nra. }
  lra.
Qed.

Lemma beta_positive (g : R) : 1 < g -> 0 < beta g.
Proof.
  intros Hg. unfold beta, pow2. simpl. apply sqrt_lt_R0.
  assert (0 < g * g) by nra.
  assert (1 / (g * g) < 1).
  { apply (Rmult_lt_reg_r (g * g)); [assumption |]. field_simplify; nra. }
  lra.
Qed.

(** X9: for a gamma above 1, [beta] is a velocity strictly between 0 and 1
    (in units of c), and gamma is recovered from it as
    [1 / sqrt(1 - beta^2)]. *)
Theorem beta_range (g : R) :
  1 < g -> 0 < beta g < 1 /\ 1 / sqrt (1 - beta g * beta g) = g.
Proof.
  intros Hg. pose proof (beta_positive g Hg) as Hp.
  assert (Hs : beta g * beta g = 1 - 1 / (g * g)) by (apply beta_sqr; lra).
  assert (0 < g * g) by nra.
  assert (0 < 1 / (g * g)) by (apply Rdiv_lt_0_compat; lra).
  split.
  - split; [exact Hp |]. nra.
  - rewrite Hs. replace (1 - (1 - 1 / (g * g))) with ((1 / g) * (1 / g)) by (field; lra).
    rewrite sqrt_square.
    + field. lra.
    + apply Rlt_le, Rdiv_lt_0_compat; lra.
Qed.

Lemma beta_range_witness :
  1 < 2 /\ 0 < beta 2 < 1 /\ 1 / sqrt (1 - beta 2 * beta 2) = 2.
Proof.
  assert (H : 1 < 2) by lra.
  split; [exact H | exact (beta_range 2 H)].
Defined.

(** X10: [beta] is strictly increasing in gamma, from gamma = 1 on. *)
Theorem beta_increasing (g1 g2 : R) : 1 <= g1 -> g1 < g2 -> beta g1 < beta g2.
Proof.
  intros H1 H2. unfold beta, pow2. simpl.
  assert (0 < g1 * g1) by nra. assert (0 < g2 * g2) by nra.
  assert (g1 * g1 < g2 * g2) by nra.
  assert (1 / (g2 * g2) < 1 / (g1 * g1)).
  { unfold Rdiv. rewrite !Rmult_1_l. apply Rinv_lt_contravar; nra. }
  assert (1 / (g1 * g1) <= 1).
  { apply (Rmult_le_reg_r (g1 * g1)); [assumption |]. field_simplify; nra. }
  apply sqrt_lt_1; lra.
Qed.

Lemma beta_increasing_witness : 1 <= 1 /\ 1 < 2 /\ beta 1 < beta 2.
Proof.
  assert (H1 : 1 <= 1) by lra. assert (H2 : 1 < 2) by lra.
  split; [exact H1 |]. split; [exact H2 | exact (beta_increasing 1 2 H1 H2)].
Defined.

#[local] Arguments pow2 : simpl never.
#[local] Arguments beta : simpl never.
#[local] Arguments py_min : simpl never.
#[local] Arguments np_min : simpl never.
#[local] Arguments e : simpl never.

(** ** The linear intensity scaler *)

(** The factor of an ion with the properties of the reference is 1. *)
Lemma intensity_factor_one (N m c g : R) :
  m <> 0 -> c <> 0 -> 1 < g ->
  N * (m / m * pow2 (c / c) * (beta g / beta g) * pow2 (g / g)) = N.
Proof.
  intros Hm Hc Hg. pose proof (beta_positive g Hg) as Hb.
  set (b := beta g) in *. unfold pow2. simpl. field. repeat split; lra.
Qed.

(** X11: [linearIntensityLimit] returns the reference intensity [Nb_0]
    itself for an ion with the mass, the charge and the gamma of the
    reference, when mass and charge are not zero and gamma is above 1. *)
Theorem linearIntensityLimit_reference (self : InjectorChain R) (i : IonAttrs R)
    (m gamma Nb_0 : R) (fully_stripped : bool) :
  ion self = Some i ->
  let charge := if fully_stripped then ion_Z i else ion_Q i in
  charge <> 0 -> m <> 0 -> 1 < gamma ->
  linearIntensityLimit self m gamma Nb_0 charge m gamma fully_stripped = OK Nb_0.
Proof.
  intros Hi charge Hc Hm Hg.
  rewrite (linearIntensityLimit_eq self i) by exact Hi. fold charge.
  f_equal. apply intensity_factor_one; assumption.
Qed.

Lemma example_objectR_ion :
  exists i, ion example_objectR = Some i /\ ion_Z i = 82 /\ ion_Q i = 54 /\
            mass_GeV i = ndec 193687 (-3) /\ ion_A i = 208.
Proof.
  eexists. split; [reflexivity |]. simpl. unfold Ideal.dec. simpl.
  repeat split; lra.
Qed.

Lemma linearIntensityLimit_reference_witness :
  exists i,
    ion example_objectR = Some i /\ ion_Z i <> 0 /\ 5 <> 0 /\ 1 < 7 /\
    linearIntensityLimit example_objectR 5 7 1000 (ion_Z i) 5 7 true = OK 1000.
Proof.
  destruct example_objectR_ion as (i & Hi & HZ & _).
  assert (H1 : ion_Z i <> 0) by lra.
  assert (H2 : 5 <> 0) by lra. assert (H3 : 1 < 7) by lra.
  exists i. repeat (split; [assumption |]).
  exact (linearIntensityLimit_reference example_objectR i 5 7 1000 true Hi H1 H2 H3).
Defined.

(** X12: the intensity [linearIntensityLimit] returns keeps the space
    charge scaling factor of the reference: with the limit as bunch
    intensity, [spaceChargeScalingFactor] of the ion is that of the
    reference ion with its intensity [Nb_0], for the same emittance and
    bunch length. *)
Theorem linearIntensityLimit_keeps_scaling_factor
    (self self0 : InjectorChain R) (i i0 : IonAttrs R)
    (m gamma Nb_0 m_0 gamma_0 epsilon sigma_z Nb : R) (fs fs0 : bool) :
  ion self = Some i -> ion self0 = Some i0 ->
  let charge := if fs then ion_Z i else ion_Q i in
  let charge_0 := if fs0 then ion_Z i0 else ion_Q i0 in
  charge <> 0 -> m <> 0 -> m_0 <> 0 -> 1 < gamma -> 1 < gamma_0 ->
  epsilon <> 0 -> sigma_z <> 0 ->
  linearIntensityLimit self m gamma Nb_0 charge_0 m_0 gamma_0 fs = OK Nb ->
  spaceChargeScalingFactor self Nb m gamma epsilon sigma_z fs
  = spaceChargeScalingFactor self0 Nb_0 m_0 gamma_0 epsilon sigma_z fs0.
Proof.
  intros Hi Hi0 charge charge_0 Hc Hm Hm0 Hg Hg0 He Hs H.
  rewrite (linearIntensityLimit_eq self i) in H by exact Hi.
  injection H as <-. fold charge.
  pose proof (beta_positive gamma Hg) as Hb.
  pose proof (beta_positive gamma_0 Hg0) as Hb0.
  unfold spaceChargeScalingFactor. rewrite Hi, Hi0.
  set (b := beta gamma) in *. set (b0 := beta gamma_0) in *.
  destruct fs, fs0; simpl; f_equal; unfold pow2; simpl; subst charge charge_0;
    simpl in *; field; repeat split; lra.
Qed.

Lemma linearIntensityLimit_keeps_scaling_factor_witness :
  exists i Nb,
    ion example_objectR = Some i /\
    ion_Z i <> 0 /\ 15 <> 0 /\ 194 <> 0 /\ 1 < 8 /\ 1 < 7 /\ 2 <> 0 /\ 3 <> 0 /\
    linearIntensityLimit example_objectR 15 8 1000 (ion_Q i) 194 7 true = OK Nb /\
    spaceChargeScalingFactor example_objectR Nb 15 8 2 3 true
    = spaceChargeScalingFactor example_objectR 1000 194 7 2 3 false.
Proof.
  destruct example_objectR_ion as (i & Hi & HZ & _).
  destruct (linearIntensityLimit example_objectR 15 8 1000 (ion_Q i) 194 7 true)
    as [Nb | err] eqn:E.
  2: { rewrite (linearIntensityLimit_eq example_objectR i) in E by exact Hi.
       discriminate E. }
  assert (H1 : ion_Z i <> 0) by lra.
  assert (H2 : 15 <> 0) by lra. assert (H3 : 194 <> 0) by lra.
  assert (H4 : 1 < 8) by lra. assert (H5 : 1 < 7) by lra.
  assert (H6 : 2 <> 0) by lra. assert (H7 : 3 <> 0) by lra.
  exists i, Nb. repeat (split; [assumption || reflexivity |]).
  exact (linearIntensityLimit_keeps_scaling_factor example_objectR example_objectR i i
           15 8 1000 194 7 2 3 Nb true false Hi Hi H1 H2 H3 H4 H5 H6 H7 E).
Defined.



(** ** The gammas of the stages *)

(** A total energy above the rest energy gives a gamma above 1. *)
Lemma gamma_above_one (m E A : R) : 0 < m -> 0 < E -> 0 < A -> 1 < (m + E * A) / m.
Proof.
  intros Hm HE HA. apply (Rmult_lt_reg_r m); [exact Hm |].
  unfold Rdiv. rewrite Rmult_assoc, Rinv_l by lra. nra.
Qed.

Lemma Pb_reference_gammas (T : R) :
  let r := Pb_reference T in
  1 < gamma0_LEIR_inj r /\ 1 < gamma0_LEIR_extr r /\ 1 < gamma0_PS_inj r /\
  1 < gamma0_PS_extr r /\ 1 < gamma0_SPS_inj r /\ 1 < gamma0_SPS_extr r /\
  0 < E_kin_per_A_LEIR_inj r /\ 0 < E_kin_per_A_LEIR_extr r /\
  0 < E_kin_per_A_PS_inj r /\ 0 < E_kin_per_A_PS_extr r /\
  0 < E_kin_per_A_SPS_inj r /\ 0 < E_kin_per_A_SPS_extr r.
Proof.
  unfold Pb_reference. simpl. unfold Ideal.dec. simpl.
  repeat split; try (apply gamma_above_one; lra); lra.
Qed.

(** The gamma of equal magnetic rigidity, for a charge-to-mass ratio
    [ratio] relative to the reference. *)
Lemma rigidity_gamma_bounds (ratio g0 : R) :
  1 < g0 -> 0 <= ratio ->
  let g := sqrt (1 + pow2 ratio * (pow2 g0 - 1)) in
  1 <= g /\ (0 < ratio -> 1 < g) /\ (ratio <= 1 -> g <= g0) /\ (ratio = 1 -> g = g0) /\
  (1 <= ratio -> g0 <= g).
Proof.
  intros Hg Hr g. unfold pow2 in *. simpl in *.
  assert (H0 : 0 <= ratio * ratio * (g0 * g0 - 1)) by (apply Rmult_le_pos; nra).
  assert (Hg0 : sqrt (g0 * g0) = g0) by (apply sqrt_square; lra).
  split; [| split; [| split; [| split]]].
  - rewrite <- sqrt_1 at 1. apply sqrt_le_1; lra.
  - intros Hp. rewrite <- sqrt_1 at 1. apply sqrt_lt_1; try lra.
    assert (0 < ratio * ratio * (g0 * g0 - 1)) by (apply Rmult_lt_0_compat; nra). lra.
  - intros Hle. assert (ratio * ratio <= 1) by nra.
    assert (ratio * ratio * (g0 * g0 - 1) <= 1 * (g0 * g0 - 1))
      by (apply Rmult_le_compat_r; nra).
    apply Rle_trans with (sqrt (g0 * g0)); [apply sqrt_le_1; nra | lra].
  - intros ->. unfold g. transitivity (sqrt (g0 * g0)); [f_equal; ring | exact Hg0].
  - intros Hge. assert (1 <= ratio * ratio) by nra.
    assert (1 * (g0 * g0 - 1) <= ratio * ratio * (g0 * g0 - 1))
      by (apply Rmult_le_compat_r; nra).
    apply Rle_trans with (sqrt (g0 * g0)); [lra | apply sqrt_le_1; nra].
Qed.

(** On an object in the physical domain the stages run, and every gamma
    they assign is above 1. *)
Lemma simulate_gammas_physical
    (read_csv : string -> result (EnergyTable R)) (a : Args R) (self : InjectorChain R) :
  reachable read_csv a self -> physical self ->
  exists self' l p s,
    simulate_injection_SpaceCharge_limit self = OK self' /\
    leir_out self' = Some l /\ ps_out self' = Some p /\ sps_out self' = Some s /\
    1 < gamma_LEIR_inj l /\ 1 < gamma_LEIR_extr l /\
    1 < gamma_PS_inj p /\ 1 < gamma_PS_extr p /\
    1 < gamma_SPS_inj s /\ 1 < gamma_SPS_extr s.
Proof.
  intros Hreach Hphys.
  destruct (reachable_initialised read_csv a self Hreach)
    as (_ & _ & _ & _ & _ & _ & _ & _ & _ & Hrod & _ & _ & (T & HT & Hr)).
  destruct Hphys as (i & Hi & (Hm & HZ & HQ & HA) & _ & _ & _ & _ & Hen).
  destruct (Pb_reference_positive T HT) as (_ & _ & _ & Hm0).
  pose proof (Pb_reference_gammas T) as G. cbv zeta in G.
  destruct G as (_ & _ & _ & _ & G5 & _ & E1 & E2 & E3 & E4 & E5 & E6).
  remember (Pb_reference T) as r eqn:Er. clear Er HT Hreach.
  destruct self as [fid strip hb ugr ied dm acc cons nP LB PSs itr sp urg io eo ro lo po so].
  simpl in *. subst.
  unfold simulate_injection_SpaceCharge_limit, leir, ps, sps, linearIntensityLimit.
  simpl.
  destruct ugr; simpl.
  - destruct (Hen eq_refl) as (en & -> & H1 & H2 & H3 & H4 & H5 & H6). simpl.
    do 4 eexists. repeat (split; [reflexivity |]). simpl. tauto.
  - do 4 eexists. repeat (split; [reflexivity |]). simpl.
    repeat (split; [apply gamma_above_one; assumption |]).
    split; [| apply gamma_above_one; assumption].
    apply rigidity_gamma_bounds; [exact G5 | |].
    + apply Rlt_le, Rdiv_lt_0_compat; [| apply Rdiv_lt_0_compat; lra].
      destruct strip; apply Rdiv_lt_0_compat; lra.
    + apply Rdiv_lt_0_compat; [| apply Rdiv_lt_0_compat; lra].
      destruct strip; apply Rdiv_lt_0_compat; lra.
Qed.

(** The scaled intensity is positive for gammas above 1. *)
Lemma intensity_positive (Nb_0 m m_0 charge_0 charge gamma gamma_0 : R) :
  0 < Nb_0 -> 0 < m -> 0 < m_0 -> 0 < charge_0 -> 0 < charge ->
  1 < gamma -> 1 < gamma_0 ->
  0 < Nb_0 * (m / m_0 * pow2 (charge_0 / charge) * (beta gamma / beta gamma_0)
              * pow2 (gamma / gamma_0)).
Proof.
  intros HN Hm Hm0 Hc0 Hc Hg Hg0.
  pose proof (beta_positive gamma Hg). pose proof (beta_positive gamma_0 Hg0).
  assert (Hp : forall x, 0 < x -> 0 < pow2 x) by (intros x Hx; unfold pow2; simpl; nra).
  apply Rmult_lt_0_compat; [exact HN |].
  apply Rmult_lt_0_compat; [| apply Hp, Rdiv_lt_0_compat; lra].
  apply Rmult_lt_0_compat; [| apply Rdiv_lt_0_compat; assumption].
  apply Rmult_lt_0_compat; [| apply Hp]; apply Rdiv_lt_0_compat; assumption.
Qed.


(** X14: on an object the constructor returned, with an ion in the
    physical domain (positive mass, mass number and charges; precomputed
    gammas above 1 when they are used), the stages raise nothing, every
    gamma they assign is above 1, the gamma of equal rigidity included, and
    the three intensity limits they assign are positive: no root of a
    negative number and no division by zero occurs. *)
Theorem stages_physical
    (read_csv : string -> result (EnergyTable R)) (a : Args R) (self : InjectorChain R) :
  reachable read_csv a self -> physical self ->
  exists self' l p s,
    simulate_injection_SpaceCharge_limit self = OK self' /\
    leir_out self' = Some l /\ ps_out self' = Some p /\ sps_out self' = Some s /\
    1 < gamma_LEIR_inj l /\ 1 < gamma_LEIR_extr l /\
    1 < gamma_PS_inj p /\ 1 < gamma_PS_extr p /\
    1 < gamma_SPS_inj s /\ 1 < gamma_SPS_extr s /\
    0 < Nb_LEIR_extr l /\ 0 < Nb_PS_extr p /\ 0 < Nb_SPS_extr s.
Proof.
  intros Hreach Hphys.
  destruct (simulate_gammas_physical read_csv a self Hreach Hphys)
    as (self' & l & p & s & Hsim & Hl & Hp & Hs & G1 & G2 & G3 & G4 & G5 & G6).
  exists self', l, p, s.
  do 10 (split; [assumption |]).
  destruct (reachable_initialised read_csv a self Hreach)
    as (_ & _ & _ & _ & _ & _ & _ & _ & _ & _ & _ & _ & (T & HT & Hr)).
  destruct Hphys as (i & Hi & (Hm & HZ & HQ & HA) & _).
  destruct (Pb_reference_positive T HT) as (HN1 & HN2 & HN3 & Hm0).
  pose proof (Pb_reference_gammas T) as G. cbv zeta in G.
  destruct G as (_ & R2 & _ & R4 & R5 & _).
  assert (HQ0 : 0 < Q0_LEIR (Pb_reference T) /\ 0 < Q0_PS (Pb_reference T)
                /\ 0 < Q0_SPS (Pb_reference T))
    by (simpl; unfold Ideal.dec; simpl; repeat split; lra).
  destruct HQ0 as (HQ1 & HQ2 & HQ3).
  remember (Pb_reference T) as r eqn:Er. clear Er HT Hreach.
  destruct (simulate_OK _ _ Hsim) as (l' & p' & s' & Hleir & Hps & Hsps & Hself').
  rewrite Hself' in Hl, Hp, Hs. simpl in Hl, Hp, Hs.
  injection Hl as ->. injection Hp as ->. injection Hs as ->.
  destruct (leir_OK _ _ Hleir) as (i1 & r1 & l' & Hi1 & Hr1 & El & Nl & _).
  apply (f_equal leir_out) in El. simpl in El. injection El as <-.
  destruct (ps_OK _ _ Hps) as (i2 & r2 & p' & Hi2 & Hr2 & Ep & Np & _).
  apply (f_equal ps_out) in Ep. simpl in Ep. injection Ep as <-.
  destruct (sps_OK _ _ Hsps) as (i3 & r3 & s' & Hi3 & Hr3 & Es & Ns & _).
  rewrite Hself' in Es. apply (f_equal sps_out) in Es. simpl in Es. injection Es as <-.
  simpl in Hi2, Hr2, Hi3, Hr3.
  assert (i1 = i) by congruence. assert (i2 = i) by congruence.
  assert (i3 = i) by congruence. assert (r1 = r) by congruence.
  assert (r2 = r) by congruence. assert (r3 = r) by congruence. subst.
  rewrite (linearIntensityLimit_eq _ i) in Nl by assumption.
  rewrite (linearIntensityLimit_eq _ i) in Np by assumption.
  rewrite (linearIntensityLimit_eq _ i) in Ns by assumption.
  injection Nl as <-. injection Np as <-. injection Ns as <-.
  repeat split; apply intensity_positive; assumption.
Qed.

Lemma stages_physical_witness :
  reachable no_energiesR example_argsR example_objectR /\
  physical example_objectR /\
  exists self' l p s,
    simulate_injection_SpaceCharge_limit example_objectR = OK self' /\
    leir_out self' = Some l /\ ps_out self' = Some p /\ sps_out self' = Some s /\
    1 < gamma_LEIR_inj l /\ 1 < gamma_LEIR_extr l /\
    1 < gamma_PS_inj p /\ 1 < gamma_PS_extr p /\
    1 < gamma_SPS_inj s /\ 1 < gamma_SPS_extr s /\
    0 < Nb_LEIR_extr l /\ 0 < Nb_PS_extr p /\ 0 < Nb_SPS_extr s.
Proof.
  assert (Hreach : reachable no_energiesR example_argsR example_objectR)
    by (apply reach_init; reflexivity).
  split; [exact Hreach |]. split; [exact example_objectR_physical |].
  exact (stages_physical no_energiesR example_argsR example_objectR
           Hreach example_objectR_physical).
Defined.

(** X15: with the gammas computed by the formulas, the SPS injection gamma
    that [sps] assigns (the gamma of the magnetic rigidity of the
    reference) is ordered as the charge-to-mass ratio of the ion relative
    to the reference, [(c/54) / (mass_GeV/m0_GeV)] with [c] the charge in the
    PS: it is the reference gamma when the ratio is 1, not above it when
    the ratio is at most 1, and not below it when the ratio is at least
    1. *)
Theorem sps_injection_gamma_order
    (read_csv : string -> result (EnergyTable R)) (a : Args R) (self : InjectorChain R)
    (i : IonAttrs R) (r : ReferenceAttrs R) :
  reachable read_csv a self -> ion self = Some i -> reference self = Some r ->
  use_gammas_ref self = false -> 0 < mass_GeV i ->
  let c := if LEIR_PS_strip self then ion_Z i else ion_Q i in
  let ratio := (c / 54) / (mass_GeV i / m0_GeV r) in
  0 <= c ->
  exists self' s,
    sps self = OK self' /\ sps_out self' = Some s /\
    (ratio = 1 -> gamma_SPS_inj s = gamma0_SPS_inj r) /\
    (ratio <= 1 -> gamma_SPS_inj s <= gamma0_SPS_inj r) /\
    (1 <= ratio -> gamma0_SPS_inj r <= gamma_SPS_inj s).
Proof.
  intros Hreach Hi Hr Hg Hm c ratio Hc.
  destruct (reachable_initialised read_csv a self Hreach)
    as (_ & _ & _ & _ & _ & _ & _ & _ & _ & Hrod & _ & _ & (T & HT & Hr')).
  rewrite Hg in Hrod. simpl in Hrod.
  assert (r = Pb_reference T) by congruence. subst r. clear Hr'.
  destruct (Pb_reference_positive T HT) as (_ & _ & _ & Hm0).
  pose proof (Pb_reference_gammas T) as G. cbv zeta in G.
  destruct G as (_ & _ & _ & _ & G5 & _).
  assert (Hratio : 0 <= ratio).
  { unfold ratio. apply div_nonneg; [apply div_nonneg; lra |].
    apply Rlt_le, Rdiv_lt_0_compat; assumption. }
  destruct (sps_runs self i (Pb_reference T) Hi Hr) as [self' Hrun].
  { rewrite Hg; discriminate. }
  destruct (sps_OK _ _ Hrun) as (i' & r' & s & Hi' & Hr' & -> & _ & _ & Hgam).
  rewrite Hg, Hrod in Hgam. destruct Hgam as [_ Hinj].
  assert (i' = i) by congruence. assert (r' = Pb_reference T) by congruence. subst i' r'.
  exists (set_sps self s), s. split; [exact Hrun |]. split; [reflexivity |].
  rewrite Hinj. change (nofZ 54) with 54. change (nofZ 1) with 1.
  fold c. fold ratio.
  destruct (rigidity_gamma_bounds ratio (gamma0_SPS_inj (Pb_reference T)) G5 Hratio)
    as (_ & _ & H1 & H2 & H3).
  split; [exact H2 |]. split; [exact H1 | exact H3].
Qed.

Lemma sps_injection_gamma_order_witness :
  exists i r self' s,
    reachable no_energiesR example_argsR example_objectR /\
    ion example_objectR = Some i /\ reference example_objectR = Some r /\
    use_gammas_ref example_objectR = false /\ 0 < mass_GeV i /\
    0 <= (if LEIR_PS_strip example_objectR then ion_Z i else ion_Q i) /\
    sps example_objectR = OK self' /\ sps_out self' = Some s /\
    (((if LEIR_PS_strip example_objectR then ion_Z i else ion_Q i) / 54)
     / (mass_GeV i / m0_GeV r) = 1 -> gamma_SPS_inj s = gamma0_SPS_inj r) /\
    (((if LEIR_PS_strip example_objectR then ion_Z i else ion_Q i) / 54)
     / (mass_GeV i / m0_GeV r) <= 1 -> gamma_SPS_inj s <= gamma0_SPS_inj r) /\
    (1 <= ((if LEIR_PS_strip example_objectR then ion_Z i else ion_Q i) / 54)
          / (mass_GeV i / m0_GeV r) -> gamma0_SPS_inj r <= gamma_SPS_inj s).
Proof.
  assert (Hreach : reachable no_energiesR example_argsR example_objectR)
    by (apply reach_init; reflexivity).
  destruct example_objectR_ion as (i & Hi & HZ & HQ & Hm & HA).
  assert (Hr : exists r, reference example_objectR = Some r)
    by (eexists; reflexivity).
  destruct Hr as [r Hr].
  assert (Hg : use_gammas_ref example_objectR = false) by reflexivity.
  assert (Hm' : 0 < mass_GeV i)
    by (rewrite Hm; simpl; unfold Ideal.dec; simpl; lra).
  assert (Hc : 0 <= (if LEIR_PS_strip example_objectR then ion_Z i else ion_Q i))
    by (change (LEIR_PS_strip example_objectR) with false; lra).
  destruct (sps_injection_gamma_order no_energiesR example_argsR example_objectR i r
              Hreach Hi Hr Hg Hm' Hc) as (self' & s & H).
  exists i, r, self', s. repeat (split; [assumption |]). exact H.
Defined.

(** X16: with the gammas computed by the formulas and without LEIR-PS
    stripping, for an ion with the properties of the reference (its mass,
    mass number 208, charge 54 before and 82 after stripping) the stages
    return the reference: the intensities of LEIR, PS and SPS are the
    reference intensities, the numbers of charges are the observed
    [Nq0_LEIR_extr], [Nq0_PS_extr] and [Nq0_SPS_extr], and the SPS injection
    gamma is the reference gamma. *)
Theorem reference_ion_reproduced
    (read_csv : string -> result (EnergyTable R)) (a : Args R) (self : InjectorChain R)
    (i : IonAttrs R) (r : ReferenceAttrs R) :
  reachable read_csv a self -> ion self = Some i -> reference self = Some r ->
  use_gammas_ref self = false -> LEIR_PS_strip self = false ->
  mass_GeV i = m0_GeV r -> ion_A i = 208 -> ion_Q i = Q0_LEIR r -> ion_Z i = Z0 r ->
  exists self' l p s,
    simulate_injection_SpaceCharge_limit self = OK self' /\
    leir_out self' = Some l /\ ps_out self' = Some p /\ sps_out self' = Some s /\
    Nb_LEIR_extr l = Nb0_LEIR_extr r /\ Nq_LEIR_extr l = Nq0_LEIR_extr r /\
    Nb_PS_extr p = Nb0_PS_extr r /\ Nq_PS_extr p = Nq0_PS_extr r /\
    Nb_SPS_extr s = Nb0_SPS_extr r /\ Nq_SPS_extr s = Nq0_SPS_extr r /\
    gamma_SPS_inj s = gamma0_SPS_inj r.
Proof.
  intros Hreach Hi Hr Hg Hstrip Hm HA HQ HZ.
  destruct (reachable_initialised read_csv a self Hreach)
    as (_ & _ & _ & _ & _ & _ & _ & _ & _ & Hrod & _ & _ & (T & HT & Hr')).
  rewrite Hg in Hrod. simpl in Hrod.
  assert (r = Pb_reference T) by congruence. subst r. clear Hr'.
  pose proof (Pb_reference_gammas T) as G. cbv zeta in G.
  destruct G as (_ & G2 & _ & G4 & G5 & _).
  assert (HT0 : T <> 0)
    by (destruct HT as [-> | ->]; simpl; unfold Ideal.dec; simpl; lra).
  destruct self as [fid strip hb ugr ied dm acc cons nP LB PSs itr sp urg io eo ro lo po so].
  simpl in *. subst.
  unfold simulate_injection_SpaceCharge_limit, leir, ps, sps, linearIntensityLimit.
  simpl. rewrite Hm, HA, HQ, HZ.
  do 4 eexists. repeat (split; [reflexivity |]). simpl.
  assert (Hm0 : 0 < Ideal.dec 193687 (-3)) by (unfold Ideal.dec; simpl; lra).
  assert (HQ0 : Ideal.dec 540 (-1) = 54) by (unfold Ideal.dec; simpl; lra).
  assert (HZ0 : 0 < Ideal.dec 820 (-1)) by (unfold Ideal.dec; simpl; lra).
  set (m0 := Ideal.dec 193687 (-3)) in *.
  set (g0 := (m0 + Ideal.dec 59 (-1) * 208) / m0) in *.
  assert (Hratio : Ideal.dec 540 (-1) / 54 / (m0 / m0) = 1)
    by (rewrite HQ0; field; lra).
  rewrite Hratio.
  destruct (rigidity_gamma_bounds 1 g0 G5 ltac:(lra)) as (_ & _ & _ & Hg0 & _).
  cbv zeta in Hg0. rewrite (Hg0 eq_refl).
  rewrite !intensity_factor_one by lra.
  repeat split; field; lra.
Qed.

Lemma reference_ion_reproduced_witness :
  exists i r self' l p s,
    reachable no_energiesR example_argsR example_objectR /\
    ion example_objectR = Some i /\ reference example_objectR = Some r /\
    use_gammas_ref example_objectR = false /\ LEIR_PS_strip example_objectR = false /\
    mass_GeV i = m0_GeV r /\ ion_A i = 208 /\ ion_Q i = Q0_LEIR r /\ ion_Z i = Z0 r /\
    simulate_injection_SpaceCharge_limit example_objectR = OK self' /\
    leir_out self' = Some l /\ ps_out self' = Some p /\ sps_out self' = Some s /\
    Nb_LEIR_extr l = Nb0_LEIR_extr r /\ Nq_LEIR_extr l = Nq0_LEIR_extr r /\
    Nb_PS_extr p = Nb0_PS_extr r /\ Nq_PS_extr p = Nq0_PS_extr r /\
    Nb_SPS_extr s = Nb0_SPS_extr r /\ Nq_SPS_extr s = Nq0_SPS_extr r /\
    gamma_SPS_inj s = gamma0_SPS_inj r.
Proof.
  assert (Hreach : reachable no_energiesR example_argsR example_objectR)
    by (apply reach_init; reflexivity).
  destruct example_objectR_ion as (i & Hi & HZ & HQ & Hm & HA).
  assert (Hr : reference example_objectR = Some (Pb_reference (ndec 62 (-2))))
    by reflexivity.
  assert (Hg : use_gammas_ref example_objectR = false) by reflexivity.
  assert (Hs : LEIR_PS_strip example_objectR = false) by reflexivity.
  assert (H1 : mass_GeV i = m0_GeV (Pb_reference (ndec 62 (-2)))) by exact Hm.
  assert (H2 : ion_Q i = Q0_LEIR (Pb_reference (ndec 62 (-2))))
    by (rewrite HQ; simpl; unfold Ideal.dec; simpl; lra).
  assert (H3 : ion_Z i = Z0 (Pb_reference (ndec 62 (-2))))
    by (rewrite HZ; simpl; unfold Ideal.dec; simpl; lra).
  destruct (reference_ion_reproduced no_energiesR example_argsR example_objectR i _
              Hreach Hi Hr Hg Hs H1 HA H2 H3) as (self' & l & p & s & H).
  exists i, (Pb_reference (ndec 62 (-2))), self', l, p, s.
  repeat (split; [assumption |]). exact H.
Defined.

(** ** The intensities along the chain *)

(** The least integer not below [x]. *)
Lemma ceil_bounds (x : R) : x <= IZR (Ideal.ceil x) < x + 1.
Proof.
  unfold Ideal.ceil. destruct (archimed (- x)) as [H1 H2].
  rewrite minus_IZR. lra.
Qed.

(** A fraction of an intensity, shared among bunches. *)
Lemma shared_le (x t B : R) : 0 <= x -> 0 <= t <= 1 -> 1 <= B -> 0 <= x * t / B <= x.
Proof.
  intros Hx Ht HB. replace (x * t / B) with (t * x / B) by (unfold Rdiv; ring).
  apply extracted_le; assumption.
Qed.


(** X17: on an object the constructor returned, in the physical domain,
    the bunch intensity never grows along the chain: what is delivered to
    the LHC is at most what is injected into the SPS, that at most what is
    extracted from the PS, that at most what is extracted from LEIR, and
    that at most the total intensity injected into LEIR; and the intensity
    injected into the SPS is within the PS space charge limit when that
    limit is considered. *)
Theorem intensity_never_increases
    (read_csv : string -> result (EnergyTable R)) (a : Args R) (self : InjectorChain R) :
  reachable read_csv a self -> physical self ->
  exists res self' tot ext extPS sclPS inj lhc,
    calculate_LHC_bunch_intensity self = OK (res, self') /\
    dict_get res "LEIR_maxIntensity" = Some (VFloat tot) /\
    dict_get res "LEIR_extractedIonPerBunch" = Some (VFloat ext) /\
    dict_get res "PS_ionsExtractedPerBunch" = Some (VFloat extPS) /\
    dict_get res "PS_space_charge_limit" = Some (VFloat sclPS) /\
    dict_get res "SPS_maxIntensityPerBunch" = Some (VFloat inj) /\
    dict_get res "LHC_ionsPerBunch" = Some (VFloat lhc) /\
    0 <= lhc /\ lhc <= inj /\ inj <= extPS /\ extPS <= ext /\ ext <= tot /\
    (consider_PS_space_charge_limit self = true -> inj <= sclPS).
Proof.
  intros Hreach Hphys.
  destruct (reachable_initialised read_csv a self Hreach)
    as (_ & _ & _ & _ & _ & _ & _ & _ & _ & _ & Hen & (i & Hi & Hinit) & (T & HT & Hr)).
  destruct Hphys as (i' & Hi' & (Hm & HZ & HQ & HA) & (Hcur & Hpul) & Heff
                     & (Hb & Hs & Hn) & _ & _).
  assert (i' = i) by congruence. subst i'. clear Hi'.
  destruct (ion_initialised_fractions self i Hinit)
    as (Hie & Hlt & _ & _ & _ & Hst & Hsl).
  destruct Hinit as (_ & _ & _ & _ & _ & _ & _ & _ & _ & _ & Hpt & Hte & _ & Hse & _).
  assert (Hpt' : 0 <= PS_transmission i <= 1)
    by (rewrite Hpt; simpl; unfold Ideal.dec; simpl; lra).
  assert (Hte' : 0 <= PS_SPS_transmission_efficiency i <= 1)
    by (rewrite Hte; simpl; unfold Ideal.dec; simpl; lra).
  assert (Hse' : 0 <= PS_SPS_stripping_efficiency i <= 1)
    by (rewrite Hse; simpl; unfold Ideal.dec; simpl; lra).
  clear Hpt Hte Hse.
  destruct (Pb_reference_positive T HT) as (HN1 & HN2 & HN3 & Hm0).
  pose proof e_positive as He.
  destruct (calculate_runs self _ _ Hi Hr Hen) as (res & self' & Hcalc).
  remember (Pb_reference T) as r eqn:Er. clear Er HT Hen Hreach.
  exists res, self'.
  destruct (calculate_entries self res self' Hcalc)
    as (i' & r' & l & p & s & n & Hi' & Hr' & _ & _ & _ & _ & H).
  assert (i' = i) by congruence. assert (r' = r) by congruence. subst i' r'.
  cbv zeta in H. simpl in H.
  destruct H as (Hpulses & _ & _ & Dtot & _ & _ & Dext & DsclPS & DextPS & _ & Dinj & _ & _ & _ & Dlhc & _).
  rewrite ?py_min_Rmin, ?np_min_Rmin in *.
  assert (Hipp : 0 <= linac3_current i * linac3_pulseLength i / (ion_Q i * e))
    by (apply div_nonneg; apply Rmult_le_pos; lra).
  set (ipp := linac3_current i * linac3_pulseLength i / (ion_Q i * e)) in *.
  assert (Hscl : 0 <= Nb0_LEIR_extr r
                      * (mass_GeV i / m0_GeV r * pow2 (Q0_LEIR r / ion_Q i)
                         * (beta (gamma_LEIR_extr l) / beta (gamma0_LEIR_extr r))
                         * pow2 (gamma_LEIR_extr l / gamma0_LEIR_extr r)))
    by (apply intensity_nonneg; lra).
  set (scl := Nb0_LEIR_extr r * _) in Hscl, Hpulses, Dext, DextPS, Dinj, Dlhc.
  assert (Hn0 : (0 <= n)%Z).
  { destruct (nPulsesLEIR self =? 0)%Z.
    - destruct Hpulses as (c & Hc & ->). injection Hc as <-.
      apply Z.min_glb; [lia |]. apply ceil_nonneg, div_nonneg; [assumption |].
      apply Rmult_le_pos; assumption.
    - subst n. exact Hn. }
  clear Hpulses.
  assert (Htot : 0 <= ipp * IZR n * LEIR_injection_efficiency i)
    by (apply Rmult_le_pos; [apply Rmult_le_pos; [assumption |] | assumption];
        apply IZR_le; exact Hn0).
  set (tot := ipp * IZR n * LEIR_injection_efficiency i) in *.
  assert (HB : 1 <= IZR (LEIR_bunches self)) by (apply IZR_le; exact Hb).
  assert (HS : 1 <= IZR (PS_splitting self)) by (apply IZR_le; exact Hs).
  assert (Hmin : 0 <= Rmin tot scl) by (apply Rmin_nonneg; assumption).
  pose proof (extracted_le (LEIR_transmission i) _ _ Hmin Hlt HB) as Hext.
  pose proof (Rmin_l tot scl) as Hminl.
  set (ext := LEIR_transmission i * Rmin tot scl / IZR (LEIR_bunches self)) in *.
  assert (Hsf : 0 <= (if LEIR_PS_strip self
                      then LEIR_PS_stripping_efficiency i else 1) <= 1)
    by (destruct (LEIR_PS_strip self); lra).
  set (sf := if LEIR_PS_strip self then LEIR_PS_stripping_efficiency i else 1) in *.
  assert (HextPS : 0 <= ext * sf * PS_transmission i / IZR (PS_splitting self) <= ext).
  { assert (H1 : 0 <= ext * sf <= ext) by nra.
    destruct (shared_le (ext * sf) (PS_transmission i) (IZR (PS_splitting self)))
      as [H2 H3]; lra. }
  set (extPS := ext * sf * PS_transmission i / IZR (PS_splitting self)) in *.
  assert (HsclPS : 0 <= Nb0_PS_extr r
                        * (mass_GeV i / m0_GeV r
                           * pow2 (Q0_PS r / (if LEIR_PS_strip self then ion_Z i else ion_Q i))
                           * (beta (gamma_PS_inj p) / beta (gamma0_PS_inj r))
                           * pow2 (gamma_PS_inj p / gamma0_PS_inj r)))
    by (apply intensity_nonneg; lra).
  set (sclPS := Nb0_PS_extr r * _) in HsclPS, DsclPS, Dinj, Dlhc.
  assert (Hpsi : 0 <= (if consider_PS_space_charge_limit self
                       then Rmin sclPS extPS else extPS) <= extPS /\
                 (consider_PS_space_charge_limit self = true ->
                  (if consider_PS_space_charge_limit self
                   then Rmin sclPS extPS else extPS) <= sclPS)).
  { destruct (consider_PS_space_charge_limit self).
    - pose proof (Rmin_l sclPS extPS). pose proof (Rmin_r sclPS extPS).
      assert (0 <= Rmin sclPS extPS) by (apply Rmin_nonneg; lra). lra.
    - split; [lra | discriminate]. }
  set (psi := if consider_PS_space_charge_limit self then Rmin sclPS extPS else extPS) in *.
  match type of Dinj with
  | context [psi * ?g] =>
      assert (Hf : 0 <= g <= 1)
        by (destruct (Req_dec_T (ion_Z i) (ion_Q i)); simpl;
            destruct (LEIR_PS_strip self); assumption);
      set (f := g) in *
  end.
  assert (Hinj : 0 <= psi * f <= psi) by nra.
  set (inj := psi * f) in *.
  assert (HsclSPS : 0 <= Nb0_SPS_extr r
                         * (mass_GeV i / m0_GeV r * pow2 (Q0_SPS r / ion_Z i)
                            * (beta (gamma_SPS_inj s) / beta (gamma0_SPS_inj r))
                            * pow2 (gamma_SPS_inj s / gamma0_SPS_inj r)))
    by (apply intensity_nonneg; lra).
  set (sclSPS := Nb0_SPS_extr r * _) in HsclSPS, Dlhc.
  destruct (transmitted_min_le sclSPS inj (SPS_transmission i)
              (SPS_slipstacking_transmission i)) as [_ Hlhc]; try lra.
  assert (Hlhc0 : 0 <= Rmin sclSPS inj * SPS_transmission i
                       * SPS_slipstacking_transmission i).
  { repeat apply Rmult_le_pos; try lra. apply Rmin_nonneg; lra. }
  do 6 eexists. split; [exact Hcalc |].
  split; [exact Dtot |]. split; [exact Dext |]. split; [exact DextPS |].
  split; [exact DsclPS |]. split; [exact Dinj |]. split; [exact Dlhc |].
  destruct Hpsi as [Hpsi1 Hpsi2].
  do 5 (split; [lra |]). intros Hc. specialize (Hpsi2 Hc). lra.
Qed.


Lemma intensity_never_increases_witness :
  reachable no_energiesR example_argsR example_objectR /\
  physical example_objectR /\
  exists res self' tot ext extPS sclPS inj lhc,
    calculate_LHC_bunch_intensity example_objectR = OK (res, self') /\
    dict_get res "LEIR_maxIntensity" = Some (VFloat tot) /\
    dict_get res "LEIR_extractedIonPerBunch" = Some (VFloat ext) /\
    dict_get res "PS_ionsExtractedPerBunch" = Some (VFloat extPS) /\
    dict_get res "PS_space_charge_limit" = Some (VFloat sclPS) /\
    dict_get res "SPS_maxIntensityPerBunch" = Some (VFloat inj) /\
    dict_get res "LHC_ionsPerBunch" = Some (VFloat lhc) /\
    0 <= lhc /\ lhc <= inj /\ inj <= extPS /\ extPS <= ext /\ ext <= tot /\
    (consider_PS_space_charge_limit example_objectR = true -> inj <= sclPS).
Proof.
  assert (Hreach : reachable no_energiesR example_argsR example_objectR)
    by (apply reach_init; reflexivity).
  split; [exact Hreach |]. split; [exact example_objectR_physical |].
  exact (intensity_never_increases no_energiesR example_argsR example_objectR
           Hreach example_objectR_physical).
Defined.

(** X18: in auto mode ([nPulsesLEIR = 0]), on an object the constructor
    returned, in the physical domain with a source that delivers ions, the
    number of pulses chosen is between 1 and 7, and it is the least that
    reaches the LEIR space charge limit: one pulse less injects less than
    the limit, and unless the number is capped at 7 the total injected
    intensity reaches the limit, so that the extracted intensity is the
    limit times the transmission, per bunch. *)
Theorem auto_pulses_fill_LEIR
    (read_csv : string -> result (EnergyTable R)) (a : Args R) (self : InjectorChain R) :
  reachable read_csv a self -> physical self -> nPulsesLEIR self = 0%Z ->
  exists res self' i n ipp tot scl ext,
    calculate_LHC_bunch_intensity self = OK (res, self') /\
    ion self = Some i /\
    dict_get res "LEIR_numberofPulses" = Some (VInt n) /\
    dict_get res "Linac3_ionsPerPulse" = Some (VFloat ipp) /\
    dict_get res "LEIR_maxIntensity" = Some (VFloat tot) /\
    dict_get res "LEIR_space_charge_limit" = Some (VFloat scl) /\
    dict_get res "LEIR_extractedIonPerBunch" = Some (VFloat ext) /\
    (1 <= n <= 7)%Z /\ 0 < scl /\
    ipp * IZR (n - 1) * LEIR_injection_efficiency i < scl /\
    ((n < 7)%Z ->
     scl <= tot /\ ext = LEIR_transmission i * scl / IZR (LEIR_bunches self)).
Proof.
  intros Hreach Hphys Hauto.
  destruct (simulate_gammas_physical read_csv a self Hreach Hphys)
    as (self1 & l1 & p1 & s1 & Hsim1 & Hl1 & _ & _ & _ & Hgl & _).
  destruct (reachable_initialised read_csv a self Hreach)
    as (_ & _ & _ & _ & _ & _ & _ & _ & _ & _ & Hen & (i & Hi & Hinit) & (T & HT & Hr)).
  destruct Hphys as (i' & Hi' & (Hm & HZ & HQ & HA) & _ & _ & _ & Hsrc & _).
  assert (i' = i) by congruence. subst i'. clear Hi'.
  destruct (Hsrc Hauto) as [Hcur Hpul]. clear Hsrc.
  destruct Hinit as (_ & _ & _ & _ & _ & _ & _ & _ & Hie & _).
  assert (Hie' : 0 < LEIR_injection_efficiency i)
    by (rewrite Hie; simpl; unfold Ideal.dec; simpl; lra).
  clear Hie.
  destruct (Pb_reference_positive T HT) as (HN1 & _ & _ & Hm0).
  pose proof (Pb_reference_gammas T) as G. cbv zeta in G.
  destruct G as (_ & G2 & _).
  assert (HQ0 : 0 < Q0_LEIR (Pb_reference T))
    by (simpl; unfold Ideal.dec; simpl; lra).
  pose proof e_positive as He.
  destruct (calculate_runs self _ _ Hi Hr Hen) as (res & self' & Hcalc).
  remember (Pb_reference T) as r eqn:Er. clear Er HT Hen Hreach.
  exists res, self', i.
  destruct (calculate_entries self res self' Hcalc)
    as (i' & r' & l & p & s & n & Hi' & Hr' & Hsim & Hl & _ & _ & H).
  assert (i' = i) by congruence. assert (r' = r) by congruence. subst i' r'.
  assert (self1 = self') by congruence. subst self1.
  assert (l1 = l) by congruence. subst l1.
  cbv zeta in H. simpl in H. rewrite Hauto in H. simpl in H.
  destruct H as ((c & Hc & Hn) & Dipp & Dn & Dtot & Dscl & _ & Dext & _).
  injection Hc as Hc.
  rewrite ?py_min_Rmin, ?np_min_Rmin in *.
  assert (Hipp : 0 < linac3_current i * linac3_pulseLength i / (ion_Q i * e))
    by (apply Rdiv_lt_0_compat; apply Rmult_lt_0_compat; lra).
  set (ipp := linac3_current i * linac3_pulseLength i / (ion_Q i * e)) in *.
  assert (Hscl : 0 < Nb0_LEIR_extr r
                     * (mass_GeV i / m0_GeV r * pow2 (Q0_LEIR r / ion_Q i)
                        * (beta (gamma_LEIR_extr l) / beta (gamma0_LEIR_extr r))
                        * pow2 (gamma_LEIR_extr l / gamma0_LEIR_extr r)))
    by (apply intensity_positive; assumption).
  set (scl := Nb0_LEIR_extr r * _) in Hscl, Hc, Dscl, Dext.
  clearbody ipp scl.
  set (eff := LEIR_injection_efficiency i) in *.
  assert (Hd : 0 < ipp * eff) by (apply Rmult_lt_0_compat; assumption).
  assert (HX : 0 < scl / (ipp * eff)) by (apply Rdiv_lt_0_compat; assumption).
  destruct (ceil_bounds (scl / (ipp * eff))) as [Hlo Hhi]. rewrite Hc in Hlo, Hhi.
  assert (Hc1 : (1 <= c)%Z).
  { assert (0 < IZR c) by lra. apply lt_IZR in H. lia. }
  assert (Hsclx : scl = scl / (ipp * eff) * (ipp * eff)) by (field; lra).
  exists n, ipp, (ipp * IZR n * eff), scl,
         (LEIR_transmission i * Rmin (ipp * IZR n * eff) scl / IZR (LEIR_bunches self)).
  split; [exact Hcalc |]. split; [exact Hi |].
  split; [exact Dn |]. split; [exact Dipp |]. split; [exact Dtot |].
  split; [exact Dscl |]. split; [exact Dext |].
  split; [subst n; lia |]. split; [exact Hscl |].
  split.
  - assert (Hnc : IZR (n - 1) < scl / (ipp * eff)).
    { apply Rle_lt_trans with (IZR (c - 1)); [apply IZR_le; subst n; lia |].
      rewrite minus_IZR. lra. }
    rewrite Hsclx at 1.
    replace (ipp * IZR (n - 1) * eff) with (IZR (n - 1) * (ipp * eff)) by ring.
    apply Rmult_lt_compat_r; assumption.
  - intros Hn7. assert (Hnc : IZR n = IZR c) by (f_equal; lia).
    assert (Hle : scl <= ipp * IZR n * eff).
    { rewrite Hsclx at 1.
      replace (ipp * IZR n * eff) with (IZR n * (ipp * eff)) by ring.
      apply Rmult_le_compat_r; lra. }
    split; [exact Hle |]. rewrite Rmin_right by exact Hle. reflexivity.
Qed.

Lemma auto_objectR_physical : physical auto_objectR.
Proof.
  unfold physical. eexists. split; [reflexivity |].
  simpl. unfold Ideal.dec. simpl.
  repeat split; try lra; try lia; try discriminate.
Qed.

Lemma auto_pulses_fill_LEIR_witness :
  reachable no_energiesR auto_argsR auto_objectR /\
  physical auto_objectR /\ nPulsesLEIR auto_objectR = 0%Z /\
  exists res self' i n ipp tot scl ext,
    calculate_LHC_bunch_intensity auto_objectR = OK (res, self') /\
    ion auto_objectR = Some i /\
    dict_get res "LEIR_numberofPulses" = Some (VInt n) /\
    dict_get res "Linac3_ionsPerPulse" = Some (VFloat ipp) /\
    dict_get res "LEIR_maxIntensity" = Some (VFloat tot) /\
    dict_get res "LEIR_space_charge_limit" = Some (VFloat scl) /\
    dict_get res "LEIR_extractedIonPerBunch" = Some (VFloat ext) /\
    (1 <= n <= 7)%Z /\ 0 < scl /\
    ipp * IZR (n - 1) * LEIR_injection_efficiency i < scl /\
    ((n < 7)%Z ->
     scl <= tot /\ ext = LEIR_transmission i * scl / IZR (LEIR_bunches auto_objectR)).
Proof.
  assert (Hreach : reachable no_energiesR auto_argsR auto_objectR)
    by (apply reach_init; reflexivity).
  assert (Hauto : nPulsesLEIR auto_objectR = 0%Z) by reflexivity.
  split; [exact Hreach |]. split; [exact auto_objectR_physical |].
  split; [exact Hauto |].
  exact (auto_pulses_fill_LEIR no_energiesR auto_argsR auto_objectR
           Hreach auto_objectR_physical Hauto).
Defined.

End FurtherReals.

(** * The older class [CERN_Injector_Chain] *)

Section Older.
Context {num : Type} {arith : Arith num}.
Local Open Scope num_scope.
Implicit Types (self : InjectorChain num).

(** ** Objects of the two classes side by side *)

(** The reference intensities of the PS that the constructors assign. *)
Lemma counterpart_reference (read_csv : string -> result (EnergyTable num))
    (a : CERN_Injector_Chain.Args num) (hb : bool) (self : InjectorChain num) :
  __init__ read_csv (current_args a hb) = OK self ->
  exists self0 r r0,
    CERN_Injector_Chain.__init__ a = OK self0 /\ counterpart self self0 /\
    reference self = Some r /\ reference self0 = Some r0 /\
    Nb0_PS_extr r = ndec 6 10 / ndec 540 (-1) /\
    Nb0_PS_extr r0 = ndec 8 10 / ndec 540 (-1).
Proof.
  unfold __init__, CERN_Injector_Chain.__init__.
  destruct a as [it tab itr nP LB PSs acc strip]. intros H.
  apply bind_OK in H. destruct H as (t & _ & H). cbv beta zeta in H.
  apply bind_OK in H. destruct H as (s1 & E1 & H).
  unfold init_ion, CERN_Injector_Chain.init_ion in *. simpl in *.
  destruct (column tab it) as [d |]; simpl in *; [| discriminate E1].
  injection E1 as <-.
  unfold ion0_referenceValues, CERN_Injector_Chain.ion0_referenceValues in *.
  simpl in *.
  destruct (String.eqb itr "Pb"); simpl in *; [| discriminate H].
  injection H as <-. do 3 eexists. split; [reflexivity |].
  unfold counterpart, same_reference_but_PS. simpl. repeat split.
Qed.

(** The constructors return counterparts. *)
Lemma counterpart_constructed (read_csv : string -> result (EnergyTable num))
    (a : CERN_Injector_Chain.Args num) (hb : bool) self :
  __init__ read_csv (current_args a hb) = OK self ->
  exists self0, CERN_Injector_Chain.__init__ a = OK self0 /\ counterpart self self0.
Proof.
  intros H.
  destruct (counterpart_reference read_csv a hb self H) as (self0 & _ & _ & H0 & Hc & _).
  exists self0. split; assumption.
Qed.

(** [init_ion] on counterparts. *)
Lemma counterpart_init_ion self (self0 : InjectorChain num) n :
  counterpart self self0 ->
  match init_ion self n with
  | OK self' =>
      exists self0', CERN_Injector_Chain.init_ion self0 n = OK self0' /\
                     counterpart self' self0'
  | Raise err => CERN_Injector_Chain.init_ion self0 n = Raise err
  end.
Proof.
  intros Hc.
  destruct self as [fid strip hb ugr ied dm acc cons nP LB PSs itr sp urg io eo ro lo po so].
  destruct self0 as [fid0 strip0 hb0 ugr0 ied0 dm0 acc0 cons0 nP0 LB0 PSs0 itr0 sp0 urg0
                     io0 eo0 ro0 lo0 po0 so0].
  unfold counterpart in Hc. simpl in Hc.
  destruct Hc as (-> & -> & -> & -> & -> & -> & -> & -> & -> & -> & -> & Hr).
  unfold init_ion, CERN_Injector_Chain.init_ion. simpl.
  destruct (column fid n) as [d | err]; simpl; [| reflexivity].
  eexists. split; [reflexivity |].
  unfold counterpart. simpl. repeat split. exact Hr.
Qed.

(** [init_ion] of the older class leaves the reference values. *)
Lemma older_init_ion_reference (self0 self0' : InjectorChain num) n :
  CERN_Injector_Chain.init_ion self0 n = OK self0' -> reference self0' = reference self0.
Proof.
  unfold CERN_Injector_Chain.init_ion.
  destruct (column (full_ion_data self0) n); simpl; [| discriminate].
  intros H. injection H as <-. reflexivity.
Qed.

(** [calculate_LHC_bunch_intensity] on counterparts. *)
Lemma counterpart_calculate self (self0 : InjectorChain num) :
  counterpart self self0 ->
  match calculate_LHC_bunch_intensity self with
  | OK (res, self') =>
      exists self0',
        CERN_Injector_Chain.calculate_LHC_bunch_intensity self0
        = OK (without "PS_space_charge_limit" res, self0') /\
        counterpart self' self0'
  | Raise err => CERN_Injector_Chain.calculate_LHC_bunch_intensity self0 = Raise err
  end.
Proof.
  intros Hc.
  destruct self as [fid strip hb ugr ied dm acc cons nP LB PSs itr sp urg io eo ro lo po so].
  destruct self0 as [fid0 strip0 hb0 ugr0 ied0 dm0 acc0 cons0 nP0 LB0 PSs0 itr0 sp0 urg0
                     io0 eo0 ro0 lo0 po0 so0].
  unfold counterpart in Hc. simpl in Hc.
  destruct Hc as (-> & -> & -> & -> & -> & -> & -> & -> & -> & -> & -> & Hr).
  unfold calculate_LHC_bunch_intensity, simulate_injection_SpaceCharge_limit,
    leir, ps, sps, linearIntensityLimit,
    CERN_Injector_Chain.calculate_LHC_bunch_intensity,
    CERN_Injector_Chain.simulate_injection_SpaceCharge_limit,
    CERN_Injector_Chain.leir, CERN_Injector_Chain.ps, CERN_Injector_Chain.sps.
  simpl.
  destruct io as [i |]; simpl; [| reflexivity].
  destruct ro as [r |], ro0 as [r0 |]; simpl; try contradiction; try reflexivity.
  destruct r, r0. unfold same_reference_but_PS in Hr. simpl in Hr.
  destruct Hr as (-> & -> & -> & -> & -> & -> & -> & -> & -> & -> & -> & -> & ->
                  & -> & -> & -> & -> & -> & -> & -> & ->).
  simpl.
  destruct urg; simpl;
    (destruct (nP =? 0)%Z; simpl;
     repeat match goal with
       | |- context [bind ?m _] =>
           lazymatch m with
           | nceil _ => destruct m
           | ntrunc _ => destruct m
           end; simpl
       end;
     try reflexivity;
     destruct strip; simpl; (eexists; split; [reflexivity |]);
     unfold counterpart, same_reference_but_PS; simpl; repeat split).
Qed.


(** The stage methods on counterparts: the intensity of the PS is the
    reference intensity of the class times one factor. *)
Lemma counterpart_stages (self self0 st : InjectorChain num) r r0 :
  counterpart self self0 ->
  reference self = Some r -> reference self0 = Some r0 ->
  simulate_injection_SpaceCharge_limit self = OK st ->
  exists st0 l p p0 s F Q,
    CERN_Injector_Chain.simulate_injection_SpaceCharge_limit self0 = OK st0 /\
    leir_out st = Some l /\ leir_out st0 = Some l /\
    sps_out st = Some s /\ sps_out st0 = Some s /\
    ps_out st = Some p /\ ps_out st0 = Some p0 /\
    gamma_PS_inj p0 = gamma_PS_inj p /\ gamma_PS_extr p0 = gamma_PS_extr p /\
    Nb_PS_extr p = Nb0_PS_extr r * F /\
    Nb_PS_extr p0 = Nb0_PS_extr r0 * F /\
    Nq_PS_extr p = Nb_PS_extr p * Q /\ Nq_PS_extr p0 = Nb_PS_extr p0 * Q.
Proof.
  intros Hc Hr Hr0.
  destruct self as [fid strip hb ugr ied dm acc cons nP LB PSs itr sp urg io eo ro lo po so].
  destruct self0 as [fid0 strip0 hb0 ugr0 ied0 dm0 acc0 cons0 nP0 LB0 PSs0 itr0 sp0 urg0
                     io0 eo0 ro0 lo0 po0 so0].
  unfold counterpart in Hc. simpl in Hc, Hr, Hr0. subst ro ro0.
  destruct Hc as (-> & -> & -> & -> & -> & -> & -> & -> & -> & -> & -> & Hr).
  unfold simulate_injection_SpaceCharge_limit, leir, ps, sps, linearIntensityLimit,
    CERN_Injector_Chain.simulate_injection_SpaceCharge_limit,
    CERN_Injector_Chain.leir, CERN_Injector_Chain.ps, CERN_Injector_Chain.sps.
  simpl.
  destruct io as [i |]; simpl; [| discriminate].
  destruct r, r0. unfold same_reference_but_PS in Hr. simpl in Hr.
  destruct Hr as (-> & -> & -> & -> & -> & -> & -> & -> & -> & -> & -> & -> & ->
                  & -> & -> & -> & -> & -> & -> & -> & ->).
  simpl.
  destruct urg; simpl; intros H; injection H as <-; simpl;
    do 7 eexists; repeat split; reflexivity.
Qed.

(** ** Deleting a key *)

Lemma without_set_same {V : Type} (k : string) (d : dict V) (x : V) :
  without k (dict_set d k x) = without k d.
Proof.
  unfold without. induction d as [| [k1 v1] d IH]; simpl.
  - rewrite String.eqb_refl. reflexivity.
  - destruct (String.eqb k1 k) eqn:E; simpl; rewrite E; simpl; [reflexivity |].
    f_equal. exact IH.
Qed.

Lemma without_set_other {V : Type} (k k' : string) (d : dict V) (x : V) :
  k' <> k -> without k (dict_set d k' x) = dict_set (without k d) k' x.
Proof.
  intros Hne. apply String.eqb_neq in Hne.
  unfold without. induction d as [| [k1 v1] d IH]; simpl.
  - rewrite Hne. reflexivity.
  - destruct (String.eqb k1 k') eqn:E; simpl.
    + apply String.eqb_eq in E. subst k1. rewrite Hne. simpl.
      rewrite String.eqb_refl. reflexivity.
    + destruct (String.eqb k1 k) eqn:E'; simpl; [exact IH |].
      rewrite E. f_equal. exact IH.
Qed.

Lemma append_items_without (k : string) (res : dict (value num)) :
  forall full_result,
    append_items (without k full_result) (without k res)
    = without k (append_items full_result res).
Proof.
  unfold append_items.
  induction res as [| [k' v] res IH]; intros acc; simpl; [reflexivity |].
  destruct (String.eqb k' k) eqn:E; simpl.
  - apply String.eqb_eq in E. subst k'. rewrite <- IH. f_equal.
    destruct (dict_get acc k); rewrite without_set_same; reflexivity.
  - apply String.eqb_neq in E. rewrite <- IH. f_equal.
    unfold without at 1. rewrite (dict_get_filter_other acc k k' E).
    destruct (dict_get acc k'); rewrite (without_set_other k k' _ _ E); reflexivity.
Qed.

Lemma without_comm {V : Type} (k k' : string) (d : dict V) :
  without k (without k' d) = without k' (without k d).
Proof.
  unfold without. induction d as [| [k1 v1] d IH]; simpl; [reflexivity |].
  destruct (String.eqb k1 k') eqn:E, (String.eqb k1 k) eqn:E'; simpl;
    rewrite ?E, ?E'; simpl; rewrite ?IH; reflexivity.
Qed.

(** Setting the index of a frame after a column was deleted that is
    neither the first one nor the index. *)
Lemma set_index_without (k key k0 : string) c0 (d : dict (list (value num))) df :
  k0 <> k -> key <> k ->
  DataFrame_set_index ((k0, c0) :: d) key = OK df ->
  DataFrame_set_index (without k ((k0, c0) :: d)) key = OK (drop_column k df).
Proof.
  intros H0 Hkey H.
  assert (Hw : without k ((k0, c0) :: d) = (k0, c0) :: without k d).
  { unfold without. simpl. apply String.eqb_neq in H0. rewrite H0. reflexivity. }
  assert (Hget : dict_get (without k ((k0, c0) :: d)) key = dict_get ((k0, c0) :: d) key)
    by (apply dict_get_filter_other; exact Hkey).
  assert (Hw' := Hw).
  rewrite Hw in Hget |- *. clear Hw'. unfold DataFrame_set_index in *.
  destruct (forallb _ ((k0, c0) :: d)) eqn:Hall; [| discriminate H].
  assert (Hall' : forallb (fun c => Nat.eqb (List.length (snd c)) (List.length c0))
                    ((k0, c0) :: without k d) = true).
  { rewrite <- Hw. apply forallb_forall. intros c Hc.
    apply filter_In in Hc. destruct Hc as [Hc _].
    exact (proj1 (forallb_forall _ _) Hall c Hc). }
  rewrite Hall', Hget.
  destruct (dict_get ((k0, c0) :: d) key) as [col |]; [| discriminate H].
  injection H as <-. unfold drop_column. cbn [df_index df_columns].
  f_equal. f_equal. rewrite <- Hw. exact (without_comm key k ((k0, c0) :: d)).
Qed.

(** The index can be set on the columns of a list of records that all have
    the key. *)
Lemma set_index_transpose (ks : list string) (results : list (dict (value num))) key :
  In key ks -> Forall (fun d => keys d = ks) results ->
  exists df, DataFrame_set_index (transpose ks results) key = OK df.
Proof.
  intros Hion Hkeys.
  assert (Hhas : forall k, In k ks -> Forall (fun d => In k (keys d)) results).
  { intros k Hk. eapply Forall_impl; [| exact Hkeys]. simpl. intros d ->. exact Hk. }
  unfold DataFrame_set_index.
  destruct (transpose ks results) as [| [k0 c0] cols] eqn:Et.
  - destruct ks; [contradiction | discriminate Et].
  - rewrite <- Et. rewrite (dict_get_transpose ks results key Hion).
    assert (Hlen : forallb (fun c => Nat.eqb (List.length (snd c)) (List.length c0))
                     (transpose ks results) = true).
    { apply forallb_forall. intros c Hc. apply Nat.eqb_eq.
      assert (Hl : forall c', In c' (transpose ks results) ->
                              List.length (snd c') = List.length results).
      { intros c' Hc'. unfold transpose in Hc'. apply in_map_iff in Hc'.
        destruct Hc' as (k & <- & Hk). simpl. apply length_column, Hhas, Hk. }
      rewrite (Hl c Hc). symmetry.
      apply (Hl (k0, c0)). rewrite Et. left; reflexivity. }
    rewrite Hlen. eexists; reflexivity.
Qed.

(** The loops of batch mode on counterparts. *)
Lemma counterpart_loop (ion_types : list string) :
  forall self (self0 : InjectorChain num) full_result,
  counterpart self self0 ->
  match all_ion_species_loop self ion_types full_result with
  | OK (full_result', self') =>
      exists self0',
        CERN_Injector_Chain.all_ion_species_loop self0 ion_types
          (without "PS_space_charge_limit" full_result)
        = OK (without "PS_space_charge_limit" full_result', self0') /\
        counterpart self' self0'
  | Raise err =>
      CERN_Injector_Chain.all_ion_species_loop self0 ion_types
        (without "PS_space_charge_limit" full_result) = Raise err
  end.
Proof.
  induction ion_types as [| n rest IH]; intros self self0 acc Hc; simpl.
  - eexists. split; [reflexivity | exact Hc].
  - pose proof (counterpart_init_ion self self0 n Hc) as Hi.
    destruct (init_ion self n) as [self1 | err]; simpl.
    + destruct Hi as (self1' & -> & Hc1). simpl.
      pose proof (counterpart_calculate self1 self1' Hc1) as Hcalc.
      destruct (calculate_LHC_bunch_intensity self1) as [[res self2] | err]; simpl.
      * destruct Hcalc as (self2' & -> & Hc2). simpl.
        rewrite append_items_without. apply IH. exact Hc2.
      * rewrite Hcalc. reflexivity.
    + rewrite Hi. reflexivity.
Qed.

(** Batch mode on counterparts. *)
Lemma counterpart_batch self (self0 : InjectorChain num) :
  counterpart self self0 ->
  match calculate_LHC_bunch_intensity_all_ion_species self with
  | OK (df, self') =>
      exists self0',
        CERN_Injector_Chain.calculate_LHC_bunch_intensity_all_ion_species self0
        = OK (drop_column "PS_space_charge_limit" df, self0') /\
        counterpart self' self0'
  | Raise err =>
      CERN_Injector_Chain.calculate_LHC_bunch_intensity_all_ion_species self0
      = Raise err
  end.
Proof.
  intros Hc.
  unfold calculate_LHC_bunch_intensity_all_ion_species,
    CERN_Injector_Chain.calculate_LHC_bunch_intensity_all_ion_species.
  pose proof Hc as (_ & _ & -> & _).
  pose proof (counterpart_loop (columns (full_ion_data self)) self self0 [] Hc) as HL.
  change (without "PS_space_charge_limit" (@nil (string * list (value num)))) with
    (@nil (string * list (value num))) in HL.
  destruct (all_ion_species_loop self (columns (full_ion_data self)) [])
    as [[full self'] | err] eqn:E; simpl.
  - destruct HL as (self0' & -> & Hc'). simpl.
    destruct (full_ion_data self) as [| c t] eqn:Et.
    + simpl in E. injection E as <- <-. simpl. reflexivity.
    + assert (Hne : full_ion_data self <> []) by (rewrite Et; discriminate).
      rewrite <- Et in E.
      destruct (batch_columns _ _ _ E Hne) as (results & ks & Hall & Hks & Hkeys & ->).
      assert (Hion : In "Ion" ks).
      { rewrite Hks. apply in_or_app. left. unfold result_keys. simpl. tauto. }
      destruct (set_index_transpose ks results "Ion" Hion Hkeys) as [df Hdf].
      rewrite Hdf. simpl.
      assert (Hhead : exists c0 d, transpose ks results = ("chargeBeforeStrip", c0) :: d).
      { rewrite Hks. unfold transpose, result_keys. simpl. do 2 eexists. reflexivity. }
      destruct Hhead as (c0 & d & Hhead). rewrite Hhead in *.
      rewrite (set_index_without "PS_space_charge_limit" "Ion" "chargeBeforeStrip"
                 c0 d df) by (discriminate || exact Hdf).
      simpl. eexists. split; [reflexivity | exact Hc'].
  - rewrite HL. reflexivity.
Qed.

(** ** The two classes compute the same *)

(** X25: an object of the older class [CERN_Injector_Chain] computes what
    an [InjectorChain] built from the same arguments computes when the space
    charge limit of the PS and the precomputed gammas are switched off:
    whenever the constructor of [InjectorChain] returns, so does the older
    one, and [calculate_LHC_bunch_intensity] of the older class returns the
    result of the current class without the entry "PS_space_charge_limit",
    or raises the same exception. *)
Theorem older_class_same_result (read_csv : string -> result (EnergyTable num))
    (a : CERN_Injector_Chain.Args num) (higher_brho_LEIR : bool) self :
  __init__ read_csv (current_args a higher_brho_LEIR) = OK self ->
  exists self0,
    CERN_Injector_Chain.__init__ a = OK self0 /\
    match calculate_LHC_bunch_intensity self with
    | OK (res, _) =>
        exists self0',
          CERN_Injector_Chain.calculate_LHC_bunch_intensity self0
          = OK (without "PS_space_charge_limit" res, self0')
    | Raise err => CERN_Injector_Chain.calculate_LHC_bunch_intensity self0 = Raise err
    end.
Proof.
  intros H.
  destruct (counterpart_constructed read_csv a higher_brho_LEIR self H) as (self0 & H0 & Hc).
  exists self0. split; [exact H0 |].
  pose proof (counterpart_calculate self self0 Hc) as Hcalc.
  destruct (calculate_LHC_bunch_intensity self) as [[res self'] | err].
  - destruct Hcalc as (self0' & Hres & _). exists self0'. exact Hres.
  - exact Hcalc.
Qed.

(** X26: in batch mode, too, the older class [CERN_Injector_Chain] returns
    what an [InjectorChain] built from the same arguments returns when the
    space charge limit of the PS and the precomputed gammas are switched
    off: the same table without the column "PS_space_charge_limit", or the
    same exception. *)
Theorem older_class_same_table (read_csv : string -> result (EnergyTable num))
    (a : CERN_Injector_Chain.Args num) (higher_brho_LEIR : bool) self :
  __init__ read_csv (current_args a higher_brho_LEIR) = OK self ->
  exists self0,
    CERN_Injector_Chain.__init__ a = OK self0 /\
    match calculate_LHC_bunch_intensity_all_ion_species self with
    | OK (df, _) =>
        exists self0',
          CERN_Injector_Chain.calculate_LHC_bunch_intensity_all_ion_species self0
          = OK (drop_column "PS_space_charge_limit" df, self0')
    | Raise err =>
        CERN_Injector_Chain.calculate_LHC_bunch_intensity_all_ion_species self0
        = Raise err
    end.
Proof.
  intros H.
  destruct (counterpart_constructed read_csv a higher_brho_LEIR self H) as (self0 & H0 & Hc).
  exists self0. split; [exact H0 |].
  pose proof (counterpart_batch self self0 Hc) as Hb.
  destruct (calculate_LHC_bunch_intensity_all_ion_species self) as [[df self'] | err].
  - destruct Hb as (self0' & Hres & _). exists self0'. exact Hres.
  - exact Hb.
Qed.

End Older.

(** ** The two classes on the example table *)

Section OlderBinary64.

Lemma switched_off_object_constructed :
  __init__ no_energies64 (current_args older_args64 false) = OK switched_off_object64.
Proof. vm_compute. reflexivity. Qed.

Lemma older_class_same_result_witness :
  exists self0,
    CERN_Injector_Chain.__init__ older_args64 = OK self0 /\
    match calculate_LHC_bunch_intensity switched_off_object64 with
    | OK (res, _) =>
        exists self0',
          CERN_Injector_Chain.calculate_LHC_bunch_intensity self0
          = OK (without "PS_space_charge_limit" res, self0')
    | Raise err => CERN_Injector_Chain.calculate_LHC_bunch_intensity self0 = Raise err
    end.
Proof.
  exact (older_class_same_result no_energies64 older_args64 false switched_off_object64
           switched_off_object_constructed).
Defined.

Lemma older_class_same_table_witness :
  exists self0,
    CERN_Injector_Chain.__init__ older_args64 = OK self0 /\
    match calculate_LHC_bunch_intensity_all_ion_species switched_off_object64 with
    | OK (df, _) =>
        exists self0',
          CERN_Injector_Chain.calculate_LHC_bunch_intensity_all_ion_species self0
          = OK (drop_column "PS_space_charge_limit" df, self0')
    | Raise err =>
        CERN_Injector_Chain.calculate_LHC_bunch_intensity_all_ion_species self0
        = Raise err
    end.
Proof.
  exact (older_class_same_table no_energies64 older_args64 false switched_off_object64
           switched_off_object_constructed).
Defined.

End OlderBinary64.

(** ** The intensity of the PS in the two classes *)

Section OlderReals.
Open Scope R_scope.

(** The reference intensities of the PS in the two classes: 8e10 charges
    against 6e10. *)
Lemma Nb0_PS_ratio :
  (ndec 8 10 / ndec 540 (-1) = 4 / 3 * (ndec 6 10 / ndec 540 (-1)))%R.
Proof.
  change (IZR (8 * 10 ^ 10) / (IZR 540 / IZR (10 ^ 1))
          = 4 / 3 * (IZR (6 * 10 ^ 10) / (IZR 540 / IZR (10 ^ 1)))).
  replace (8 * 10 ^ 10)%Z with (4 * (2 * 10 ^ 10))%Z by reflexivity.
  replace (6 * 10 ^ 10)%Z with (3 * (2 * 10 ^ 10))%Z by reflexivity.
  rewrite !mult_IZR. change (10 ^ 1)%Z with 10%Z.
  generalize (IZR (2 * 10 ^ 10)). intros x. field.
Qed.

(** X27: the one number the two classes compute differently is the
    intensity limit of the PS.  Over the real numbers, for an object of
    each class built from the same arguments and any ion of the table, the
    stage methods assign the same gammas and the same intensities of LEIR
    and the SPS, and the older class [CERN_Injector_Chain] assigns 4/3 of
    the [Nb_PS_extr] and [Nq_PS_extr] of [InjectorChain]: its reference
    intensity of the PS is 8e10 charges, not 6e10. *)
Theorem older_class_PS_intensity (read_csv : string -> result (EnergyTable R))
    (a : CERN_Injector_Chain.Args R) (higher_brho_LEIR : bool)
    (self self1 st : InjectorChain R) (ion_type : string) :
  __init__ read_csv (current_args a higher_brho_LEIR) = OK self ->
  init_ion self ion_type = OK self1 ->
  simulate_injection_SpaceCharge_limit self1 = OK st ->
  exists self0 self2 st0 l p p0 s,
    CERN_Injector_Chain.__init__ a = OK self0 /\
    CERN_Injector_Chain.init_ion self0 ion_type = OK self2 /\
    CERN_Injector_Chain.simulate_injection_SpaceCharge_limit self2 = OK st0 /\
    leir_out st = Some l /\ leir_out st0 = Some l /\
    sps_out st = Some s /\ sps_out st0 = Some s /\
    ps_out st = Some p /\ ps_out st0 = Some p0 /\
    gamma_PS_inj p0 = gamma_PS_inj p /\ gamma_PS_extr p0 = gamma_PS_extr p /\
    Nb_PS_extr p0 = 4 / 3 * Nb_PS_extr p /\
    Nq_PS_extr p0 = 4 / 3 * Nq_PS_extr p.
Proof.
  intros H Hinit Hsim.
  destruct (counterpart_reference read_csv a higher_brho_LEIR self H)
    as (self0 & r & r0 & H0 & Hc & Hr & Hr0 & Hb & Hb0).
  pose proof (counterpart_init_ion self self0 ion_type Hc) as Hi.
  rewrite Hinit in Hi. destruct Hi as (self2 & Hinit0 & Hc1).
  assert (Hr1 : reference self1 = Some r).
  { destruct (init_ion_OK _ _ _ Hinit) as (_ & _ & _ & _ & _ & _ & -> & _). exact Hr. }
  assert (Hr2 : reference self2 = Some r0).
  { rewrite (older_init_ion_reference _ _ _ Hinit0). exact Hr0. }
  destruct (counterpart_stages self1 self2 st r r0 Hc1 Hr1 Hr2 Hsim)
    as (st0 & l & p & p0 & s & F & Q & H2 & Hl & Hl0 & Hs & Hs0
        & Hp & Hp0 & Hg1 & Hg2 & HF & HF0 & Hq & Hq0).
  exists self0, self2, st0, l, p, p0, s.
  repeat (split; [assumption |]).
  assert (Hnb : Nb_PS_extr p0 = 4 / 3 * Nb_PS_extr p).
  { rewrite HF0, HF, Hb, Hb0. change nmul with Rmult. change ndiv with Rdiv.
    rewrite Nb0_PS_ratio. ring. }
  split; [exact Hnb |].
  rewrite Hq0, Hq, Hnb. change nmul with Rmult. ring.
Qed.

Lemma older_class_PS_intensity_witness :
  exists self1 st self0 self2 st0 l p p0 s,
    __init__ no_energiesR (current_args older_argsR false) = OK switched_off_objectR /\
    init_ion switched_off_objectR "O" = OK self1 /\
    simulate_injection_SpaceCharge_limit self1 = OK st /\
    CERN_Injector_Chain.__init__ older_argsR = OK self0 /\
    CERN_Injector_Chain.init_ion self0 "O" = OK self2 /\
    CERN_Injector_Chain.simulate_injection_SpaceCharge_limit self2 = OK st0 /\
    leir_out st = Some l /\ leir_out st0 = Some l /\
    sps_out st = Some s /\ sps_out st0 = Some s /\
    ps_out st = Some p /\ ps_out st0 = Some p0 /\
    gamma_PS_inj p0 = gamma_PS_inj p /\ gamma_PS_extr p0 = gamma_PS_extr p /\
    Nb_PS_extr p0 = 4 / 3 * Nb_PS_extr p /\
    Nq_PS_extr p0 = 4 / 3 * Nq_PS_extr p.
Proof.
  assert (H : __init__ no_energiesR (current_args older_argsR false)
              = OK switched_off_objectR) by reflexivity.
  assert (H1 : exists self1, init_ion switched_off_objectR "O" = OK self1)
    by (eexists; reflexivity).
  destruct H1 as [self1 H1].
  assert (H2 : exists st, simulate_injection_SpaceCharge_limit self1 = OK st).
  { destruct (init_ion_OK _ _ _ H1) as (i & Hi & _ & _ & _ & Hc & Hr & _).
    destruct Hc as (_ & _ & _ & Hg & _).
    assert (Hg0 : use_gammas_ref switched_off_objectR = false) by reflexivity.
    assert (Hr0 : exists r, reference switched_off_objectR = Some r)
      by (eexists; reflexivity).
    destruct Hr0 as [r Hr0].
    destruct (calculate_runs self1 i r Hi) as (res & self' & Hcalc);
      [congruence | rewrite Hg, Hg0; discriminate |].
    unfold calculate_LHC_bunch_intensity in Hcalc.
    apply bind_OK in Hcalc. destruct Hcalc as (st & Hsim & _).
    exists st. exact Hsim. }
  destruct H2 as [st H2].
  exists self1, st.
  destruct (older_class_PS_intensity no_energiesR older_argsR false
              switched_off_objectR self1 st "O" H H1 H2)
    as (self0 & self2 & st0 & l & p & p0 & s & Hall).
  exists self0, self2, st0, l, p, p0, s.
  split; [exact H |]. split; [exact H1 |]. split; [exact H2 |]. exact Hall.
Defined.

End OlderReals.
